(** * SmartWebsiteScraper: a shallow embedding of
      [company-intelligence-py/smart_scraper.py]

    The scraper fetches a page through a chain of strategies (aiohttp,
    Playwright, aiohttp on URL variations) and turns the markup into a
    structured dictionary.  Python strings are modelled by [string], one
    [ascii] per character; dictionaries by [gmap]; [list(set(..))] by
    [gset]; exceptions by the sum [exn + A]. *)

From Stdlib Require Import ZArith Ascii.
From stdpp Require Import gmap strings list.

Local Open Scope Z_scope.

(** ** Python string operations used by the scraper *)

Module PyStr.

Definition len (s : string) : Z := Z.of_nat (String.length s).

(** [s.startswith(p)] *)
Fixpoint startswith (p s : string) : bool :=
  match p, s with
  | EmptyString, _ => true
  | String a p', String b s' => if decide (a = b) then startswith p' s' else false
  | String _ _, EmptyString => false
  end.

(** [sub in s] *)
Fixpoint contains (sub s : string) : bool :=
  startswith sub s ||
  match s with
  | EmptyString => false
  | String _ s' => contains sub s'
  end.

Fixpoint drop (n : nat) (s : string) : string :=
  match n, s with
  | O, _ => s
  | S n', String _ s' => drop n' s'
  | S _, EmptyString => EmptyString
  end.

Fixpoint take (n : nat) (s : string) : string :=
  match n, s with
  | S n', String c s' => String c (take n' s')
  | _, _ => EmptyString
  end.

(** [s[:n]] for an arbitrary integer [n]: a negative bound counts from
    the end of the string. *)
Definition slice_to (s : string) (n : Z) : string :=
  if n <? 0 then take (Z.to_nat (len s + n)) s else take (Z.to_nat n) s.

(** [s.replace(old, new, 1)]: only the leftmost occurrence is replaced. *)
Fixpoint replace_first (old new s : string) : string :=
  if startswith old s then new +:+ drop (String.length old) s
  else match s with
       | EmptyString => EmptyString
       | String c s' => String c (replace_first old new s')
       end.

(** [s.replace(old, "")] for a one-character [old]. *)
Fixpoint remove_char (c : ascii) (s : string) : string :=
  match s with
  | EmptyString => EmptyString
  | String a s' => if decide (a = c) then remove_char c s' else String a (remove_char c s')
  end.

(** [s.rstrip(c)] for a one-character argument: every trailing [c] goes. *)
Fixpoint rstrip_char (c : ascii) (s : string) : string :=
  match s with
  | EmptyString => EmptyString
  | String a s' =>
      match rstrip_char c s' with
      | EmptyString => if decide (a = c) then EmptyString else String a EmptyString
      | r => String a r
      end
  end.

Fixpoint lstrip_by (f : ascii -> bool) (s : string) : string :=
  match s with
  | EmptyString => EmptyString
  | String a s' => if f a then lstrip_by f s' else s
  end.

Fixpoint rstrip_by (f : ascii -> bool) (s : string) : string :=
  match s with
  | EmptyString => EmptyString
  | String a s' =>
      match rstrip_by f s' with
      | EmptyString => if f a then EmptyString else String a EmptyString
      | r => String a r
      end
  end.

(** [str.isspace] on the code points below 256. *)
Definition isspace (c : ascii) : bool :=
  let n := nat_of_ascii c in
  ((9 <=? n) && (n <=? 13) || (28 <=? n) && (n <=? 32) ||
   (n =? 133) || (n =? 160))%nat.

(** [s.strip()] *)
Definition strip (s : string) : string := rstrip_by isspace (lstrip_by isspace s).

Definition lower_char (c : ascii) : ascii :=
  let n := nat_of_ascii c in
  if ((65 <=? n) && (n <=? 90))%nat then ascii_of_nat (n + 32) else c.

(** [s.lower()]; only the letters A-Z change. *)
Fixpoint lower (s : string) : string :=
  match s with
  | EmptyString => EmptyString
  | String c s' => String (lower_char c) (lower s')
  end.

(** [s.find(c)] for a one-character needle. *)
Fixpoint find_char (c : ascii) (s : string) : option nat :=
  match s with
  | EmptyString => None
  | String a s' => if decide (a = c) then Some O else S <$> find_char c s'
  end.

Fixpoint forallb (f : ascii -> bool) (s : string) : bool :=
  match s with
  | EmptyString => true
  | String a s' => f a && forallb f s'
  end.

Definition has_char (c : ascii) (s : string) : bool :=
  match find_char c s with Some _ => true | None => false end.

(** [s.partition(c)], as (head, found, tail). *)
Definition partition (c : ascii) (s : string) : string * bool * string :=
  match find_char c s with
  | Some i => (take i s, true, drop (S i) s)
  | None => (s, false, EmptyString)
  end.

(** The tail of [s.rpartition(c)]: what follows the last [c], or all of
    [s] when there is none. *)
Fixpoint rpartition_tail (c : ascii) (s : string) : string :=
  match s with
  | EmptyString => EmptyString
  | String a s' =>
      if has_char c s' then rpartition_tail c s'
      else if decide (a = c) then s' else s
  end.

Fixpoint repeat_char (c : ascii) (n : nat) : string :=
  match n with O => EmptyString | S n' => String c (repeat_char c n') end.

Fixpoint last_char (s : string) : option ascii :=
  match s with
  | EmptyString => None
  | String a EmptyString => Some a
  | String _ s' => last_char s'
  end.

(** Truthiness of a string: [bool(s)]. *)
Definition truthy (s : string) : bool :=
  match s with EmptyString => false | _ => true end.

End PyStr.

(** ** Exceptions

    Only the class of an exception and its message matter to the scraper:
    the class decides whether tenacity retries, the message ends up in
    [errors_encountered].  Formatted messages keep their pieces apart. *)

Inductive MsgPart :=
| Txt (s : string)
| Num (z : Z).

Inductive exn :=
| ClientError (msg : list MsgPart)        (* aiohttp.ClientError and its subclasses *)
| AsyncioTimeoutError                     (* asyncio.TimeoutError *)
| PlaywrightTimeoutError (msg : string)   (* playwright TimeoutError *)
| PlaywrightError (msg : string)          (* any other playwright Error *)
| RetryError (last : exn)                 (* tenacity.RetryError around the last attempt *)
| AttributeError (msg : string)
| ValueError (msg : string)
| PlainException (msg : string)           (* Exception("...") *)
| OtherException (cls msg : string).

Definition result (A : Type) : Type := exn + A.

(** ** URL handling: [_normalize_url] and [_generate_url_variations] *)

Module Url.
Import PyStr.

(** [_normalize_url], lines 252-256. *)
Definition _normalize_url (url : string) : string :=
  let url :=
    if negb (startswith "http://" url || startswith "https://" url)
    then "https://" +:+ url else url in
  rstrip_char "/" url.

(** *** [urllib.parse.urlparse]

    Library code, outside the repository.  The model follows CPython's
    [urlsplit] for the two attributes the scraper reads, [scheme] and
    [hostname]. *)

Record ParseResult := { scheme : string; netloc : string }.

Definition c0_control_or_space (c : ascii) : bool := (nat_of_ascii c <=? 32)%nat.

Definition isalpha (c : ascii) : bool :=
  let n := nat_of_ascii c in
  ((65 <=? n) && (n <=? 90) || (97 <=? n) && (n <=? 122))%nat.

Definition isdigit (c : ascii) : bool :=
  let n := nat_of_ascii c in ((48 <=? n) && (n <=? 57))%nat.

Definition scheme_char (c : ascii) : bool :=
  isalpha c || isdigit c ||
  bool_decide (c = "+"%char) || bool_decide (c = "-"%char) || bool_decide (c = "."%char).

Definition isascii (c : ascii) : bool := (nat_of_ascii c <? 128)%nat.

(** The scheme, lower-cased, and the rest of the URL. *)
Definition split_scheme (url : string) : string * string :=
  match find_char ":" url, url with
  | Some (S i), String c0 _ =>
      if isascii c0 && isalpha c0 && forallb scheme_char (take (S i) url)
      then (lower (take (S i) url), drop (S (S i)) url)
      else (EmptyString, url)
  | _, _ => (EmptyString, url)
  end.

Definition netloc_delim (c : ascii) : bool :=
  bool_decide (c = "/"%char) || bool_decide (c = "?"%char) || bool_decide (c = "#"%char).

Fixpoint take_until (f : ascii -> bool) (s : string) : string :=
  match s with
  | EmptyString => EmptyString
  | String a s' => if f a then EmptyString else String a (take_until f s')
  end.

Section Urlparse.
(** [_check_bracketed_host] and [_checknetloc] reject some network
    locations with brackets or with characters outside ASCII; which
    ones depends on the interpreter's tables, so the verdict is a
    parameter.  It is consulted for such locations only. *)
Variable netloc_ok : string -> bool.

Definition urlparse (url : string) : result ParseResult :=
  let url := lstrip_by c0_control_or_space url in
  let url := remove_char "010" (remove_char "013" (remove_char "009" url)) in
  let '(sch, rest) := split_scheme url in
  let nl := if startswith "//" rest then take_until netloc_delim (drop 2 rest)
            else EmptyString in
  let open_br := has_char "[" nl in
  let close_br := has_char "]" nl in
  if open_br && negb close_br || close_br && negb open_br
  then inl (ValueError "Invalid IPv6 URL")
  else if (open_br || negb (forallb isascii nl)) && negb (netloc_ok nl)
  then inl (ValueError "netloc rejected")
  else inr {| scheme := sch; netloc := nl |}.

(** The [hostname] property: user information, port and brackets
    removed, lower-cased up to an IPv6 zone; [None] when empty. *)
Definition hostname (r : ParseResult) : option string :=
  let hostinfo := rpartition_tail "@" (netloc r) in
  let '(_, have_open_br, bracketed) := partition "[" hostinfo in
  let host :=
    if have_open_br then (partition "]" bracketed).1.1
    else (partition ":" hostinfo).1.1 in
  if truthy host then
    let '(h, percent, zone) := partition "%" host in
    Some (lower h +:+ (if percent then "%" else "") +:+ zone)
  else None.

(** [_generate_url_variations], lines 258-281.  [parsed.hostname] is
    [None] for a URL without a host, and [None.startswith] raises. *)
Definition _generate_url_variations (url : string) : result (list string) :=
  let variations := [] in
  match urlparse url with
  | inl e => inl e
  | inr parsed =>
      match hostname parsed with
      | None => inl (AttributeError "'NoneType' object has no attribute 'startswith'")
      | Some host =>
          let variations :=
            if startswith "www." host
            then variations ++ [replace_first "www." "" url]
            else variations ++ [replace_first "://" "://www." url] in
          let variations :=
            if bool_decide (scheme parsed = "https")
            then variations ++ [replace_first "https://" "http://" url]
            else variations ++ [replace_first "http://" "https://" url] in
          inr variations
      end
  end.
End Urlparse.

End Url.

(** ** Structural extraction *)

(** What the extractors read from the parsed document.  BeautifulSoup is
    library code: a parsed page enters as the answers to the queries the
    scraper makes, after the unwanted elements and the comments are gone. *)
Record Soup := {
  (** [soup.get_text()] *)
  get_text : string;
  (** [soup.select_one(selector)]: [None] without a match, else the
      element's [get_text()]; a selector the engine rejects raises. *)
  select_one : string -> result (option string);
  (** [link['href']] for each [link] of [soup.find_all('a', href=True)],
      in document order *)
  find_all_a_href : list string;
}.

Module Extract.
Import PyStr.

(** *** [_detect_technologies], lines 451-528 *)

(** [if cond: technologies.append(name)] *)
Definition append_if (cond : bool) (name : string) (technologies : list string)
  : list string :=
  if cond then technologies ++ [name] else technologies.

Definition detected (html : string) : list string :=
  let html_lower := lower html in
  let has s := contains s html_lower in
  let technologies := [] in
  (* CRM and Sales Tools *)
  let technologies :=
    append_if (has "hubspot" || has "hs-scripts.com" || has "hsforms")
      "HubSpot" technologies in
  let technologies :=
    append_if (has "salesforce.com" || has "force.com" ||
               has "sfmc" || has "salesforce" && has "data-sf")
      "Salesforce" technologies in
  let technologies :=
    append_if (has "pipedrive" || has "pipedrive.com") "Pipedrive" technologies in
  (* Analytics *)
  let technologies :=
    append_if (has "google-analytics" || has "gtag(" || has "ga(")
      "Google Analytics" technologies in
  let technologies := append_if (has "mixpanel") "Mixpanel" technologies in
  let technologies :=
    append_if (has "segment.com" || has "cdn.segment.com" || has "analytics.load(")
      "Segment" technologies in
  (* Marketing Tools *)
  let technologies := append_if (has "mailchimp") "Mailchimp" technologies in
  let technologies := append_if (has "marketo") "Marketo" technologies in
  let technologies := append_if (has "pardot") "Pardot" technologies in
  (* Communication Tools *)
  let technologies := append_if (has "intercom") "Intercom" technologies in
  let technologies := append_if (has "zendesk") "Zendesk" technologies in
  let technologies := append_if (has "drift") "Drift" technologies in
  (* Scheduling Tools *)
  let technologies := append_if (has "calendly") "Calendly" technologies in
  let technologies := append_if (has "acuity") "Acuity Scheduling" technologies in
  let technologies := append_if (has "chili piper") "Chili Piper" technologies in
  (* Document Tools *)
  let technologies := append_if (has "pandadoc") "PandaDoc" technologies in
  let technologies := append_if (has "docusign") "DocuSign" technologies in
  let technologies := append_if (has "hellosign") "HelloSign" technologies in
  (* Automation Tools *)
  let technologies := append_if (has "zapier") "Zapier" technologies in
  let technologies := append_if (has "integromat") "Integromat" technologies in
  (* Web Technologies *)
  let technologies := append_if (has "wordpress") "WordPress" technologies in
  let technologies :=
    append_if (has "shopify.com" || has "cdn.shopify.com") "Shopify" technologies in
  let technologies := append_if (has "webflow") "Webflow" technologies in
  let technologies := append_if (has "react") "React" technologies in
  let technologies := append_if (has "vue") "Vue.js" technologies in
  let technologies := append_if (has "angular") "Angular" technologies in
  technologies.

(** [list(set(technologies))]: the order of the result is the set's, so
    the result is kept as a set. *)
Definition _detect_technologies (html : string) : gset string :=
  list_to_set (detected html).

(** *** [_extract_contact_information], lines 530-563 *)

(** One turn of the loop over the anchors, lines 549-558. *)
Definition social_step (social_links : gmap string string) (link : string)
  : gmap string string :=
  let href := lower link in
  if contains "linkedin.com" href then <["linkedin" := link]> social_links
  else if contains "twitter.com" href then <["twitter" := link]> social_links
  else if contains "facebook.com" href then <["facebook" := link]> social_links
  else if contains "instagram.com" href then <["instagram" := link]> social_links
  else social_links.

Definition scan_social_links (links : list string) : gmap string string :=
  fold_left social_step links ∅.

(** [contact_info] has three possible keys, each with its own type of
    value. *)
Record ContactInfo := {
  emails : option (gset string);
  phones : option (list string);
  social_media : option (gmap string string);
}.

Definition no_contact_info : ContactInfo :=
  {| emails := None; phones := None; social_media := None |}.

Section Contact.
(** [re.findall] with the e-mail and the phone pattern; the phone
    pattern has four groups, so each match is a 4-tuple. *)
Variable findall_email : string -> list string.
Variable findall_phone : string -> list (string * string * string * string).

Definition _extract_contact_information (soup : Soup) : ContactInfo :=
  let text_content := get_text soup in
  let found_emails := findall_email text_content in
  let found_phones := findall_phone text_content in
  let social_links := scan_social_links (find_all_a_href soup) in
  {| emails := match found_emails with
               | [] => None
               | _ => Some (list_to_set found_emails)
               end;
     phones := match found_phones with
               | [] => None
               | _ => Some ((fun '(a, b, c, d) => a +:+ b +:+ c +:+ d) <$> found_phones)
               end;
     social_media := if decide (social_links = ∅) then None else Some social_links |}.
End Contact.

(** *** [_extract_content_sections], lines 385-449 *)

(** The plain selector loop (hero, products, pricing, contact): the first
    selector with a match decides, whatever the length of its text. *)
Fixpoint first_selected (soup : Soup) (selectors : list string)
  : result (option string) :=
  match selectors with
  | [] => inr None
  | selector :: rest =>
      match select_one soup selector with
      | inl e => inl e
      | inr (Some text) => inr (Some (strip text))
      | inr None => first_selected soup rest
      end
  end.

(** The about loop wraps each probe in [try: ... except: continue]. *)
Fixpoint first_selected_guarded (soup : Soup) (selectors : list string)
  : option string :=
  match selectors with
  | [] => None
  | selector :: rest =>
      match select_one soup selector with
      | inr (Some text) => Some (strip text)
      | _ => first_selected_guarded soup rest
      end
  end.

(** The team loop also asks for the word "team" in the element's text. *)
Fixpoint first_selected_team (soup : Soup) (selectors : list string)
  : result (option string) :=
  match selectors with
  | [] => inr None
  | selector :: rest =>
      match select_one soup selector with
      | inl e => inl e
      | inr (Some text) =>
          if contains "team" (lower text) then inr (Some (strip text))
          else first_selected_team soup rest
      | inr None => first_selected_team soup rest
      end
  end.

(** The selectors, written without a literal double quote:
    [attr_has a v] is the selector [[a*="v"]]. *)
Definition dquote : string := String (ascii_of_nat 34) EmptyString.
Definition attr_has (attr value : string) : string :=
  "[" +:+ attr +:+ "*=" +:+ dquote +:+ value +:+ dquote +:+ "]".
Definition attr_is (attr value : string) : string :=
  "[" +:+ attr +:+ "=" +:+ dquote +:+ value +:+ dquote +:+ "]".

Definition hero_selectors : list string :=
  [attr_has "class" "hero"; attr_has "class" "banner"; attr_has "class" "jumbotron";
   "main"; attr_is "role" "main"].
Definition about_selectors : list string :=
  [attr_has "class" "about"; attr_has "id" "about";
   "section:contains(" +:+ dquote +:+ "About" +:+ dquote +:+ ")";
   attr_has "class" "company"].
Definition product_selectors : list string :=
  [attr_has "class" "product"; attr_has "class" "service"; attr_has "class" "solution";
   attr_has "class" "feature"].
Definition pricing_selectors : list string :=
  [attr_has "class" "pricing"; attr_has "class" "price"; attr_has "class" "plan";
   attr_has "id" "pricing"].
Definition team_selectors : list string :=
  [attr_has "class" "team"; attr_has "class" "about"; attr_has "class" "leadership";
   attr_has "class" "founder"].
Definition contact_selectors : list string :=
  [attr_has "class" "contact"; attr_has "id" "contact"; "footer";
   attr_has "class" "footer"].

(** [sections[key] = text] when a selector matched *)
Definition set_section (key : string) (found : option string)
  (sections : gmap string string) : gmap string string :=
  match found with
  | Some text => <[key := text]> sections
  | None => sections
  end.

(** Lines 387-438: the dictionary [sections] before the clean-up. *)
Definition collect_sections (soup : Soup) : result (gmap string string) :=
  let sections := ∅ in
  match first_selected soup hero_selectors with
  | inl e => inl e
  | inr hero =>
  let sections := set_section "hero_section" hero sections in
  let sections :=
    set_section "about_section" (first_selected_guarded soup about_selectors) sections in
  match first_selected soup product_selectors with
  | inl e => inl e
  | inr products =>
  let sections := set_section "products_services" products sections in
  match first_selected soup pricing_selectors with
  | inl e => inl e
  | inr pricing =>
  let sections := set_section "pricing_section" pricing sections in
  match first_selected_team soup team_selectors with
  | inl e => inl e
  | inr team =>
  let sections := set_section "team_section" team sections in
  match first_selected soup contact_selectors with
  | inl e => inl e
  | inr contact => inr (set_section "contact_section" contact sections)
  end end end end end.

(** Every stored text is its own [strip]. *)
Definition stripped (sections : gmap string string) : Prop :=
  forall key content, sections !! key = Some content -> strip content = content.

Definition section_cap : Z := 2000.
Definition truncation_marker : string := "... [truncated]".

(** The body of the clean-up loop, lines 443-447: [None] when the entry
    is dropped. *)
Definition clean_section (content : string) : option string :=
  if truthy content && (20 <? len (strip content)) then
    Some (if section_cap <? len content
          then slice_to content section_cap +:+ truncation_marker
          else content)
  else None.

Definition clean_sections (sections : gmap string string) : gmap string string :=
  omap clean_section sections.

Definition _extract_content_sections (soup : Soup) : result (gmap string string) :=
  match collect_sections soup with
  | inl e => inl e
  | inr sections => inr (clean_sections sections)
  end.

End Extract.

(** ** Effects: the event trace

    A fetch talks to the network, sleeps between attempts and writes to the
    logger.  A computation yields the events it caused, in order, and
    either a value or the exception it raised. *)

Inductive Frag :=
| FTxt (s : string)
| FNum (z : Z)
| FErr (e : exn).          (* [str(e)] of an exception *)

Inductive Level := DEBUG | INFO | WARNING | ERROR.

Inductive Event :=
| Log (level : Level) (message : list Frag)   (* self.logger.<level>(f"...") *)
| Sleep (seconds : Z)                         (* tenacity waiting before the next attempt *)
| Get (url : string)                          (* session.get(url, ...) *)
| Launch (url : string)                       (* p.chromium.launch(...) *)
| Close.                                      (* browser.close() *)

Definition M (A : Type) : Type := list Event * result A.

Definition ret {A} (a : A) : M A := ([], inr a).
Definition raise {A} (e : exn) : M A := ([], inl e).
Definition tell (evs : list Event) : M unit := (evs, inr tt).
Definition bind {A B} (m : M A) (f : A -> M B) : M B :=
  match m with
  | (evs, inl e) => (evs, inl e)
  | (evs, inr a) => let '(evs', r) := f a in (evs ++ evs', r)
  end.

Notation "x <- m ;; k" := (bind m (fun x => k))
  (at level 100, m at next level, right associativity).
Notation "m ;;; k" := (bind m (fun _ => k))
  (at level 100, right associativity).

Definition events {A} (m : M A) : list Event := m.1.
Definition outcome {A} (m : M A) : result A := m.2.

(** Observations on a trace: the number of fetch attempts (requests sent
    and browsers launched) and the pauses, in order. *)
Definition is_attempt (ev : Event) : bool :=
  match ev with Get _ | Launch _ => true | _ => false end.

Definition attempts (evs : list Event) : nat :=
  length (List.filter is_attempt evs).

Definition sleeps (evs : list Event) : list Z :=
  omap (fun ev => match ev with Sleep seconds => Some seconds | _ => None end) evs.

(** A computation is quiet when it neither fetches nor pauses. *)
Definition quiet {A} (m : M A) : Prop :=
  attempts (events m) = 0%nat /\ sleeps (events m) = [].

(** [if o is an exception: raise it] *)
Definition raise_if (o : option exn) : M unit :=
  match o with Some e => raise e | None => ret tt end.

Definition lift {A} (r : result A) : M A := ([], r).

(** [try: body finally: final]; an exception of [final] replaces the
    outcome of [body]. *)
Definition try_finally {A} (body : M A) (final : M unit) : M A :=
  let '(evs, r) := body in
  let '(evs', r') := final in
  (evs ++ evs', match r' with inl e => inl e | inr _ => r end).

(** [try: body except <class>: handler], the class given as a test. *)
Definition try_except {A} (body : M A) (catches : exn -> bool) (handler : exn -> M A)
  : M A :=
  match body with
  | (evs, inl e) =>
      if catches e then let '(evs', r) := handler e in (evs ++ evs', r)
      else (evs, inl e)
  | m => m
  end.

(** ** The fetch strategies *)

Record Config := {
  timeout : Z;
  max_content_length : Z;
  max_retries : Z;
  retry_delay : Z;
}.

(** [config.get(key, default)] with an empty configuration *)
Definition default_config : Config :=
  {| timeout := 30; max_content_length := 500000; max_retries := 3; retry_delay := 2 |}.

(** A response of the server, read in full. *)
Record Response := {
  status : Z;
  reason : string;
  text : string;
  content_type : option string;    (* response.headers.get('content-type') *)
}.

(** The second component of what a strategy returns. *)
Record FetchInfo := {
  method : string;
  status_code : option Z;
  content_length : Z;
  info_content_type : option string;
  page_title : option string;
}.

(** What one browser session does, step by step: for each awaited call
    the exception it raises, if any. *)
Record BrowserScript := {
  launch_raises : option exn;               (* async_playwright(), chromium.launch *)
  new_page_raises : option exn;             (* new_page, set_user_agent, set_viewport_size *)
  goto_networkidle_raises : option exn;
  goto_domcontentloaded_raises : option exn;
  wait_raises : option exn;                 (* wait_for_timeout(2000) *)
  page_content : result string;
  title : result string;
  close_raises : option exn;
}.

Module Fetch.
Import PyStr.

(** *** tenacity

    Library code; the model is the decorator's documented behaviour with
    the arguments of line 161-165 and [reraise=False]. *)

(** [wait_exponential(multiplier, min, max)] after the given attempt *)
Definition wait_exponential (multiplier min max : Z) (attempt_number : nat) : Z :=
  Z.max (Z.max 0 min) (Z.min (multiplier * 2 ^ (Z.of_nat attempt_number - 1)) max).

(** [stop_after_attempt(n)] *)
Definition stop_after_attempt (n attempt_number : nat) : bool :=
  (n <=? attempt_number)%nat.

(** [retry_if_exception_type((aiohttp.ClientError, asyncio.TimeoutError))] *)
Definition retry_if_exception_type (e : exn) : bool :=
  match e with
  | ClientError _ | AsyncioTimeoutError => true
  | _ => false
  end.

(** The retrying loop; [fn n] is the [n]-th call of the wrapped function.
    [fuel] bounds the recursion, see [retry_loop_fuel]. *)
Fixpoint retry_loop {A} (fuel : nat) (attempt_number : nat) (fn : nat -> M A)
  : option (M A) :=
  match fuel with
  | O => None
  | S fuel' =>
      match fn attempt_number with
      | (evs, inr v) => Some (evs, inr v)
      | (evs, inl e) =>
          if negb (retry_if_exception_type e) then Some (evs, inl e)
          else if stop_after_attempt 3 attempt_number
          then Some (evs, inl (RetryError e))
          else
            let pause := Sleep (wait_exponential 1 2 10 attempt_number) in
            match retry_loop fuel' (S attempt_number) fn with
            | Some (evs', r) => Some (evs ++ pause :: evs', r)
            | None => None
            end
      end
  end.

(** The decorated function.  Three units of fuel are enough for
    [stop_after_attempt(3)]; the default is never reached. *)
Definition retry {A} (fn : nat -> M A) : M A :=
  default (raise (OtherException "RuntimeError" "unreachable")) (retry_loop 3 1 fn).

(** *** [_scrape_with_aiohttp], lines 166-197 *)

Definition truncate_content (cfg : Config) (html : string) : M string :=
  if max_content_length cfg <? len html then
    tell [Log WARNING [FTxt "Content truncated from "; FNum (len html); FTxt " to ";
                       FNum (max_content_length cfg); FTxt " characters"]] ;;;
    ret (slice_to html (max_content_length cfg))
  else ret html.

(** One run of the undecorated body, given what the request produced:
    an exception, or a response. *)
Definition aiohttp_attempt (cfg : Config) (url : string) (served : result Response)
  : M (string * FetchInfo) :=
  tell [Get url] ;;;
  response <- lift served ;;
  if negb (bool_decide (status response = 200)) then
    raise (ClientError [Txt "HTTP "; Num (status response); Txt ": ";
                        Txt (reason response)])
  else
    html <- truncate_content cfg (text response) ;;
    ret (html, {| method := "aiohttp";
                  status_code := Some (status response);
                  content_length := len html;
                  info_content_type := Some (default "unknown" (content_type response));
                  page_title := None |}).

(** The decorated method; [served n] is the outcome of the request of
    attempt [n]. *)
Definition _scrape_with_aiohttp (cfg : Config) (url : string)
  (served : nat -> result Response) : M (string * FetchInfo) :=
  retry (fun attempt_number => aiohttp_attempt cfg url (served attempt_number)).

(** *** [_scrape_with_playwright], lines 199-250 *)

Definition is_playwright_timeout (e : exn) : bool :=
  match e with PlaywrightTimeoutError _ => true | _ => false end.

Definition _scrape_with_playwright (cfg : Config) (url : string) (b : BrowserScript)
  : M (string * FetchInfo) :=
  tell [Launch url] ;;;
  raise_if (launch_raises b) ;;;
  try_finally
    (raise_if (new_page_raises b) ;;;
     try_except (raise_if (goto_networkidle_raises b))
       is_playwright_timeout
       (fun _ => raise_if (goto_domcontentloaded_raises b)) ;;;
     raise_if (wait_raises b) ;;;
     html <- lift (page_content b) ;;
     html <- truncate_content cfg html ;;
     page_title <- lift (title b) ;;
     ret (html, {| method := "playwright";
                   status_code := None;
                   content_length := len html;
                   info_content_type := None;
                   page_title := Some page_title |}))
    (tell [Close] ;;; raise_if (close_raises b)).

End Fetch.

(** ** The scraped document and the session record *)

(** A parsed JSON-LD block. *)
#[local] Unset Elimination Schemes.
Inductive Json :=
| JNull
| JBool (b : bool)
| JNumber (literal : string)
| JString (s : string)
| JArray (items : list Json)
| JObject (members : list (string * Json)).
#[local] Set Elimination Schemes.

(** The dictionary returned by the scraper. *)
Record Doc := {
  url : string;
  html_text : string;
  meta_data : gmap string string;
  structured_data : list Json;
  content_sections : gmap string string;
  technology_stack : gset string;
  contact_info : Extract.ContactInfo;
  navigation_structure : gset string;
}.

Module Models.
(** [ScrapingMetadata] of [models.py], lines 196-223: the fields the
    scraper writes.  The durations and time stamps are wall-clock
    readings and are left out. *)
Record ScrapingMetadata := {
  scraping_method : string;
  scraping_success : bool;
  content_length : Z;
  errors_encountered : list (list Frag);
  warnings : list string;
}.
End Models.

(** ** The environment of one call of [scrape_website] *)
Record World := {
  (** the answer to the request of attempt [n] (from 1) within the [k]-th
      call (from 0) of [_scrape_with_aiohttp] *)
  http_get : nat -> nat -> string -> result Response;
  (** the browser session opened for a URL *)
  browser : string -> BrowserScript;
  (** the verdict of [urlparse]'s validity checks *)
  netloc_ok : string -> bool;
  (** [BeautifulSoup(html, 'html.parser')] with lines 290-296 applied *)
  parse_html : string -> result Soup;
  findall_email : string -> list string;
  findall_phone : string -> list (string * string * string * string);
  (** the extractors of lines 309-383 and 565-583, taken as given *)
  _extract_clean_text : Soup -> result string;
  _extract_meta_tags : Soup -> result (gmap string string);
  _extract_json_ld : Soup -> result (list Json);
  _extract_navigation_structure : Soup -> result (gset string);
}.

Module Scraper.
Import PyStr Models.

(** [_extract_structured_data], lines 283-307: the entries are computed
    in the order of the dictionary display. *)
Definition _extract_structured_data (w : World) (html : string) (url : string)
  : result Doc :=
  match parse_html w html with
  | inl e => inl e
  | inr soup =>
  match _extract_clean_text w soup with
  | inl e => inl e
  | inr clean_text =>
  match _extract_meta_tags w soup with
  | inl e => inl e
  | inr meta =>
  match _extract_json_ld w soup with
  | inl e => inl e
  | inr json_ld =>
  match Extract._extract_content_sections soup with
  | inl e => inl e
  | inr sections =>
  let technologies := Extract._detect_technologies html in
  let contact :=
    Extract._extract_contact_information (findall_email w) (findall_phone w) soup in
  match _extract_navigation_structure w soup with
  | inl e => inl e
  | inr navigation =>
      inr {| url := url;
             html_text := clean_text;
             meta_data := meta;
             structured_data := json_ld;
             content_sections := sections;
             technology_stack := technologies;
             contact_info := contact;
             navigation_structure := navigation |}
  end end end end end end.

(** The dictionary of lines 150-159. *)
Definition empty_doc (url : string) : Doc :=
  {| url := url;
     html_text := "";
     meta_data := ∅;
     structured_data := [];
     content_sections := ∅;
     technology_stack := ∅;
     contact_info := Extract.no_contact_info;
     navigation_structure := ∅ |}.

(** The local variables of [scrape_website] that change on the way, and
    the events so far. *)
Record Locals := {
  normalized_url : string;
  html_content : option string;
  scraping_method : option string;
  metadata : ScrapingMetadata;
  trace : list Event;
}.

Definition emit (evs : list Event) (L : Locals) : Locals :=
  {| normalized_url := normalized_url L; html_content := html_content L;
     scraping_method := scraping_method L; metadata := metadata L;
     trace := trace L ++ evs |}.

Definition log (level : Level) (message : list Frag) (L : Locals) : Locals :=
  emit [Log level message] L.

(** [metadata.errors_encountered.append(entry)] *)
Definition append_error (entry : list Frag) (L : Locals) : Locals :=
  let m := metadata L in
  {| normalized_url := normalized_url L; html_content := html_content L;
     scraping_method := scraping_method L;
     metadata := {| Models.scraping_method := Models.scraping_method m;
                    scraping_success := scraping_success m;
                    content_length := content_length m;
                    errors_encountered := errors_encountered m ++ [entry];
                    warnings := warnings m |};
     trace := trace L |}.

(** [html_content, method_metadata = ...; scraping_method = label] *)
Definition fetched (html label : string) (L : Locals) : Locals :=
  {| normalized_url := normalized_url L; html_content := Some html;
     scraping_method := Some label; metadata := metadata L; trace := trace L |}.

Definition set_normalized_url (u : string) (L : Locals) : Locals :=
  {| normalized_url := u; html_content := html_content L;
     scraping_method := scraping_method L; metadata := metadata L; trace := trace L |}.

(** Lines 69-83. *)
Definition initial_locals (normalized_url : string) (metadata : ScrapingMetadata)
  : Locals :=
  {| normalized_url := normalized_url; html_content := None;
     scraping_method := None; metadata := metadata; trace := [] |}.

(** [not html_content], for [None] and for a string *)
Definition no_content (L : Locals) : bool :=
  match html_content L with
  | None => true
  | Some html => negb (truthy html)
  end.

Section Run.
Variable cfg : Config.
Variable w : World.

(** The [k]-th call of the aiohttp strategy in this run. *)
Definition aiohttp_call (k : nat) (u : string) : M (string * FetchInfo) :=
  Fetch._scrape_with_aiohttp cfg u (fun attempt_number => http_get w k attempt_number u).

Definition playwright_call (u : string) : M (string * FetchInfo) :=
  Fetch._scrape_with_playwright cfg u (browser w u).

(** Method 1, lines 87-94. *)
Definition method1 (L : Locals) : Locals :=
  let L := log INFO [FTxt "Attempting aiohttp scraping..."] L in
  let call := aiohttp_call 0 (normalized_url L) in
  let L := emit (events call) L in
  match outcome call with
  | inr (html, _) =>
      log INFO [FTxt "aiohttp successful: "; FNum (len html); FTxt " characters"]
        (fetched html "aiohttp" L)
  | inl e =>
      append_error [FTxt "aiohttp: "; FErr e]
        (log WARNING [FTxt "aiohttp failed: "; FErr e] L)
  end.

(** Method 2, lines 97-105. *)
Definition method2 (L : Locals) : Locals :=
  if no_content L then
    let L := log INFO [FTxt "Attempting Playwright scraping..."] L in
    let call := playwright_call (normalized_url L) in
    let L := emit (events call) L in
    match outcome call with
    | inr (html, _) =>
        log INFO [FTxt "Playwright successful: "; FNum (len html); FTxt " characters"]
          (fetched html "playwright" L)
    | inl e =>
        append_error [FTxt "playwright: "; FErr e]
          (log WARNING [FTxt "Playwright failed: "; FErr e] L)
    end
  else L.

(** The loop of lines 110-120; [k] numbers the aiohttp calls.  The
    first variation whose fetch does not raise ends the loop. *)
Fixpoint try_variations (k : nat) (variations : list string) (L : Locals) : Locals :=
  match variations with
  | [] => L
  | variation_url :: rest =>
      let L := log INFO [FTxt "Trying URL variation: "; FTxt variation_url] L in
      let call := aiohttp_call k variation_url in
      let L := emit (events call) L in
      match outcome call with
      | inr (html, _) =>
          log INFO [FTxt "URL variation successful: "; FNum (len html);
                    FTxt " characters"]
            (set_normalized_url variation_url (fetched html "aiohttp_variation" L))
      | inl e =>
          try_variations (S k) rest
            (log DEBUG [FTxt "URL variation "; FTxt variation_url; FTxt " failed: ";
                        FErr e] L)
      end
  end.

(** Method 3, lines 108-120.  An exception of
    [_generate_url_variations] leaves the [try] block. *)
Definition method3 (L : Locals) : Locals * option exn :=
  if no_content L then
    let L := log INFO [FTxt "Trying URL variations..."] L in
    match Url._generate_url_variations (netloc_ok w) (normalized_url L) with
    | inl e => (L, Some e)
    | inr variations => (try_variations 1 variations L, None)
    end
  else (L, None).

(** The [try] block, lines 85-138, up to the update of the record:
    the locals at its end, and the extracted data or the exception
    that left it. *)
Definition try_block (L : Locals) : Locals * result Doc :=
  let L := method1 L in
  let L := method2 L in
  match method3 L with
  | (L, Some e) => (L, inl e)
  | (L, None) =>
      match html_content L with
      | Some html =>
          if truthy html then
            let L := log INFO [FTxt "Extracting structured data from HTML..."] L in
            (L, _extract_structured_data w html (normalized_url L))
          else (L, inl (PlainException "All scraping methods failed"))
      | None => (L, inl (PlainException "All scraping methods failed"))
      end
  end.

(** [scrape_website], lines 61-159. *)
Definition scrape_website (url : string) : M (Doc * ScrapingMetadata) :=
  let normalized_url := Url._normalize_url url in
  let metadata :=
    {| Models.scraping_method := "unknown"; scraping_success := false;
       content_length := 0; errors_encountered := []; warnings := [] |} in
  let L :=
    log INFO [FTxt "Starting intelligent scraping for: "; FTxt normalized_url]
      (initial_locals normalized_url metadata) in
  match try_block L with
  | (L, inr extracted_data) =>
      (* both locals are set whenever the block ends normally *)
      let metadata :=
        {| Models.scraping_method := default "" (scraping_method L);
           scraping_success := true;
           content_length := len (default "" (html_content L));
           errors_encountered := errors_encountered (Scraper.metadata L);
           warnings := warnings (Scraper.metadata L) |} in
      (trace L ++ [Log INFO [FTxt "Scraping completed successfully"]],
       inr (extracted_data, metadata))
  | (L, inl e) =>
      let metadata :=
        {| Models.scraping_method := Models.scraping_method (Scraper.metadata L);
           scraping_success := false;
           content_length := content_length (Scraper.metadata L);
           errors_encountered :=
             errors_encountered (Scraper.metadata L) ++ [[FTxt "final_error: "; FErr e]];
           warnings := warnings (Scraper.metadata L) |} in
      (trace L ++ [Log ERROR [FTxt "All scraping methods failed for ";
                              FTxt (Scraper.normalized_url L); FTxt ": "; FErr e]],
       inr (empty_doc (Scraper.normalized_url L), metadata))
  end.
End Run.

End Scraper.

(** ** The specification's wording, for comparison *)

Module Spec.
(** "strips a single trailing slash": at most one character goes. *)
Fixpoint strip_single_trailing_slash (s : string) : string :=
  match s with
  | EmptyString => EmptyString
  | String a EmptyString => if decide (a = "/"%char) then EmptyString else s
  | String a s' => String a (strip_single_trailing_slash s')
  end.

(** "lacks an http:// or https:// scheme", negated *)
Definition has_scheme (input : string) : bool :=
  PyStr.startswith "http://" input || PyStr.startswith "https://" input.

(** "normalize": scheme added when absent, then a single trailing slash
    stripped. *)
Definition normalize (input : string) : string :=
  strip_single_trailing_slash
    (if has_scheme input then input else "https://" +:+ input).

(** "the first such anchor in document order": the first link whose
    lower-cased [href] has the platform's domain in it. *)
Definition first_anchor_with (domain : string) (links : list string) : option string :=
  head (filter (fun link => PyStr.contains domain (PyStr.lower link) = true) links).

(** The platform a link is filed under: the first of the four, in the
    order of the scan, whose domain occurs in the lower-cased [href]. *)
Definition platform_of (link : string) : option string :=
  let href := PyStr.lower link in
  if PyStr.contains "linkedin.com" href then Some "linkedin"
  else if PyStr.contains "twitter.com" href then Some "twitter"
  else if PyStr.contains "facebook.com" href then Some "facebook"
  else if PyStr.contains "instagram.com" href then Some "instagram"
  else None.

(** A strategy "has failed" for the orchestrator when its call raised
    or returned markup that is not truthy. *)
Definition fetch_failed (run : M (string * FetchInfo)) : Prop :=
  match outcome run with
  | inl _ => True
  | inr (html, _) => html = EmptyString
  end.

(** "non-whitespace characters" of a text, counted. *)
Fixpoint nonspace_count (s : string) : Z :=
  match s with
  | EmptyString => 0
  | String c s' => (if PyStr.isspace c then 0 else 1) + nonspace_count s'
  end.
End Spec.

(** ** Sample inputs *)

Module Sample.
(** Two profile links of the same platform, in document order. *)
Definition two_linkedin_links : list string :=
  ["https://www.linkedin.com/company/acme"; "https://www.linkedin.com/in/jane-doe"].

(** A page where only the hero selector matches, with the given text. *)
Definition hero_page (hero_text : string) : Soup :=
  {| get_text := hero_text;
     select_one := fun selector =>
       if decide (selector = Extract.attr_has "class" "hero")
       then inr (Some hero_text) else inr None;
     find_all_a_href := [] |}.

(** Twenty-one characters, eleven of them letters. *)
Definition spaced_text : string := "a b c d e f g h i j k".
(** A response the server sends for a successful GET that is not "200
    OK". *)
Definition response_203 : Response :=
  {| status := 203; reason := "Non-Authoritative Information";
     text := "<html><body>cached copy</body></html>";
     content_type := Some "text/html" |}.

Definition response_ok (body : string) : Response :=
  {| status := 200; reason := "OK"; text := body; content_type := Some "text/html" |}.

(** A browser whose navigation times out under both wait conditions. *)
Definition stalled_browser : BrowserScript :=
  {| launch_raises := None;
     new_page_raises := None;
     goto_networkidle_raises := Some (PlaywrightTimeoutError "Timeout 30000ms exceeded.");
     goto_domcontentloaded_raises := Some (PlaywrightTimeoutError "Timeout 30000ms exceeded.");
     wait_raises := None;
     page_content := inr "";
     title := inr "";
     close_raises := None |}.

(** A browser that renders the given markup. *)
Definition rendering_browser (html : string) : BrowserScript :=
  {| launch_raises := None;
     new_page_raises := None;
     goto_networkidle_raises := None;
     goto_domcontentloaded_raises := None;
     wait_raises := None;
     page_content := inr html;
     title := inr "";
     close_raises := None |}.

Definition blank_page : Soup :=
  {| get_text := ""; select_one := fun _ => inr None; find_all_a_href := [] |}.

(** An environment given by its network and its browser; every page
    parses to [blank_page]. *)
Definition world (get : nat -> nat -> string -> result Response)
    (browse : string -> BrowserScript) : World :=
  {| http_get := get;
     browser := browse;
     netloc_ok := fun _ => true;
     parse_html := fun _ => inr blank_page;
     findall_email := fun _ => [];
     findall_phone := fun _ => [];
     _extract_clean_text := fun soup => inr (get_text soup);
     _extract_meta_tags := fun _ => inr ∅;
     _extract_json_ld := fun _ => inr [];
     _extract_navigation_structure := fun _ => inr ∅ |}.

Definition connection_refused : exn :=
  ClientError [Txt "Cannot connect to host"].

(** Nothing answers, and the browser stalls. *)
Definition dead_world : World :=
  world (fun _ _ _ => inl connection_refused) (fun _ => stalled_browser).

(** Only "https://www.example.com" answers. *)
Definition www_only_world : World :=
  world (fun _ _ u =>
           if decide (u = "https://www.example.com")
           then inr (response_ok "<html><body>Example Inc.</body></html>")
           else inl connection_refused)
        (fun _ => stalled_browser).

(** Every request is answered "200 OK" with an empty body, and the
    browser renders an empty page: nothing ever raises. *)
Definition empty_body_world : World :=
  world (fun _ _ _ => inr (response_ok "")) (fun _ => rendering_browser "").

Definition text15 : string := "Fifteen chars!!".
Definition text25 : string := "Exactly twenty-five chars".
End Sample.

(** ** The remaining extractors

    The extractors that [World] takes as given, written out.  Each one
    reads the parsed page through the answers to its own queries. *)

Module Text.
Import PyStr.

(** The line boundaries of [str.splitlines] among the code points below
    256: LF, VT, FF, CR, FS, GS, RS and NEL. *)
Definition is_linebreak (c : ascii) : bool :=
  let n := nat_of_ascii c in
  ((10 <=? n) && (n <=? 13) || (28 <=? n) && (n <=? 30) || (n =? 133))%nat.

(** [s.splitlines()]: CR LF counts as one boundary, and a final boundary
    opens no further line. *)
Fixpoint splitlines (s : string) : list string :=
  match s with
  | EmptyString => []
  | String c s' =>
      if is_linebreak c then
        EmptyString ::
          match s' with
          | String c' s'' =>
              if bool_decide (c = "013"%char) && bool_decide (c' = "010"%char)
              then splitlines s'' else splitlines s'
          | EmptyString => []
          end
      else
        match splitlines s' with
        | [] => [String c EmptyString]
        | line :: lines => String c line :: lines
        end
  end.

(** [s.split("  ")]: the pieces between the two-space separators, found
    from the left. *)
Fixpoint split_double_space (s : string) : list string :=
  match s with
  | EmptyString => [EmptyString]
  | String c s' =>
      match s' with
      | String c' s'' =>
          if bool_decide (c = " "%char) && bool_decide (c' = " "%char)
          then EmptyString :: split_double_space s''
          else match split_double_space s' with
               | [] => [String c EmptyString]
               | piece :: pieces => String c piece :: pieces
               end
      | EmptyString => [String c EmptyString]
      end
  end.

(** [sep.join(l)] *)
Fixpoint join (sep : string) (l : list string) : string :=
  match l with
  | [] => EmptyString
  | [x] => x
  | x :: rest => x +:+ sep +:+ join sep rest
  end.

Definition max_text_length : Z := 50000.

(** The chunks of lines 317-323 that are kept. *)
Definition chunks (text : string) : list string :=
  List.filter truthy
    (flat_map (fun line => strip <$> split_double_space line)
       (strip <$> splitlines text)).

(** [_extract_clean_text], lines 309-330. *)
Definition _extract_clean_text (soup : Soup) : string :=
  let text := get_text soup in
  let clean_text := join " " (chunks text) in
  if max_text_length <? len clean_text
  then slice_to clean_text max_text_length +:+ "... [truncated]"
  else clean_text.

End Text.

Module Nav.
Import PyStr.

Definition nav_selectors : list string :=
  ["nav"; Extract.attr_has "class" "nav"; Extract.attr_has "class" "menu"; "header ul";
   Extract.attr_is "role" "navigation"].

Section Navigation.
(** [soup.select_one(selector)] followed by [find_all('a')]: [None]
    without a match, else the [get_text()] of each link inside the
    element, in document order. *)
Variable select_links : string -> result (option (list string)).

(** The loop of lines 572-581 up to its [break]: the links of the first
    selector with a match. *)
Fixpoint first_container (selectors : list string) : result (option (list string)) :=
  match selectors with
  | [] => inr None
  | selector :: rest =>
      match select_links selector with
      | inl e => inl e
      | inr (Some links) => inr (Some links)
      | inr None => first_container rest
      end
  end.

(** [link_text and len(link_text) < 50] *)
Definition nav_item (link_text : string) : bool :=
  truthy link_text && (len link_text <? 50).

(** [_extract_navigation_structure], lines 565-583. *)
Definition _extract_navigation_structure : result (gset string) :=
  match first_container nav_selectors with
  | inl e => inl e
  | inr None => inr ∅
  | inr (Some links) => inr (list_to_set (List.filter nav_item (strip <$> links)))
  end.
End Navigation.

End Nav.

(** *** The document tree

    BeautifulSoup's tree, as far as lines 290-296 and [_extract_json_ld]
    use it: text, comments, and elements with a name, attributes and
    children.  A page is the list of children of the root. *)

#[local] Unset Elimination Schemes.
Inductive Node :=
| NText (s : string)
| NComment (s : string)
| NElem (name : string) (attrs : gmap string string) (children : list Node).
#[local] Set Elimination Schemes.

Module Dom.

(** Induction over a tree, with the children as a list. *)
Section NodeInduction.
Variable P : Node -> Prop.
Hypothesis Htext : forall s, P (NText s).
Hypothesis Hcomment : forall s, P (NComment s).
Hypothesis Helem : forall name attrs children,
  Forall P children -> P (NElem name attrs children).

Fixpoint Node_induction (n : Node) : P n :=
  match n with
  | NText s => Htext s
  | NComment s => Hcomment s
  | NElem name attrs children =>
      Helem name attrs children
        ((fix all (l : list Node) : Forall P l :=
            match l with
            | [] => List.Forall_nil P
            | c :: l' => List.Forall_cons P c l' (Node_induction c) (all l')
            end) children)
  end.
End NodeInduction.

(** [find_all] below a node, the node included: the elements that
    satisfy the test, in document order. *)
Fixpoint find_all (test : string -> gmap string string -> bool) (n : Node) : list Node :=
  match n with
  | NElem name attrs children =>
      (if test name attrs then [n] else []) ++
      (fix below (l : list Node) : list Node :=
         match l with
         | [] => []
         | c :: l' => find_all test c ++ below l'
         end) children
  | _ => []
  end.

Definition find_all_in (test : string -> gmap string string -> bool) (page : list Node)
  : list Node :=
  flat_map (find_all test) page.

(** What is left of a node once every element with one of the names has
    been [decompose]d: nothing of such an element, and the others with
    their children treated alike. *)
Fixpoint decompose_all (names : list string) (n : Node) : list Node :=
  match n with
  | NElem name attrs children =>
      if bool_decide (name ∈ names) then []
      else [NElem name attrs
              ((fix below (l : list Node) : list Node :=
                  match l with
                  | [] => []
                  | c :: l' => decompose_all names c ++ below l'
                  end) children)]
  | _ => [n]
  end.

(** What is left once every comment has been [extract]ed. *)
Fixpoint extract_comments (n : Node) : list Node :=
  match n with
  | NComment _ => []
  | NText _ => [n]
  | NElem name attrs children =>
      [NElem name attrs
         ((fix below (l : list Node) : list Node :=
             match l with
             | [] => []
             | c :: l' => extract_comments c ++ below l'
             end) children)]
  end.

Definition unwanted : list string :=
  ["script"; "style"; "nav"; "footer"; "header"; ".cookie-banner"; ".popup"].

(** Lines 290-296 of [_extract_structured_data]. *)
Definition remove_unwanted (page : list Node) : list Node :=
  flat_map extract_comments (flat_map (decompose_all unwanted) page).

(** [tag.string]: the text of an only child, looked for through only
    children that are elements. *)
Fixpoint node_string (n : Node) : option string :=
  match n with
  | NText s | NComment s => Some s
  | NElem _ _ [c] => node_string c
  | NElem _ _ _ => None
  end.

(** [find_all('script', type='application/ld+json')] *)
Definition is_json_ld (name : string) (attrs : gmap string string) : bool :=
  bool_decide (name = "script") &&
  bool_decide (attrs !! "type" = Some "application/ld+json").

(** [except (json.JSONDecodeError, TypeError)] *)
Definition skipped (e : exn) : bool :=
  match e with
  | OtherException cls _ =>
      bool_decide (cls = "JSONDecodeError") || bool_decide (cls = "TypeError")
  | _ => false
  end.

Section JsonLd.
(** [json.loads] on a string *)
Variable loads : string -> result Json.

(** The loop of lines 375-381 over the [script.string] of each block;
    [json.loads(None)] raises a [TypeError]. *)
Fixpoint load_blocks (blocks : list (option string)) (json_ld_data : list Json)
  : result (list Json) :=
  match blocks with
  | [] => inr json_ld_data
  | None :: rest => load_blocks rest json_ld_data
  | Some source :: rest =>
      match loads source with
      | inr data => load_blocks rest (json_ld_data ++ [data])
      | inl e => if skipped e then load_blocks rest json_ld_data else inl e
      end
  end.

(** [_extract_json_ld], lines 370-383. *)
Definition _extract_json_ld (page : list Node) : result (list Json) :=
  load_blocks (node_string <$> find_all_in is_json_ld page) [].
End JsonLd.

End Dom.

(** ** The names [_detect_technologies] can report *)

Definition technology_registry : list string :=
  ["HubSpot"; "Salesforce"; "Pipedrive"; "Google Analytics"; "Mixpanel"; "Segment";
   "Mailchimp"; "Marketo"; "Pardot"; "Intercom"; "Zendesk"; "Drift"; "Calendly";
   "Acuity Scheduling"; "Chili Piper"; "PandaDoc"; "DocuSign"; "HelloSign"; "Zapier";
   "Integromat"; "WordPress"; "Shopify"; "Webflow"; "React"; "Vue.js"; "Angular"].

(** ** Further observations on a trace *)

Definition is_launch (ev : Event) : bool :=
  match ev with Launch _ => true | _ => false end.

Definition is_close (ev : Event) : bool :=
  match ev with Close => true | _ => false end.

Definition is_get (ev : Event) : bool :=
  match ev with Get _ => true | _ => false end.

Definition count (test : Event -> bool) (evs : list Event) : nat :=
  length (List.filter test evs).

(** ** What holds of the locals of [scrape_website] between its steps *)

Module Inv.
Import PyStr Models Scraper.

Definition labels : list string := ["aiohttp"; "playwright"; "aiohttp_variation"].

(** Markup is held together with the label of the strategy that
    fetched it, and it respects the configured maximum. *)
Definition content_ok (cfg : Config) (L : Locals) : Prop :=
  match html_content L with
  | None => scraping_method L = None
  | Some html =>
      (exists label, scraping_method L = Some label /\ label ∈ labels) /\
      (0 <= max_content_length cfg -> len html <= max_content_length cfg)
  end.

(** The record is as it was created, but for at most [n] errors. *)
Definition record_ok (n : nat) (L : Locals) : Prop :=
  Models.scraping_method (metadata L) = "unknown" /\
  scraping_success (metadata L) = false /\
  Models.content_length (metadata L) = 0 /\
  warnings (metadata L) = [] /\
  (length (errors_encountered (metadata L)) <= n)%nat.

End Inv.

(** ** URLs in plain form *)

Module PlainUrl.
(** The characters of a host name written in lower case. *)
Definition host_char (c : ascii) : bool :=
  let n := nat_of_ascii c in
  ((97 <=? n) && (n <=? 122) || (48 <=? n) && (n <=? 57) || (n =? 45) || (n =? 46))%nat.

(** A path is empty or starts with a slash. *)
Definition path_like (rest : string) : bool :=
  match rest with
  | EmptyString => true
  | String c _ => bool_decide (c = "/"%char)
  end.
End PlainUrl.

(** ** The analyzer's helpers on scraped data (ai_analyzer.py) *)

Inductive TechSophistication := LOW | MEDIUM | HIGH.

(** [TechnologyStack], models.py lines 101-129. *)
Record TechnologyStack := {
  crm_system : option string;
  marketing_automation : option string;
  email_platform : option string;
  communication_tools : list string;
  video_conferencing : list string;
  project_management : list string;
  scheduling_tools : list string;
  document_tools : list string;
  automation_tools : list string;
  analytics_tools : list string;
  api_sophistication : TechSophistication;
  integration_mentions : list string;
  webhook_usage : bool;
  website_platform : option string;
  cms_system : option string;
  ecommerce_platform : option string;
}.

Module Analyzer.

(** [TechnologyStack()]: the defaults of the dataclass. *)
Definition empty_stack : TechnologyStack :=
  {| crm_system := None; marketing_automation := None; email_platform := None;
     communication_tools := []; video_conferencing := []; project_management := [];
     scheduling_tools := []; document_tools := []; automation_tools := [];
     analytics_tools := []; api_sophistication := MEDIUM; integration_mentions := [];
     webhook_usage := false; website_platform := None; cms_system := None;
     ecommerce_platform := None |}.

(** [stack.crm_system = name] *)
Definition set_crm_system (name : string) (s : TechnologyStack) : TechnologyStack :=
  {| crm_system := Some name; marketing_automation := marketing_automation s;
     email_platform := email_platform s; communication_tools := communication_tools s;
     video_conferencing := video_conferencing s;
     project_management := project_management s;
     scheduling_tools := scheduling_tools s; document_tools := document_tools s;
     automation_tools := automation_tools s; analytics_tools := analytics_tools s;
     api_sophistication := api_sophistication s;
     integration_mentions := integration_mentions s; webhook_usage := webhook_usage s;
     website_platform := website_platform s; cms_system := cms_system s;
     ecommerce_platform := ecommerce_platform s |}.

(** [stack.communication_tools.append(name)] *)
Definition append_communication (name : string) (s : TechnologyStack) : TechnologyStack :=
  {| crm_system := crm_system s; marketing_automation := marketing_automation s;
     email_platform := email_platform s;
     communication_tools := communication_tools s ++ [name];
     video_conferencing := video_conferencing s;
     project_management := project_management s;
     scheduling_tools := scheduling_tools s; document_tools := document_tools s;
     automation_tools := automation_tools s; analytics_tools := analytics_tools s;
     api_sophistication := api_sophistication s;
     integration_mentions := integration_mentions s; webhook_usage := webhook_usage s;
     website_platform := website_platform s; cms_system := cms_system s;
     ecommerce_platform := ecommerce_platform s |}.

(** [stack.scheduling_tools.append(name)] *)
Definition append_scheduling (name : string) (s : TechnologyStack) : TechnologyStack :=
  {| crm_system := crm_system s; marketing_automation := marketing_automation s;
     email_platform := email_platform s; communication_tools := communication_tools s;
     video_conferencing := video_conferencing s;
     project_management := project_management s;
     scheduling_tools := scheduling_tools s ++ [name];
     document_tools := document_tools s;
     automation_tools := automation_tools s; analytics_tools := analytics_tools s;
     api_sophistication := api_sophistication s;
     integration_mentions := integration_mentions s; webhook_usage := webhook_usage s;
     website_platform := website_platform s; cms_system := cms_system s;
     ecommerce_platform := ecommerce_platform s |}.

(** [stack.document_tools.append(name)] *)
Definition append_document (name : string) (s : TechnologyStack) : TechnologyStack :=
  {| crm_system := crm_system s; marketing_automation := marketing_automation s;
     email_platform := email_platform s; communication_tools := communication_tools s;
     video_conferencing := video_conferencing s;
     project_management := project_management s;
     scheduling_tools := scheduling_tools s;
     document_tools := document_tools s ++ [name];
     automation_tools := automation_tools s; analytics_tools := analytics_tools s;
     api_sophistication := api_sophistication s;
     integration_mentions := integration_mentions s; webhook_usage := webhook_usage s;
     website_platform := website_platform s; cms_system := cms_system s;
     ecommerce_platform := ecommerce_platform s |}.

(** [stack.automation_tools.append(name)] *)
Definition append_automation (name : string) (s : TechnologyStack) : TechnologyStack :=
  {| crm_system := crm_system s; marketing_automation := marketing_automation s;
     email_platform := email_platform s; communication_tools := communication_tools s;
     video_conferencing := video_conferencing s;
     project_management := project_management s;
     scheduling_tools := scheduling_tools s; document_tools := document_tools s;
     automation_tools := automation_tools s ++ [name];
     analytics_tools := analytics_tools s;
     api_sophistication := api_sophistication s;
     integration_mentions := integration_mentions s; webhook_usage := webhook_usage s;
     website_platform := website_platform s; cms_system := cms_system s;
     ecommerce_platform := ecommerce_platform s |}.

(** [stack.analytics_tools.append(name)] *)
Definition append_analytics (name : string) (s : TechnologyStack) : TechnologyStack :=
  {| crm_system := crm_system s; marketing_automation := marketing_automation s;
     email_platform := email_platform s; communication_tools := communication_tools s;
     video_conferencing := video_conferencing s;
     project_management := project_management s;
     scheduling_tools := scheduling_tools s; document_tools := document_tools s;
     automation_tools := automation_tools s;
     analytics_tools := analytics_tools s ++ [name];
     api_sophistication := api_sophistication s;
     integration_mentions := integration_mentions s; webhook_usage := webhook_usage s;
     website_platform := website_platform s; cms_system := cms_system s;
     ecommerce_platform := ecommerce_platform s |}.

(** Every name a stack holds, field by field. *)
Definition names (s : TechnologyStack) : list string :=
  option_list (crm_system s) ++ option_list (marketing_automation s) ++
  option_list (email_platform s) ++ communication_tools s ++ video_conferencing s ++
  project_management s ++ scheduling_tools s ++ document_tools s ++
  automation_tools s ++ analytics_tools s ++ integration_mentions s ++
  option_list (website_platform s) ++ option_list (cms_system s) ++
  option_list (ecommerce_platform s).

(** *** [_generate_org_id], lines 581-607 *)

Definition is_underscore (c : ascii) : bool := bool_decide (c = "_"%char).

(** The class [a-z0-9_-] of the pattern of line 603. *)
Definition id_char (c : ascii) : bool :=
  let n := nat_of_ascii c in
  ((97 <=? n) && (n <=? 122) || (48 <=? n) && (n <=? 57) || (n =? 95) || (n =? 45))%nat.

Fixpoint map_chars (f : ascii -> ascii) (s : string) : string :=
  match s with
  | EmptyString => EmptyString
  | String c s' => String (f c) (map_chars f s')
  end.

(** [s.replace('.', '_')] *)
Definition replace_dots (s : string) : string :=
  map_chars (fun c => if decide (c = "."%char) then "_"%char else c) s.

(** [re.sub(r'[^a-z0-9_-]', '_', s)] *)
Definition sub_foreign (s : string) : string :=
  map_chars (fun c => if id_char c then c else "_"%char) s.

(** [re.sub(r'_+', '_', s)]: every maximal run of underscores becomes
    one underscore, that is, an underscore that another one follows is
    dropped. *)
Fixpoint sub_underscores (s : string) : string :=
  match s with
  | EmptyString => EmptyString
  | String c s' =>
      match s' with
      | EmptyString => String c EmptyString
      | String c' _ =>
          if is_underscore c && is_underscore c' then sub_underscores s'
          else String c (sub_underscores s')
      end
  end.

(** [s.strip('_')] *)
Definition strip_underscores (s : string) : string :=
  PyStr.rstrip_by is_underscore (PyStr.lstrip_by is_underscore s).

(** From the network location to the identifier, lines 595-607.  On the
    code points below 256 [str.lower] changes, besides A-Z, only letters
    that line 603 replaces before and after the change alike, so
    [PyStr.lower] gives the same identifier. *)
Definition org_id_of_netloc (netloc : string) : string :=
  let domain := PyStr.lower netloc in
  let domain := if PyStr.startswith "www." domain then PyStr.drop 4 domain else domain in
  let org_id := replace_dots domain in
  let org_id := sub_foreign org_id in
  let org_id := sub_underscores org_id in
  strip_underscores org_id.

Section OrgId.
(** The checks of [urlsplit] on the network location, as in [Url]. *)
Variable netloc_ok : string -> bool.

(** A [ValueError] of [urlparse] is not caught. *)
Definition _generate_org_id (url : string) : result string :=
  match Url.urlparse netloc_ok url with
  | inl e => inl e
  | inr parsed => inr (org_id_of_netloc (Url.netloc parsed))
  end.
End OrgId.

(** No two underscores stand side by side. *)
Fixpoint no_double_underscore (s : string) : bool :=
  match s with
  | EmptyString => true
  | String c s' =>
      match s' with
      | EmptyString => true
      | String c' _ => negb (is_underscore c && is_underscore c') && no_double_underscore s'
      end
  end.

Section FallbackStack.
(** [str.lower], of which nothing is assumed here. *)
Variable lower : string -> string.

(** [{t.lower(): t for t in detected_technologies}]: a later name
    replaces an earlier one with the same lower-case form. *)
Definition detected_lower (detected_technologies : list string) : gmap string string :=
  foldl (fun m t => <[lower t := t]> m) ∅ detected_technologies.

(** [if present(name): update(detected_lower[name])] *)
Definition when_present (d : gmap string string) (name : string)
    (update : string -> TechnologyStack -> TechnologyStack) (s : TechnologyStack)
  : TechnologyStack :=
  match d !! name with
  | Some t => update t s
  | None => s
  end.

(** [_create_fallback_tech_stack], lines 667-699. *)
Definition _create_fallback_tech_stack (detected_technologies : list string)
  : TechnologyStack :=
  let d := detected_lower detected_technologies in
  let stack := empty_stack in
  let stack := when_present d "hubspot" set_crm_system stack in
  let stack := when_present d "salesforce" set_crm_system stack in
  let stack := when_present d "pipedrive" set_crm_system stack in
  let stack := when_present d "google analytics" append_analytics stack in
  let stack := when_present d "mixpanel" append_analytics stack in
  let stack := when_present d "segment" append_analytics stack in
  let stack := when_present d "calendly" append_scheduling stack in
  let stack := when_present d "pandadoc" append_document stack in
  let stack := when_present d "docusign" append_document stack in
  let stack := when_present d "zapier" append_automation stack in
  let stack := when_present d "slack" append_communication stack in
  stack.



End FallbackStack.

End Analyzer.

(** ** The selector loops of [_extract_content_sections] *)

Module Sections.
Import PyStr Extract.

(** The three forms of loop in lines 389-438: the plain loop, the about
    loop with its [try: ... except: continue], and the team loop with its
    test for the word "team". *)
Inductive LoopKind := Plain | Guarded | Team.

(** Each label with the form of its loop and its selectors. *)
Definition label_loops : list (string * LoopKind * list string) :=
  [("hero_section", Plain, hero_selectors);
   ("about_section", Guarded, about_selectors);
   ("products_services", Plain, product_selectors);
   ("pricing_section", Plain, pricing_selectors);
   ("team_section", Team, team_selectors);
   ("contact_section", Plain, contact_selectors)].

(** The loop of a label, as [collect_sections] runs it. *)
Definition loop_of (kind : LoopKind) (soup : Soup) (selectors : list string)
  : result (option string) :=
  match kind with
  | Plain => first_selected soup selectors
  | Guarded => inr (first_selected_guarded soup selectors)
  | Team => first_selected_team soup selectors
  end.

(** The test of a loop on a matched element's text: line 427 for the
    team loop, none for the others. *)
Definition accepts (kind : LoopKind) (text : string) : bool :=
  match kind with
  | Team => contains "team" (lower text)
  | _ => true
  end.

(** A selector the loop goes past: it has no match, or a match that the
    loop's test turns down, or (in the about loop only) it raises. *)
Definition passed_over (soup : Soup) (kind : LoopKind) (selector : string) : Prop :=
  match select_one soup selector with
  | inr None => True
  | inr (Some text) => accepts kind text = false
  | inl _ => kind = Guarded
  end.

(** The match at which the loop stops: the first selector with a match
    that the loop's test accepts, every selector before it passed over. *)
Definition decides (soup : Soup) (kind : LoopKind) (selectors : list string)
    (selector text : string) : Prop :=
  exists before after,
    selectors = before ++ selector :: after /\
    Forall (passed_over soup kind) before /\
    select_one soup selector = inr (Some text) /\
    accepts kind text = true.
End Sections.

(* ===================================================================== *)
(** * Properties *)

(** ** The model on small inputs *)

Example startswith_ex : PyStr.startswith "http://" "http://a" = true.
Proof. reflexivity. Qed.
Example rstrip_ex : PyStr.rstrip_char "/" "a/b//" = "a/b".
Proof. reflexivity. Qed.
Example replace_ex : PyStr.replace_first "www." "" "https://www.a.www.b" = "https://a.www.b".
Proof. reflexivity. Qed.
Example lower_ex : PyStr.lower "AbC-z" = "abc-z".
Proof. reflexivity. Qed.
Example slice_ex : PyStr.slice_to "abcdef" (-2) = "abcd".
Proof. reflexivity. Qed.
Example rpart_ex : PyStr.rpartition_tail "@" "u@v@host" = "host".
Proof. reflexivity. Qed.
Example strip_ex : PyStr.strip "  a b  " = "a b".
Proof. reflexivity. Qed.
Example normalize_ex : Url._normalize_url "example.com/" = "https://example.com".
Proof. reflexivity. Qed.
Example variations_ex f :
  Url._generate_url_variations f "https://example.com/a" =
  inr ["https://www.example.com/a"; "http://example.com/a"].
Proof. reflexivity. Qed.
Example variations_ex2 f :
  Url._generate_url_variations f "http://www.example.com:80/a?x#y" =
  inr ["http://example.com:80/a?x#y"; "https://www.example.com:80/a?x#y"].
Proof. reflexivity. Qed.
Example variations_ex3 f :
  Url._generate_url_variations f "https://WWW.example.com" =
  inr ["https://WWW.example.com"; "http://WWW.example.com"].
Proof. reflexivity. Qed.
Example variations_ex4 f :
  Url._generate_url_variations f "https:" =
  inl (AttributeError "'NoneType' object has no attribute 'startswith'").
Proof. reflexivity. Qed.
Example hostname_ex f :
  sum_map id Url.hostname (Url.urlparse f "https://User@Www.Example.COM:8080/p") =
  inr (Some "www.example.com").
Proof. reflexivity. Qed.
Example detect_ex :
  Extract.detected "<script src='//js.hs-scripts.com/1.js'></script> Salesforce CRM" = ["HubSpot"].
Proof. vm_compute. reflexivity. Qed.
Example social_ex :
  Extract.scan_social_links ["https://LinkedIn.com/a"; "/x"; "https://linkedin.com/b"] !! "linkedin"
  = Some "https://linkedin.com/b".
Proof. vm_compute. reflexivity. Qed.
Example clean_ex1 : Extract.clean_section "123456789012345" = None.
Proof. reflexivity. Qed.
Example clean_ex2 : Extract.clean_section "12345678901234567890" = None.
Proof. reflexivity. Qed.
Example clean_ex3 : Extract.clean_section "1234567890123456789012345" = Some "1234567890123456789012345".
Proof. reflexivity. Qed.
Example backoff_ex :
  Fetch.wait_exponential 1 2 10 <$> [1; 2; 3; 4; 5; 6]%nat = [2; 2; 4; 8; 10; 10].
Proof. reflexivity. Qed.
Example truncate_ex :
  Fetch.aiohttp_attempt
    {| timeout := 30; max_content_length := 4; max_retries := 3; retry_delay := 2 |}
    "https://a.io" (inr (Sample.response_ok "<html>")) =
  ([Get "https://a.io";
    Log WARNING [FTxt "Content truncated from "; FNum 6; FTxt " to "; FNum 4;
                 FTxt " characters"]],
   inr ("<htm", {| method := "aiohttp"; status_code := Some 200; content_length := 4;
                   info_content_type := Some "text/html"; page_title := None |})).
Proof. reflexivity. Qed.
Example retry_ex :
  Fetch._scrape_with_aiohttp default_config "https://a.io"
    (fun n => if decide (n = 2%nat) then inr (Sample.response_ok "ok")
              else inl AsyncioTimeoutError) =
  ([Get "https://a.io"; Sleep 2; Get "https://a.io"],
   inr ("ok", {| method := "aiohttp"; status_code := Some 200; content_length := 2;
                 info_content_type := Some "text/html"; page_title := None |})).
Proof. reflexivity. Qed.
Example playwright_ex :
  Fetch._scrape_with_playwright default_config "https://a.io"
    (Sample.rendering_browser "<p>hi</p>") =
  ([Launch "https://a.io"; Close],
   inr ("<p>hi</p>", {| method := "playwright"; status_code := None; content_length := 9;
                        info_content_type := None; page_title := Some "" |})).
Proof. reflexivity. Qed.

(** ** Strings *)

Section StringFacts.
Import PyStr.

Lemma app_cons c s t : String c s +:+ t = String c (s +:+ t).
Proof. reflexivity. Qed.

Lemma app_empty_l t : EmptyString +:+ t = t.
Proof. reflexivity. Qed.

Lemma startswith_spec p s : startswith p s = true <-> exists t, s = p +:+ t.
Proof.
  revert s. induction p as [|a p IH]; intros s; simpl.
  - split; [intros _; by exists s | done].
  - destruct s as [|b s].
    + split; [done | intros [t Ht]; discriminate Ht].
    + destruct (decide (a = b)) as [->|Hne].
      * rewrite IH. split; intros [t Ht]; exists t.
        -- by rewrite app_cons, <- Ht.
        -- rewrite app_cons in Ht. by injection Ht.
      * split; [done | intros [t Ht]]. rewrite app_cons in Ht.
        injection Ht as Hab _. by destruct Hne.
Qed.

(** [sub in s] holds exactly when [s] has [sub] as a substring. *)
Lemma contains_spec sub s :
  contains sub s = true <-> exists a b, s = a +:+ sub +:+ b.
Proof.
  split.
  - induction s as [|c s IH]; simpl; intros H.
    + rewrite orb_false_r in H. apply startswith_spec in H as [t Ht].
      by exists EmptyString, t.
    + apply orb_true_iff in H as [H|H].
      * apply startswith_spec in H as [t Ht]. by exists EmptyString, t.
      * destruct (IH H) as (a & b & ->). by exists (String c a), b.
  - intros (a & b & ->). induction a as [|c a IH].
    + rewrite app_empty_l.
      assert (startswith sub (sub +:+ b) = true) as H
        by (apply startswith_spec; by exists b).
      destruct (sub +:+ b); simpl in *; by rewrite H.
    + rewrite app_cons. simpl. rewrite IH. apply orb_true_r.
Qed.

Lemma lower_app s t : lower (s +:+ t) = lower s +:+ lower t.
Proof. induction s as [|c s IH]; [done|]. rewrite app_cons. simpl. by rewrite IH. Qed.

Lemma contains_lower sub s :
  lower sub = sub -> contains sub s = true -> contains sub (lower s) = true.
Proof.
  intros Hsub H. apply contains_spec in H as (a & b & ->).
  apply contains_spec. exists (lower a), (lower b).
  by rewrite !lower_app, Hsub.
Qed.

Lemma rstrip_char_spec c s :
  exists n, s = rstrip_char c s +:+ repeat_char c n.
Proof.
  induction s as [|a s [n IH]].
  - by exists O.
  - simpl. destruct (rstrip_char c s) as [|b r] eqn:E.
    + destruct (decide (a = c)) as [->|Hne].
      * exists (S n). rewrite app_empty_l in *. by rewrite IH at 1.
      * exists n. by rewrite app_cons, app_empty_l, IH at 1.
    + exists n. by rewrite app_cons, IH at 1.
Qed.

Lemma rstrip_char_last c s : last_char (rstrip_char c s) <> Some c.
Proof.
  induction s as [|a s IH]; simpl; [done|].
  destruct (rstrip_char c s) as [|b r] eqn:E.
  - destruct (decide (a = c)); simpl; congruence.
  - exact IH.
Qed.
End StringFacts.

(** ** The URL normalizer *)

Section UrlFacts.
Import PyStr Url.

(** C7, as the code has it: for every input, total as a function on
    strings, [_normalize_url] prepends "https://" exactly when the input
    starts with neither "http://" nor "https://", and then removes every
    trailing slash: what is left does not end in a slash, and putting
    the slashes back gives the prefixed input. *)
Theorem normalize_url_strips_all_slashes (url : string) :
  let prefixed := if Spec.has_scheme url then url else "https://" +:+ url in
  (exists n, prefixed = _normalize_url url +:+ repeat_char "/" n) /\
  last_char (_normalize_url url) <> Some "/"%char.
Proof.
  unfold _normalize_url, Spec.has_scheme.
  destruct (startswith "http://" url || startswith "https://" url); simpl.
  - split; [apply rstrip_char_spec | apply rstrip_char_last].
  - split; [apply (rstrip_char_spec "/" ("https://" +:+ url))
           | apply (rstrip_char_last "/" ("https://" +:+ url))].
Qed.

(** C7, as stated, fails: two trailing slashes are both removed, where
    stripping a single one would leave "https://example.com/". *)
Lemma normalize_url_not_single_slash :
  _normalize_url "example.com//" = "https://example.com" /\
  Spec.normalize "example.com//" = "https://example.com/" /\
  _normalize_url "example.com//" <> Spec.normalize "example.com//".
Proof. repeat split. by vm_compute. Qed.

(** A URL without a host: [parsed.hostname] is [None] and the method
    call on it raises. *)
Lemma variations_without_host f :
  _generate_url_variations f (_normalize_url "") =
  inl (AttributeError "'NoneType' object has no attribute 'startswith'").
Proof. reflexivity. Qed.

(** Whenever the variations are produced, there are two of them. *)
Lemma variations_length f url vs :
  _generate_url_variations f url = inr vs -> length vs = 2%nat.
Proof.
  unfold _generate_url_variations. destruct (urlparse f url) as [e|parsed]; [done|].
  destruct (hostname parsed) as [host|]; [|done].
  destruct (startswith "www." host), (bool_decide (scheme parsed = "https"));
    by intros [= <-].
Qed.

(** C8 at "https://WWW.example.com", the normal form of the input
    "WWW.example.com": the host name read from the URL is lower-cased
    and starts with "www.", the replacement looks for "www." in the URL
    as written and finds nothing, and the first variation is the input
    itself, its host unchanged. *)
Theorem variations_uppercase_www f :
  _normalize_url "WWW.example.com" = "https://WWW.example.com" /\
  _generate_url_variations f "https://WWW.example.com" =
    inr ["https://WWW.example.com"; "http://WWW.example.com"].
Proof. split; reflexivity. Qed.
End UrlFacts.

(** ** Technology signatures *)

Section TechFacts.
Import PyStr Extract.

Lemma append_if_here c n l : c = true -> n ∈ append_if c n l.
Proof. intros ->. unfold append_if. set_solver. Qed.

Lemma append_if_mono c n l (x : string) : x ∈ l -> x ∈ append_if c n l.
Proof. unfold append_if. destruct c; set_solver. Qed.

Lemma append_if_inv c n l (x : string) :
  x ∈ append_if c n l -> x ∈ l \/ (c = true /\ x = n).
Proof.
  unfold append_if. destruct c; [|by left].
  rewrite elem_of_app, list_elem_of_singleton. intros [H|H]; [by left | by right].
Qed.

(** C9: markup with the substring "hs-scripts.com" yields "HubSpot", and
    markup that mentions "salesforce" while none of "salesforce.com",
    "force.com", "sfmc", "data-sf" occurs in it (the matching is on the
    lower-cased markup) does not yield "Salesforce". *)
Theorem detect_hubspot_and_bare_salesforce (html : string) :
  (contains "hs-scripts.com" html = true -> "HubSpot" ∈ _detect_technologies html) /\
  (contains "salesforce" (lower html) = true ->
   contains "salesforce.com" (lower html) = false ->
   contains "force.com" (lower html) = false ->
   contains "sfmc" (lower html) = false ->
   contains "data-sf" (lower html) = false ->
   "Salesforce" ∉ _detect_technologies html).
Proof.
  unfold _detect_technologies. rewrite elem_of_list_to_set. split.
  - intros H. apply contains_lower in H; [|done].
    unfold detected. cbv zeta. do 25 apply append_if_mono.
    apply append_if_here. rewrite H. by rewrite orb_true_r.
  - intros _ H1 H2 H3 H4. rewrite elem_of_list_to_set.
    unfold detected. cbv zeta. rewrite H1, H2, H3, H4. simpl.
    rewrite andb_false_r. intros H.
    repeat (apply append_if_inv in H as [H|[_ H]]; [|discriminate H]).
    apply append_if_inv in H as [H|[H _]]; [|discriminate H].
    repeat (apply append_if_inv in H as [H|[_ H]]; [|discriminate H]).
    set_solver.
Qed.
End TechFacts.

(** ** Contact information: social links *)

Section SocialFacts.
Import PyStr Extract.

Lemma social_step_lookup (m : gmap string string) link p :
  social_step m link !! p =
  if decide (Spec.platform_of link = Some p) then Some link else m !! p.
Proof.
  unfold social_step, Spec.platform_of.
  repeat match goal with
         | |- context [if contains ?d ?h then _ else _] => destruct (contains d h)
         end;
    rewrite ?lookup_insert; repeat case_decide; congruence.
Qed.

Lemma fold_social_lookup links (m : gmap string string) p :
  fold_left social_step links m !! p =
  match last (filter (fun link => Spec.platform_of link = Some p) links) with
  | Some link => Some link
  | None => m !! p
  end.
Proof.
  revert m. induction links as [|link links IH]; intros m; simpl; [done|].
  rewrite IH, social_step_lookup, filter_cons.
  case_decide; [|done]. rewrite last_cons. by destruct (last _).
Qed.

(** C3, as the code has it: after the scan, the link stored for a
    platform is the last anchor, in document order, filed under it; an
    anchor is filed under the first of linkedin, twitter, facebook,
    instagram whose domain occurs in its lower-cased [href]. *)
Theorem social_links_keep_last (links : list string) (platform : string) :
  scan_social_links links !! platform =
  last (filter (fun link => Spec.platform_of link = Some platform) links).
Proof.
  unfold scan_social_links. rewrite fold_social_lookup, lookup_empty.
  by destruct (last _).
Qed.

(** C3, as stated, fails: of two LinkedIn anchors the second is kept,
    not the first. *)
Lemma social_links_not_first :
  scan_social_links Sample.two_linkedin_links !! "linkedin" =
    Some "https://www.linkedin.com/in/jane-doe" /\
  Spec.first_anchor_with "linkedin.com" Sample.two_linkedin_links =
    Some "https://www.linkedin.com/company/acme" /\
  scan_social_links Sample.two_linkedin_links !! "linkedin" <>
    Spec.first_anchor_with "linkedin.com" Sample.two_linkedin_links.
Proof. repeat split. by vm_compute. Qed.
End SocialFacts.

(** ** Content sections *)

Section SectionFacts.
Import PyStr Extract.

Lemma rstrip_by_idem f s : rstrip_by f (rstrip_by f s) = rstrip_by f s.
Proof.
  induction s as [|a s IH]; simpl; [done|].
  destruct (rstrip_by f s) as [|b r] eqn:E.
  - destruct (f a) eqn:Ea; simpl; [done|]. by rewrite Ea.
  - simpl in *. by rewrite IH.
Qed.

Lemma rstrip_by_head f a s :
  f a = false -> exists r, rstrip_by f (String a s) = String a r.
Proof.
  intros Ha. simpl. destruct (rstrip_by f s) as [|b r].
  - rewrite Ha. by eexists.
  - by eexists.
Qed.

Lemma lstrip_by_head f s :
  lstrip_by f s = EmptyString \/ exists a r, lstrip_by f s = String a r /\ f a = false.
Proof.
  induction s as [|a s IH]; simpl; [by left|].
  destruct (f a) eqn:Ea; [done|]. right. by exists a, s.
Qed.

(** [strip] is idempotent. *)
Lemma strip_idem s : strip (strip s) = strip s.
Proof.
  unfold strip. destruct (lstrip_by_head isspace s) as [->|(a & r & -> & Ha)]; [done|].
  destruct (rstrip_by_head isspace a r Ha) as [r' Hr]. rewrite Hr.
  assert (lstrip_by isspace (String a r') = String a r') as -> by (simpl; by rewrite Ha).
  by rewrite <- Hr, rstrip_by_idem.
Qed.

Lemma set_section_stripped key found sections :
  (forall text, found = Some text -> strip text = text) ->
  stripped sections -> stripped (set_section key found sections).
Proof.
  intros Hf Hs. destruct found as [text|]; simpl; [|done].
  intros k c. rewrite lookup_insert. case_decide; [|apply Hs].
  intros [= <-]. by apply Hf.
Qed.

Lemma first_selected_stripped soup sels text :
  first_selected soup sels = inr (Some text) -> strip text = text.
Proof.
  induction sels as [|sel sels IH]; simpl; [done|].
  destruct (select_one soup sel) as [e|[t|]]; [done| |done].
  intros [= <-]. apply strip_idem.
Qed.

Lemma first_selected_guarded_stripped soup sels text :
  first_selected_guarded soup sels = Some text -> strip text = text.
Proof.
  induction sels as [|sel sels IH]; simpl; [done|].
  destruct (select_one soup sel) as [e|[t|]]; [done| |done].
  intros [= <-]. apply strip_idem.
Qed.

Lemma first_selected_team_stripped soup sels text :
  first_selected_team soup sels = inr (Some text) -> strip text = text.
Proof.
  induction sels as [|sel sels IH]; simpl; [done|].
  destruct (select_one soup sel) as [e|[t|]]; [done| |done].
  destruct (contains "team" (lower t)); [|done].
  intros [= <-]. apply strip_idem.
Qed.

(** Every text that [collect_sections] stores has been stripped. *)
Lemma collect_sections_stripped soup sections :
  collect_sections soup = inr sections -> stripped sections.
Proof.
  unfold collect_sections.
  destruct (first_selected soup hero_selectors) as [|hero] eqn:E1; [done|].
  destruct (first_selected soup product_selectors) as [|products] eqn:E2; [done|].
  destruct (first_selected soup pricing_selectors) as [|pricing] eqn:E3; [done|].
  destruct (first_selected_team soup team_selectors) as [|team] eqn:E4; [done|].
  destruct (first_selected soup contact_selectors) as [|contact] eqn:E5; [done|].
  remember (first_selected_guarded soup about_selectors) as about eqn:E6.
  symmetry in E6. intros [= <-].
  repeat (apply set_section_stripped;
          [intros text ->;
           eauto using first_selected_stripped, first_selected_guarded_stripped,
             first_selected_team_stripped |]).
  intros k c. by rewrite lookup_empty.
Qed.

Lemma clean_section_keeps content :
  clean_section content =
  if 20 <? len (strip content)
  then Some (if section_cap <? len content
             then slice_to content section_cap +:+ truncation_marker else content)
  else None.
Proof.
  unfold clean_section. destruct content; [done|]. done.
Qed.

Lemma decides_here soup kind selectors selector text :
  select_one soup selector = inr (Some text) ->
  Sections.accepts kind text = true ->
  Sections.decides soup kind (selector :: selectors) selector text.
Proof. intros Hsel Hacc. exists [], selectors. by repeat split. Qed.

Lemma decides_later soup kind selectors s selector text :
  Sections.passed_over soup kind s ->
  Sections.decides soup kind selectors selector text ->
  Sections.decides soup kind (s :: selectors) selector text.
Proof.
  intros Hs (before & after & -> & Hbefore & Hsel & Hacc).
  exists (s :: before), after. split; [done|]. split; [by constructor|done].
Qed.

(** The loop stops at the deciding match and stores its stripped text. *)
Lemma loop_of_decided kind soup selectors selector text found :
  Sections.decides soup kind selectors selector text ->
  Sections.loop_of kind soup selectors = inr found ->
  found = Some (strip text).
Proof.
  intros (before & after & -> & Hbefore & Hsel & Hacc).
  induction Hbefore as [|s before Hs _ IH].
  - destruct kind; simpl in *; rewrite Hsel; rewrite ?Hacc; by intros [= <-].
  - unfold Sections.passed_over in Hs.
    destruct kind; simpl in *;
      destruct (select_one soup s) as [e|[t|]]; simpl in Hs; try done;
      rewrite ?Hs; apply IH.
Qed.

(** What a loop stores is the stripped text of its deciding match. *)
Lemma loop_of_found kind soup selectors content :
  Sections.loop_of kind soup selectors = inr (Some content) ->
  exists selector text,
    Sections.decides soup kind selectors selector text /\ content = strip text.
Proof.
  induction selectors as [|s selectors IH]; [by destruct kind|].
  destruct (select_one soup s) as [e|[t|]] eqn:Es.
  - destruct kind; simpl; rewrite Es; [done| |done].
    intros (selector & text & Hd & ->)%IH. exists selector, text. split; [|done].
    apply decides_later; [|done]. unfold Sections.passed_over. by rewrite Es.
  - destruct (Sections.accepts kind t) eqn:Hacc.
    + intros Hloop. exists s, t. split; [by apply decides_here|].
      destruct kind; simpl in *; rewrite Es in Hloop; rewrite ?Hacc in Hloop;
        by injection Hloop as <-.
    + destruct kind; simpl in *; [done..|]. rewrite Es, Hacc.
      intros (selector & text & Hd & ->)%IH. exists selector, text. split; [|done].
      apply decides_later; [|done]. unfold Sections.passed_over. by rewrite Es.
  - intros Hloop.
    assert (Sections.loop_of kind soup selectors = inr (Some content)) as Hrest
      by (destruct kind; simpl in *; by rewrite Es in Hloop).
    apply IH in Hrest as (selector & text & Hd & ->). exists selector, text.
    split; [|done]. apply decides_later; [|done].
    unfold Sections.passed_over. by rewrite Es.
Qed.

Lemma set_section_lookup_ne key found (sections : gmap string string) k :
  k <> key -> set_section key found sections !! k = sections !! k.
Proof. intros Hne. destruct found; simpl; [|done]. by rewrite lookup_insert_ne. Qed.

Lemma set_section_lookup_eq key found (sections : gmap string string) :
  sections !! key = None -> set_section key found sections !! key = found.
Proof. intros Hnone. destruct found; simpl; [|done]. by rewrite lookup_insert_eq. Qed.

Lemma set_section_lookup_inv key found (sections : gmap string string) k text :
  set_section key found sections !! k = Some text ->
  k = key \/ sections !! k = Some text.
Proof.
  destruct (decide (k = key)) as [->|Hne]; [by left|].
  rewrite set_section_lookup_ne by done. by right.
Qed.

(** Under each label [collect_sections] stores what the label's loop
    found. *)
Lemma collect_sections_loops soup sections label kind selectors :
  collect_sections soup = inr sections ->
  (label, kind, selectors) ∈ Sections.label_loops ->
  exists found,
    Sections.loop_of kind soup selectors = inr found /\ sections !! label = found.
Proof.
  unfold collect_sections.
  destruct (first_selected soup hero_selectors) as [|hero] eqn:E1; [done|].
  destruct (first_selected soup product_selectors) as [|products] eqn:E2; [done|].
  destruct (first_selected soup pricing_selectors) as [|pricing] eqn:E3; [done|].
  destruct (first_selected_team soup team_selectors) as [|team] eqn:E4; [done|].
  destruct (first_selected soup contact_selectors) as [|contact] eqn:E5; [done|].
  remember (first_selected_guarded soup about_selectors) as about eqn:E6.
  intros [= <-] Hin. unfold Sections.label_loops in Hin.
  repeat (apply elem_of_cons in Hin as [[= -> -> ->]|Hin]);
    [..|by apply elem_of_nil in Hin];
    first [ eexists; split; [eassumption|]
          | exists about; split; [by rewrite E6|] ];
    rewrite ?set_section_lookup_ne by done;
    apply set_section_lookup_eq;
    rewrite ?set_section_lookup_ne by done; apply lookup_empty.
Qed.

(** [collect_sections] stores nothing under another key. *)
Lemma collect_sections_label soup sections label content :
  collect_sections soup = inr sections -> sections !! label = Some content ->
  exists kind selectors, (label, kind, selectors) ∈ Sections.label_loops.
Proof.
  unfold collect_sections.
  destruct (first_selected soup hero_selectors) as [|hero]; [done|].
  destruct (first_selected soup product_selectors) as [|products]; [done|].
  destruct (first_selected soup pricing_selectors) as [|pricing]; [done|].
  destruct (first_selected_team soup team_selectors) as [|team]; [done|].
  destruct (first_selected soup contact_selectors) as [|contact]; [done|].
  remember (first_selected_guarded soup about_selectors) as about.
  intros [= <-] H. unfold Sections.label_loops.
  repeat (apply set_section_lookup_inv in H as [->|H];
          [eexists _, _;
           solve [repeat first [apply list_elem_of_here | apply list_elem_of_further]]|]).
  by rewrite lookup_empty in H.
Qed.

(** C6, as the code has it.  A label is in the cleaned sections only if
    a selector of the label matched and the matched text, stripped of
    leading and trailing whitespace, is longer than 20 characters, inner
    whitespace counted.  The match that counts is the one at which the
    label's loop stops: the first match among the label's selectors, for
    the team label the first whose text contains the word team.  When
    its stripped text has at most 20 characters the label is left out;
    one of 21 to 2000 characters is kept verbatim; a longer one is cut
    to its first 2000 characters, followed by the marker. *)
Theorem content_sections_threshold (soup : Soup) (cleaned : gmap string string) :
  _extract_content_sections soup = inr cleaned ->
  (forall label excerpt,
     cleaned !! label = Some excerpt ->
     exists kind selectors selector text,
       (label, kind, selectors) ∈ Sections.label_loops /\
       Sections.decides soup kind selectors selector text /\
       20 < len (strip text) /\
       (len (strip text) <= section_cap -> excerpt = strip text) /\
       (section_cap < len (strip text) ->
        excerpt = take 2000 (strip text) +:+ "... [truncated]")) /\
  (forall label kind selectors selector text,
     (label, kind, selectors) ∈ Sections.label_loops ->
     Sections.decides soup kind selectors selector text ->
     (len (strip text) <= 20 -> cleaned !! label = None) /\
     (20 < len (strip text) /\ len (strip text) <= section_cap ->
      cleaned !! label = Some (strip text)) /\
     (section_cap < len (strip text) ->
      cleaned !! label = Some (take 2000 (strip text) +:+ "... [truncated]"))).
Proof.
  unfold _extract_content_sections.
  destruct (collect_sections soup) as [e|sections] eqn:Hc; [done|].
  intros [= <-]. unfold clean_sections, section_cap. split.
  - intros label excerpt. rewrite lookup_omap.
    destruct (sections !! label) as [content|] eqn:E; [|done]. simpl.
    destruct (collect_sections_label _ _ _ _ Hc E) as (kind & selectors & Hin).
    destruct (collect_sections_loops _ _ _ _ _ Hc Hin) as (found & Hloop & Hfound).
    rewrite E in Hfound. subst found.
    apply loop_of_found in Hloop as (selector & text & Hd & ->).
    rewrite clean_section_keeps, strip_idem.
    destruct (20 <? len (strip text)) eqn:Hlen; [|done].
    apply Z.ltb_lt in Hlen. intros [= <-].
    exists kind, selectors, selector, text.
    split; [done|]. split; [done|]. split; [done|]. unfold section_cap. split.
    + intros H. by apply Z.ltb_ge in H as ->.
    + intros H. by apply Z.ltb_lt in H as ->.
  - intros label kind selectors selector text Hin Hd.
    destruct (collect_sections_loops _ _ _ _ _ Hc Hin) as (found & Hloop & Hfound).
    rewrite (loop_of_decided _ _ _ _ _ _ Hd Hloop) in Hfound.
    rewrite lookup_omap, Hfound. simpl.
    rewrite clean_section_keeps, strip_idem. unfold section_cap.
    split; [|split].
    + intros H. by apply Z.ltb_ge in H as ->.
    + intros [H1 H2]. apply Z.ltb_lt in H1 as ->. by apply Z.ltb_ge in H2 as ->.
    + intros H.
      assert ((20 <? len (strip text)) = true) as -> by (apply Z.ltb_lt; lia).
      by apply Z.ltb_lt in H as ->.
Qed.

(** C6, as stated, fails: a matched text of 21 characters with only 11
    non-whitespace characters among them is included. *)
Lemma content_section_counts_whitespace :
  Spec.nonspace_count Sample.spaced_text = 11 /\
  exists cleaned,
    _extract_content_sections (Sample.hero_page Sample.spaced_text) = inr cleaned /\
    cleaned !! "hero_section" = Some Sample.spaced_text.
Proof. split; [done|]. eexists. split; [reflexivity|]. by vm_compute. Qed.
End SectionFacts.

(** ** The fetch strategies *)

Section FetchFacts.
Import PyStr Fetch.

Lemma length_take n s : String.length (take n s) = (n `min` String.length s)%nat.
Proof.
  revert s. induction n as [|n IH]; intros [|c s]; simpl; try done.
  by rewrite IH.
Qed.

Lemma len_slice_to s n : 0 <= n -> len (slice_to s n) = Z.min n (len s).
Proof.
  intros Hn. unfold slice_to, len.
  assert ((n <? 0) = false) as -> by (apply Z.ltb_ge; lia).
  rewrite length_take. lia.
Qed.

(** C4, as the code has it: a response whose status is not 200 makes
    the attempt fail with a [ClientError] that carries the status; a
    response with status 200 makes it return the body, cut to the
    configured maximum and with a warning logged when it is longer,
    never an error. *)
Theorem aiohttp_attempt_status (cfg : Config) (url : string) (response : Response) :
  let run := aiohttp_attempt cfg url (inr response) in
  (status response <> 200 ->
     outcome run = inl (ClientError [Txt "HTTP "; Num (status response); Txt ": ";
                                     Txt (reason response)])) /\
  (status response = 200 ->
     exists html info, outcome run = inr (html, info) /\
       (len (text response) <= max_content_length cfg ->
          html = text response /\ events run = [Get url]) /\
       (max_content_length cfg < len (text response) ->
          html = slice_to (text response) (max_content_length cfg) /\
          exists warning, events run = [Get url; Log WARNING warning]) /\
       (0 <= max_content_length cfg -> len html <= max_content_length cfg)).
Proof.
  unfold aiohttp_attempt, truncate_content. simpl. split.
  - intros H. rewrite bool_decide_eq_false_2 by done. done.
  - intros H. rewrite bool_decide_eq_true_2 by done. simpl.
    destruct (max_content_length cfg <? len (text response)) eqn:E; simpl.
    + apply Z.ltb_lt in E. do 2 eexists. split; [done|].
      split; [lia|]. split; [intros _; split; [done | by eexists]|].
      intros H0. rewrite len_slice_to by done. lia.
    + apply Z.ltb_ge in E. do 2 eexists. split; [done|].
      split; [done|]. split; [lia | done].
Qed.

(** C4, as stated, fails: the status 203 is in the 2xx range and the
    attempt raises all the same. *)
Lemma aiohttp_attempt_rejects_203 :
  200 <= status Sample.response_203 < 300 /\
  outcome (aiohttp_attempt default_config "https://example.com" (inr Sample.response_203)) =
    inl (ClientError [Txt "HTTP "; Num 203; Txt ": "; Txt "Non-Authoritative Information"]).
Proof. split; [simpl; lia | reflexivity]. Qed.

Lemma attempts_app a b : attempts (a ++ b) = (attempts a + attempts b)%nat.
Proof. unfold attempts. by rewrite List.filter_app, length_app. Qed.

Lemma sleeps_app a b : sleeps (a ++ b) = sleeps a ++ sleeps b.
Proof. apply omap_app. Qed.

Lemma aiohttp_attempt_events cfg url served :
  attempts (events (aiohttp_attempt cfg url served)) = 1%nat /\
  sleeps (events (aiohttp_attempt cfg url served)) = [].
Proof.
  unfold aiohttp_attempt, truncate_content.
  destruct served as [e|response]; simpl; [done|].
  destruct (bool_decide (status response = 200)); simpl; [|done].
  by destruct (max_content_length cfg <? len (text response)).
Qed.

Lemma quiet_bind {A B} (m : M A) (f : A -> M B) :
  quiet m -> (forall a, quiet (f a)) -> quiet (bind m f).
Proof.
  destruct m as [evs [e|a]]; intros [Ha Hs] Hf; [done|].
  specialize (Hf a). unfold bind. destruct (f a) as [evs' r], Hf as [Ha' Hs'].
  unfold quiet, events in *. simpl in *. by rewrite attempts_app, sleeps_app, Ha, Hs, Ha'.
Qed.

Lemma quiet_raise_if o : quiet (raise_if o).
Proof. by destruct o. Qed.

Lemma quiet_lift {A} (r : result A) : quiet (lift r).
Proof. done. Qed.

Lemma quiet_try_finally {A} (m : M A) (f : M unit) :
  quiet m -> quiet f -> quiet (try_finally m f).
Proof.
  destruct m as [evs r], f as [evs' r']. intros [Ha Hs] [Ha' Hs'].
  unfold quiet, events in *. simpl in *. by rewrite attempts_app, sleeps_app, Ha, Hs, Ha'.
Qed.

Lemma quiet_try_except {A} (m : M A) catches (h : exn -> M A) :
  quiet m -> (forall e, quiet (h e)) -> quiet (try_except m catches h).
Proof.
  destruct m as [evs [e|a]]; intros [Ha Hs] Hh; [|done].
  unfold try_except. destruct (catches e); [|done].
  specialize (Hh e). destruct (h e) as [evs' r], Hh as [Ha' Hs'].
  unfold quiet, events in *. simpl in *. by rewrite attempts_app, sleeps_app, Ha, Hs, Ha'.
Qed.

Lemma quiet_truncate_content cfg html : quiet (truncate_content cfg html).
Proof. unfold truncate_content. by destruct (_ <? _). Qed.

Lemma playwright_events cfg url b :
  attempts (events (_scrape_with_playwright cfg url b)) = 1%nat /\
  sleeps (events (_scrape_with_playwright cfg url b)) = [].
Proof.
  unfold _scrape_with_playwright.
  match goal with
  | |- context [bind (tell [Launch url]) (fun _ => ?rest)] =>
      assert (quiet rest) as Hq
  end.
  { apply quiet_bind; [apply quiet_raise_if | intros _].
    apply quiet_try_finally; [|apply quiet_bind; [done | intros _; apply quiet_raise_if]].
    repeat (apply quiet_bind; [| intros ?]);
      auto using quiet_raise_if, quiet_lift, quiet_truncate_content.
    - apply quiet_try_except; auto using quiet_raise_if.
    - done. }
  match goal with
  | |- context [bind (tell [Launch url]) (fun _ => ?rest)] =>
      destruct rest as [evs r]
  end.
  destruct Hq as [Ha Hs]. unfold events, attempts in *. simpl in *. by rewrite Ha, Hs.
Qed.

(** The delay before the next attempt never leaves the interval from 2
    to 10 seconds. *)
Lemma wait_exponential_bounds n : 2 <= wait_exponential 1 2 10 n <= 10.
Proof. unfold wait_exponential. lia. Qed.

(** The retrying loop needs no more fuel than the attempts it may make. *)
Lemma retry_loop_fuel {A} (fn : nat -> M A) : is_Some (retry_loop 3 1 fn).
Proof.
  simpl. destruct (fn 1%nat) as [evs1 [e1|v1]]; [|done].
  destruct (retry_if_exception_type e1); simpl; [|done].
  destruct (fn 2%nat) as [evs2 [e2|v2]]; [|done].
  destruct (retry_if_exception_type e2); simpl; [|done].
  destruct (fn 3%nat) as [evs3 [e3|v3]]; [|done].
  by destruct (retry_if_exception_type e3).
Qed.

(** So the decorated function is the loop's result. *)
Lemma retry_is_loop {A} (fn : nat -> M A) : retry_loop 3 1 fn = Some (retry fn).
Proof. unfold retry. by destruct (retry_loop_fuel fn) as [r ->]. Qed.

Lemma retry_policy {A} (fn : nat -> M A) :
  (forall n, attempts (events (fn n)) = 1%nat /\ sleeps (events (fn n)) = []) ->
  let run := retry fn in
  let k := attempts (events run) in
  (1 <= k <= 3)%nat /\
  sleeps (events run) = wait_exponential 1 2 10 <$> seq 1 (k - 1) /\
  (forall n, (1 <= n < k)%nat ->
     exists e, outcome (fn n) = inl e /\ retry_if_exception_type e = true) /\
  match outcome (fn k) with
  | inr v => outcome run = inr v
  | inl e =>
      if retry_if_exception_type e
      then k = 3%nat /\ outcome run = inl (RetryError e)
      else outcome run = inl e
  end.
Proof.
  intros Hev. unfold retry. simpl.
  destruct (Hev 1%nat) as [Ha1 Hs1], (Hev 2%nat) as [Ha2 Hs2], (Hev 3%nat) as [Ha3 Hs3].
  destruct (fn 1%nat) as [evs1 [e1|v1]] eqn:E1; simpl in *.
  2: { rewrite Ha1, Hs1. split; [lia|]. split; [done|]. split; [intros n Hn; lia|].
       by rewrite E1. }
  destruct (retry_if_exception_type e1) eqn:R1; simpl.
  2: { rewrite Ha1, Hs1. split; [lia|]. split; [done|]. split; [intros n Hn; lia|].
       rewrite E1. simpl. by rewrite R1. }
  assert (forall n, (1 <= n < 2)%nat ->
            exists e, outcome (fn n) = inl e /\ retry_if_exception_type e = true) as Hprev1.
  { intros n Hn. assert (n = 1%nat) as -> by lia. rewrite E1. by exists e1. }
  assert (forall (evs : list Event),
            attempts evs = 1%nat -> sleeps evs = [] ->
            attempts (evs1 ++ Sleep (wait_exponential 1 2 10 1) :: evs) = 2%nat /\
            sleeps (evs1 ++ Sleep (wait_exponential 1 2 10 1) :: evs) =
              [wait_exponential 1 2 10 1]) as H2.
  { intros evs Ha Hs.
    change (evs1 ++ Sleep (wait_exponential 1 2 10 1) :: evs)
      with (evs1 ++ [Sleep (wait_exponential 1 2 10 1)] ++ evs).
    rewrite !attempts_app, !sleeps_app, Ha1, Hs1, Ha, Hs. done. }
  destruct (fn 2%nat) as [evs2 [e2|v2]] eqn:E2; simpl in *.
  2: { destruct (H2 _ Ha2 Hs2) as [-> ->]. split; [lia|]. split; [done|].
       split; [done|]. by rewrite E2. }
  destruct (retry_if_exception_type e2) eqn:R2; simpl.
  2: { destruct (H2 _ Ha2 Hs2) as [-> ->]. split; [lia|]. split; [done|].
       split; [done|]. rewrite E2. simpl. by rewrite R2. }
  assert (forall (evs : list Event),
            attempts evs = 1%nat -> sleeps evs = [] ->
            attempts (evs1 ++ Sleep (wait_exponential 1 2 10 1)
                        :: evs2 ++ Sleep (wait_exponential 1 2 10 2) :: evs) = 3%nat /\
            sleeps (evs1 ++ Sleep (wait_exponential 1 2 10 1)
                      :: evs2 ++ Sleep (wait_exponential 1 2 10 2) :: evs) =
              [wait_exponential 1 2 10 1; wait_exponential 1 2 10 2]) as H3.
  { intros evs Ha Hs.
    change (evs1 ++ Sleep (wait_exponential 1 2 10 1)
              :: evs2 ++ Sleep (wait_exponential 1 2 10 2) :: evs)
      with (evs1 ++ [Sleep (wait_exponential 1 2 10 1)]
              ++ evs2 ++ [Sleep (wait_exponential 1 2 10 2)] ++ evs).
    rewrite !attempts_app, !sleeps_app, Ha1, Hs1, Ha2, Hs2, Ha, Hs. done. }
  assert (forall n, (1 <= n < 3)%nat ->
            exists e, outcome (fn n) = inl e /\ retry_if_exception_type e = true) as Hprev2.
  { intros n Hn. assert (n = 1 \/ n = 2)%nat as [-> | ->] by lia.
    - rewrite E1. by exists e1.
    - rewrite E2. by exists e2. }
  destruct (fn 3%nat) as [evs3 [e3|v3]] eqn:E3; simpl in *.
  - destruct (H3 _ Ha3 Hs3) as [Hk Hsl].
    destruct (retry_if_exception_type e3) eqn:R3; simpl; rewrite Hk, Hsl;
      (split; [lia|]; split; [done|]; split; [done|]; rewrite E3; simpl; by rewrite R3).
  - destruct (H3 _ Ha3 Hs3) as [-> ->].
    split; [lia|]. split; [done|]. split; [done|]. by rewrite E3.
Qed.

(** C2, as the code has it.  The aiohttp strategy makes between one and
    three attempts; before each further attempt it waits the exponential
    delay kept between 2 and 10 seconds; only a [ClientError] or an
    [asyncio.TimeoutError] is followed by another attempt, any other
    exception ends the call at once, and such an error on the third
    attempt ends it with a [RetryError].  The Playwright strategy makes
    one attempt and never waits, whatever happens in the browser. *)
Theorem retry_policy_of_the_strategies (cfg : Config) (url : string)
    (served : nat -> result Response) (b : BrowserScript) :
  let attempt := fun n => aiohttp_attempt cfg url (served n) in
  let run := _scrape_with_aiohttp cfg url served in
  let k := attempts (events run) in
  ((1 <= k <= 3)%nat /\
   sleeps (events run) = wait_exponential 1 2 10 <$> seq 1 (k - 1) /\
   Forall (fun seconds => 2 <= seconds <= 10) (sleeps (events run)) /\
   (forall n, (1 <= n < k)%nat ->
      exists e, outcome (attempt n) = inl e /\ retry_if_exception_type e = true) /\
   match outcome (attempt k) with
   | inr v => outcome run = inr v
   | inl e =>
       if retry_if_exception_type e
       then k = 3%nat /\ outcome run = inl (RetryError e)
       else outcome run = inl e
   end) /\
  (attempts (events (_scrape_with_playwright cfg url b)) = 1%nat /\
   sleeps (events (_scrape_with_playwright cfg url b)) = []).
Proof.
  split; [|apply playwright_events].
  pose proof (retry_policy (fun n => aiohttp_attempt cfg url (served n))
                (fun n => aiohttp_attempt_events cfg url (served n))) as (Hk & Hs & Hn & Ho).
  unfold _scrape_with_aiohttp. repeat split; try done; try lia.
  rewrite Hs. apply Forall_fmap, Forall_forall. intros n _.
  apply wait_exponential_bounds.
Qed.

(** C2, as stated, fails for the browser strategy: when the navigation
    times out, the call ends with the time-out after a single launch and
    no pause. *)
Lemma playwright_timeout_not_retried :
  let run := _scrape_with_playwright default_config "https://example.com"
               Sample.stalled_browser in
  outcome run = inl (PlaywrightTimeoutError "Timeout 30000ms exceeded.") /\
  attempts (events run) = 1%nat /\
  sleeps (events run) = [] /\
  events run = [Launch "https://example.com"; Close].
Proof. repeat split. Qed.
End FetchFacts.

(** ** The orchestrator *)

Section ScraperFacts.
Import PyStr Models Scraper.
Variable cfg : Config.
Variable w : World.

#[local] Arguments aiohttp_call : simpl never.
#[local] Arguments playwright_call : simpl never.

Lemma extract_sets_url html u d :
  _extract_structured_data w html u = inr d -> url d = u.
Proof.
  unfold _extract_structured_data.
  repeat match goal with
         | |- context [match ?x with inl _ => _ | inr _ => _ end] => destruct x; [done|]
         end.
  by intros [= <-].
Qed.

Lemma method1_failed L :
  no_content L = true ->
  Spec.fetch_failed (aiohttp_call cfg w 0 (normalized_url L)) ->
  no_content (method1 cfg w L) = true /\
  normalized_url (method1 cfg w L) = normalized_url L.
Proof.
  unfold Spec.fetch_failed, method1. simpl. intros HL.
  destruct (outcome (aiohttp_call cfg w 0 (normalized_url L))) as [e|[html info]].
  - done.
  - by intros ->.
Qed.

Lemma method2_failed L :
  no_content L = true ->
  Spec.fetch_failed (playwright_call cfg w (normalized_url L)) ->
  no_content (method2 cfg w L) = true /\
  normalized_url (method2 cfg w L) = normalized_url L.
Proof.
  unfold Spec.fetch_failed, method2. intros HL. rewrite HL. simpl.
  destruct (outcome (playwright_call cfg w (normalized_url L))) as [e|[html info]].
  - done.
  - by intros ->.
Qed.

Lemma try_variations_failed variations k L :
  no_content L = true ->
  (forall i v, variations !! i = Some v ->
     Spec.fetch_failed (aiohttp_call cfg w (k + i) v)) ->
  no_content (try_variations cfg w k variations L) = true.
Proof.
  revert k L. induction variations as [|v variations IH]; intros k L HL Hfail; simpl.
  - done.
  - pose proof (Hfail O v eq_refl) as H0. unfold Spec.fetch_failed in H0.
    rewrite Nat.add_0_r in H0.
    destruct (outcome (aiohttp_call cfg w k v)) as [e|[html info]].
    + apply IH; [done|]. intros i v' Hi.
      replace (S k + i)%nat with (k + S i)%nat by lia. by apply Hfail.
    + by subst html.
Qed.

(** When nothing was fetched the [try] block is left by an exception. *)
Lemma try_block_failed L :
  no_content L = true ->
  Spec.fetch_failed (aiohttp_call cfg w 0 (normalized_url L)) ->
  Spec.fetch_failed (playwright_call cfg w (normalized_url L)) ->
  (forall variations i v,
     Url._generate_url_variations (netloc_ok w) (normalized_url L) = inr variations ->
     variations !! i = Some v ->
     Spec.fetch_failed (aiohttp_call cfg w (1 + i) v)) ->
  exists L' e, try_block cfg w L = (L', inl e).
Proof.
  intros HL H1 H2 H3. unfold try_block.
  destruct (method1_failed L HL H1) as [Hc1 Hu1].
  rewrite <- Hu1 in H2, H3.
  destruct (method2_failed _ Hc1 H2) as [Hc2 Hu2].
  rewrite <- Hu2 in H3.
  unfold method3. rewrite Hc2. simpl.
  destruct (Url._generate_url_variations _ _) as [e|variations] eqn:Ev.
  - by do 2 eexists.
  - pose proof (try_variations_failed variations 1
                  (log INFO [FTxt "Trying URL variations..."]
                     (method2 cfg w (method1 cfg w L))) Hc2
                  (fun i v => H3 variations i v eq_refl)) as Hc3.
    unfold no_content in Hc3.
    destruct (html_content (try_variations _ _ _ _ _)) as [html|].
    + destruct (truthy html); [done|]. by do 2 eexists.
    + by do 2 eexists.
Qed.

(** C1: [scrape_website] returns a pair for every input; whenever the
    record reports failure the document has empty content fields and
    the record lists at least one error; and the record reports failure
    when the aiohttp call, the Playwright call and the aiohttp call for
    every URL variation have all failed. *)
Theorem scrape_website_always_returns (input : string) :
  exists doc meta,
    outcome (scrape_website cfg w input) = inr (doc, meta) /\
    (scraping_success meta = false ->
       html_text doc = "" /\ meta_data doc = ∅ /\ structured_data doc = [] /\
       content_sections doc = ∅ /\ technology_stack doc = ∅ /\
       contact_info doc = Extract.no_contact_info /\ navigation_structure doc = ∅ /\
       (1 <= length (errors_encountered meta))%nat) /\
    (Spec.fetch_failed (aiohttp_call cfg w 0 (Url._normalize_url input)) ->
     Spec.fetch_failed (playwright_call cfg w (Url._normalize_url input)) ->
     (forall variations i v,
        Url._generate_url_variations (netloc_ok w) (Url._normalize_url input)
          = inr variations ->
        variations !! i = Some v ->
        Spec.fetch_failed (aiohttp_call cfg w (1 + i) v)) ->
     scraping_success meta = false).
Proof.
  unfold scrape_website.
  match goal with
  | |- context [try_block cfg w ?L0] =>
      pose proof (try_block_failed L0 eq_refl) as Hfail;
      destruct (try_block cfg w L0) as [L [e|d]]
  end.
  - do 2 eexists. split; [reflexivity|]. simpl. split; [|done].
    intros _. repeat split; try done. rewrite length_app. simpl. lia.
  - do 2 eexists. split; [reflexivity|]. simpl. split; [done|].
    intros H1 H2 H3. by destruct (Hfail H1 H2 H3) as (L' & e & ?).
Qed.

Lemma try_variations_hit variations k L i v html info :
  variations !! i = Some v ->
  (forall j vj, (j < i)%nat -> variations !! j = Some vj ->
     exists e, outcome (aiohttp_call cfg w (k + j) vj) = inl e) ->
  outcome (aiohttp_call cfg w (k + i) v) = inr (html, info) ->
  html_content (try_variations cfg w k variations L) = Some html /\
  scraping_method (try_variations cfg w k variations L) = Some "aiohttp_variation" /\
  normalized_url (try_variations cfg w k variations L) = v /\
  metadata (try_variations cfg w k variations L) = metadata L.
Proof.
  revert k L i. induction variations as [|v0 variations IH]; intros k L i Hi Hprev Hhit.
  - done.
  - destruct i as [|i]; simpl in *.
    + injection Hi as ->. rewrite Nat.add_0_r in Hhit. by rewrite Hhit.
    + destruct (Hprev O v0 ltac:(lia) eq_refl) as [e He].
      rewrite Nat.add_0_r in He. rewrite He.
      replace (k + S i)%nat with (S k + i)%nat in Hhit by lia.
      destruct (IH (S k) (log DEBUG [FTxt "URL variation "; FTxt v0; FTxt " failed: ";
                                     FErr e]
                            (emit (events (aiohttp_call cfg w k v0))
                               (log INFO [FTxt "Trying URL variation: "; FTxt v0] L)))
                  i Hi) as (H1 & H2 & H3 & H4); [|done|done].
      intros j vj Hj Hvj. replace (S k + j)%nat with (k + S j)%nat by lia.
      apply Hprev; [lia | done].
Qed.

(** C5, as the code has it: when the aiohttp call and the Playwright
    call for the primary URL have failed, the aiohttp calls for the
    variations before [v] have raised, the one for [v] returns markup
    that is not empty and the extraction completes, the record's method
    is "aiohttp_variation", it reports success, and the document is the
    one extracted for [v], with [v] as its URL. *)
Theorem variation_success (input : string) (variations : list string) (i : nat)
    (v html : string) (info : FetchInfo) (d : Doc) :
  Spec.fetch_failed (aiohttp_call cfg w 0 (Url._normalize_url input)) ->
  Spec.fetch_failed (playwright_call cfg w (Url._normalize_url input)) ->
  Url._generate_url_variations (netloc_ok w) (Url._normalize_url input) = inr variations ->
  variations !! i = Some v ->
  (forall j vj, (j < i)%nat -> variations !! j = Some vj ->
     exists e, outcome (aiohttp_call cfg w (1 + j) vj) = inl e) ->
  outcome (aiohttp_call cfg w (1 + i) v) = inr (html, info) ->
  html <> "" ->
  _extract_structured_data w html v = inr d ->
  exists meta,
    outcome (scrape_website cfg w input) = inr (d, meta) /\
    Models.scraping_method meta = "aiohttp_variation" /\
    scraping_success meta = true /\
    content_length meta = len html /\
    url d = v.
Proof.
  intros H1 H2 Hv Hi Hprev Hhit Hne Hd.
  unfold scrape_website. remember (Url._normalize_url input) as u eqn:Hu.
  match goal with
  | |- context [try_block cfg w ?L0] => set (L0' := L0)
  end.
  destruct (method1_failed L0' eq_refl H1) as [Hc1 Hu1].
  change (normalized_url L0') with u in Hu1.
  rewrite <- Hu1 in H2, Hv.
  destruct (method2_failed _ Hc1 H2) as [Hc2 Hu2].
  rewrite <- Hu2 in Hv.
  unfold try_block, method3. rewrite Hc2. simpl.
  rewrite Hv.
  match goal with
  | |- context [try_variations cfg w 1 variations ?L] =>
      destruct (try_variations_hit variations 1 L i v html info Hi Hprev Hhit)
        as (E1 & E2 & E3 & E4)
  end.
  rewrite E1. assert (truthy html = true) as -> by (by destruct html).
  simpl. rewrite E3, Hd. simpl. rewrite E1, E2. simpl.
  eexists. split; [reflexivity|]. simpl. repeat split.
  by apply extract_sets_url in Hd.
Qed.

(** *** The trace of a run *)

Lemma events_tell_bind {A} evs (k : unit -> M A) :
  events (bind (tell evs) k) = evs ++ events (k tt).
Proof. unfold bind, tell. by destruct (k tt). Qed.

Lemma aiohttp_call_starts_with_get k u :
  exists rest, events (aiohttp_call cfg w k u) = Get u :: rest.
Proof.
  unfold aiohttp_call, Fetch._scrape_with_aiohttp, Fetch.retry.
  assert (forall n, exists evs,
            events (Fetch.aiohttp_attempt cfg u (http_get w k n u)) = Get u :: evs)
    as Hget.
  { intros n. unfold Fetch.aiohttp_attempt. rewrite events_tell_bind. by eexists. }
  simpl. destruct (Hget 1%nat) as (evs & Hevs).
  destruct (Fetch.aiohttp_attempt cfg u (http_get w k 1 u)) as [evs1 [e1|v1]];
    simpl in Hevs; subst evs1; [|by eexists].
  destruct (Fetch.retry_if_exception_type e1); simpl; [|by eexists].
  destruct (Fetch.aiohttp_attempt cfg u (http_get w k 2 u)) as [evs2 [e2|v2]];
    [|by eexists].
  destruct (Fetch.retry_if_exception_type e2); simpl; [|by eexists].
  destruct (Fetch.aiohttp_attempt cfg u (http_get w k 3 u)) as [evs3 [e3|v3]];
    [|by eexists].
  destruct (Fetch.retry_if_exception_type e3); by eexists.
Qed.

Lemma playwright_call_starts_with_launch u :
  exists rest, events (playwright_call cfg w u) = Launch u :: rest.
Proof.
  unfold playwright_call, Fetch._scrape_with_playwright.
  rewrite events_tell_bind. by eexists.
Qed.

Lemma try_variations_prefix variations k L :
  trace L `prefix_of` trace (try_variations cfg w k variations L).
Proof.
  revert k L. induction variations as [|v variations IH]; intros k L; simpl; [done|].
  destruct (outcome (aiohttp_call cfg w k v)) as [e|[html info]].
  - etrans; [|apply IH]. simpl. rewrite <- !(assoc_L (++)). by apply prefix_app_r.
  - simpl. rewrite <- !(assoc_L (++)). by apply prefix_app_r.
Qed.

Lemma try_variations_first v variations k L :
  Get v ∈ trace (try_variations cfg w k (v :: variations) L).
Proof.
  simpl. destruct (aiohttp_call_starts_with_get k v) as [rest Hrest].
  destruct (outcome (aiohttp_call cfg w k v)) as [e|[html info]].
  - eapply elem_of_prefix; [|apply try_variations_prefix].
    simpl. rewrite Hrest. set_solver.
  - simpl. rewrite Hrest. set_solver.
Qed.

Lemma method3_prefix L : trace L `prefix_of` trace (method3 cfg w L).1.
Proof.
  unfold method3. destruct (no_content L); [|done].
  destruct (Url._generate_url_variations _ _) as [e|variations]; simpl.
  - by apply prefix_app_r.
  - etrans; [|apply try_variations_prefix]. by apply prefix_app_r.
Qed.

Lemma try_block_prefix L :
  trace (method3 cfg w (method2 cfg w (method1 cfg w L))).1
    `prefix_of` trace (try_block cfg w L).1.
Proof.
  unfold try_block. destruct (method3 _ _ _) as [L' [e|]]; simpl; [done|].
  destruct (html_content L') as [html|]; [|done].
  destruct (truthy html); simpl; [|done]. by apply prefix_app_r.
Qed.

Lemma scrape_website_events input (ev : Event) :
  ev ∈ trace (try_block cfg w
                (log INFO [FTxt "Starting intelligent scraping for: ";
                           FTxt (Url._normalize_url input)]
                   (initial_locals (Url._normalize_url input)
                      {| Models.scraping_method := "unknown"; scraping_success := false;
                         content_length := 0; errors_encountered := [];
                         warnings := [] |}))).1 ->
  ev ∈ events (scrape_website cfg w input).
Proof.
  unfold scrape_website. simpl.
  destruct (try_block _ _ _) as [L [e|d]]; simpl; set_solver.
Qed.

(** C10: when the aiohttp call for the primary URL returns an empty
    string without raising, the browser is launched for the same URL.
    When the browser's markup is not empty and the extraction completes,
    the record's method is "playwright".  When the browser returns an
    empty string as well, the first URL variation is requested; and when
    that request also returns an empty string, the call returns the
    empty document and a record with success false whose only error is
    the final "All scraping methods failed": no fetch has raised. *)
Theorem empty_body_counts_as_failure (input : string) (info : FetchInfo) :
  outcome (aiohttp_call cfg w 0 (Url._normalize_url input)) = inr ("", info) ->
  Launch (Url._normalize_url input) ∈ events (scrape_website cfg w input) /\
  (forall html info' d,
     outcome (playwright_call cfg w (Url._normalize_url input)) = inr (html, info') ->
     html <> "" ->
     _extract_structured_data w html (Url._normalize_url input) = inr d ->
     exists meta, outcome (scrape_website cfg w input) = inr (d, meta) /\
                  Models.scraping_method meta = "playwright" /\
                  scraping_success meta = true) /\
  (forall info' v variations,
     outcome (playwright_call cfg w (Url._normalize_url input)) = inr ("", info') ->
     Url._generate_url_variations (netloc_ok w) (Url._normalize_url input)
       = inr (v :: variations) ->
     Get v ∈ events (scrape_website cfg w input) /\
     (forall info'',
        outcome (aiohttp_call cfg w 1 v) = inr ("", info'') ->
        outcome (scrape_website cfg w input) =
          inr (empty_doc v,
               {| Models.scraping_method := "unknown";
                  scraping_success := false;
                  content_length := 0;
                  errors_encountered :=
                    [[FTxt "final_error: ";
                      FErr (PlainException "All scraping methods failed")]];
                  warnings := [] |}))).
Proof.
  intros H1. remember (Url._normalize_url input) as u eqn:Hu.
  split; [|split].
  - apply scrape_website_events. rewrite <- Hu.
    eapply elem_of_prefix; [|apply try_block_prefix].
    eapply elem_of_prefix; [|apply method3_prefix].
    unfold method2, method1. simpl. rewrite H1. simpl.
    destruct (playwright_call_starts_with_launch u) as [rest Hrest].
    destruct (outcome (playwright_call cfg w u)) as [e|[html info']];
      simpl; rewrite Hrest; set_solver.
  - intros html info' d H2 Hne Hd.
    assert (truthy html = true) as Ht by (by destruct html).
    unfold scrape_website. rewrite <- Hu. unfold try_block, method3, method2, method1.
    simpl. rewrite H1. simpl. rewrite H2. unfold no_content. simpl.
    rewrite Ht. simpl. rewrite Ht, Hd. simpl.
    eexists. split; [reflexivity|]. done.
  - intros info' v variations H2 Hv. split.
    + apply scrape_website_events. rewrite <- Hu.
      eapply elem_of_prefix; [|apply try_block_prefix].
      unfold method3, method2, method1. simpl. rewrite H1. simpl. rewrite H2.
      unfold no_content. simpl. rewrite Hv. simpl.
      apply try_variations_first.
    + intros info'' H3.
      unfold scrape_website. rewrite <- Hu. unfold try_block, method3, method2, method1.
      simpl. rewrite H1. simpl. rewrite H2. unfold no_content. simpl. rewrite Hv.
      simpl. rewrite H3. simpl. done.
Qed.
End ScraperFacts.

(** ** The properties at the sample inputs *)

Section Instances.
Import PyStr Models Scraper.

(** C5, as stated, fails: with only "https://www.example.com"
    answering, the variation wins and the document carries its URL, but
    the method recorded is "aiohttp_variation", not "http_variation". *)
Lemma variation_label_is_aiohttp_variation :
  exists d meta,
    outcome (scrape_website default_config Sample.www_only_world "example.com")
      = inr (d, meta) /\
    url d = "https://www.example.com" /\
    Models.scraping_method meta = "aiohttp_variation" /\
    Models.scraping_method meta <> "http_variation".
Proof. do 2 eexists. split; [vm_compute; reflexivity|]. by repeat split. Qed.

Lemma variation_success_witness :
  exists d meta,
    outcome (scrape_website default_config Sample.www_only_world "example.com")
      = inr (d, meta) /\
    Models.scraping_method meta = "aiohttp_variation" /\
    url d = "https://www.example.com".
Proof.
  edestruct (variation_success default_config Sample.www_only_world "example.com"
               ["https://www.example.com"; "http://example.com"] 0
               "https://www.example.com")
    as (meta & Ho & Hm & _ & _ & Hu).
  - vm_compute. exact I.
  - vm_compute. exact I.
  - reflexivity.
  - reflexivity.
  - intros j vj Hj. lia.
  - vm_compute. reflexivity.
  - discriminate.
  - vm_compute. reflexivity.
  - eexists _, meta. split; [exact Ho|]. split; [exact Hm | exact Hu].
Defined.

Lemma scrape_website_always_returns_witness :
  exists doc meta,
    outcome (scrape_website default_config Sample.dead_world "example.com")
      = inr (doc, meta) /\
    scraping_success meta = false /\ html_text doc = "" /\
    technology_stack doc = ∅ /\ (1 <= length (errors_encountered meta))%nat.
Proof.
  destruct (scrape_website_always_returns default_config Sample.dead_world "example.com")
    as (doc & meta & Ho & Hempty & Hall).
  assert (scraping_success meta = false) as Hs.
  { apply Hall.
    - vm_compute. exact I.
    - vm_compute. exact I.
    - intros variations i v _ _. vm_compute. exact I. }
  destruct (Hempty Hs) as (H1 & _ & _ & _ & H5 & _ & _ & H8).
  exists doc, meta. split; [exact Ho|]. split; [exact Hs|].
  split; [exact H1|]. split; [exact H5 | exact H8].
Defined.

Lemma empty_body_counts_as_failure_witness :
  Launch "https://example.com"
    ∈ events (scrape_website default_config Sample.empty_body_world "example.com") /\
  outcome (scrape_website default_config Sample.empty_body_world "example.com") =
    inr (empty_doc "https://www.example.com",
         {| Models.scraping_method := "unknown";
            scraping_success := false;
            content_length := 0;
            errors_encountered :=
              [[FTxt "final_error: ";
                FErr (PlainException "All scraping methods failed")]];
            warnings := [] |}).
Proof.
  edestruct (empty_body_counts_as_failure default_config Sample.empty_body_world
               "example.com") as (H1 & _ & H3).
  - vm_compute. reflexivity.
  - split; [exact H1|].
    edestruct H3 as [_ H4].
    + vm_compute. reflexivity.
    + reflexivity.
    + eapply H4. vm_compute. reflexivity.
Defined.

Lemma detect_hubspot_and_bare_salesforce_witness :
  "HubSpot" ∈ Extract._detect_technologies
                "<script src='//js.hs-scripts.com/4711.js'></script>" /\
  "Salesforce" ∉ Extract._detect_technologies
                   "<p>We migrated from Salesforce last year.</p>".
Proof.
  split.
  - apply (proj1 (detect_hubspot_and_bare_salesforce _)). reflexivity.
  - apply (proj2 (detect_hubspot_and_bare_salesforce _)); reflexivity.
Defined.

Lemma content_sections_threshold_witness :
  exists cleaned,
    Extract._extract_content_sections (Sample.hero_page Sample.text25) = inr cleaned /\
    cleaned !! "hero_section" = Some Sample.text25.
Proof.
  eexists. split; [reflexivity|].
  apply (proj2 (content_sections_threshold (Sample.hero_page Sample.text25) _ eq_refl)
           "hero_section" Sections.Plain Extract.hero_selectors
           (Extract.attr_has "class" "hero") Sample.text25).
  - apply list_elem_of_here.
  - exists [], (List.tl Extract.hero_selectors). split; [reflexivity|].
    split; [constructor|]. split; reflexivity.
  - vm_compute. split; [reflexivity | discriminate].
Defined.

Lemma aiohttp_attempt_status_witness :
  exists info,
    outcome (Fetch.aiohttp_attempt default_config "https://example.com"
               (inr (Sample.response_ok "<html></html>")))
    = inr ("<html></html>", info).
Proof.
  destruct (proj2 (aiohttp_attempt_status default_config "https://example.com"
                     (Sample.response_ok "<html></html>")))
    as (html & info & Ho & Hshort & _).
  - reflexivity.
  - destruct Hshort as [-> _]; [vm_compute; discriminate|].
    exists info. exact Ho.
Defined.

Lemma retry_policy_of_the_strategies_witness :
  outcome (Fetch._scrape_with_aiohttp default_config "https://example.com"
             (fun _ => inl Sample.connection_refused))
  = inl (RetryError Sample.connection_refused).
Proof.
  pose proof (retry_policy_of_the_strategies default_config "https://example.com"
                (fun _ => inl Sample.connection_refused) Sample.stalled_browser)
    as [(_ & _ & _ & _ & Hlast) _].
  vm_compute in Hlast. exact (proj2 Hlast).
Defined.

(** The examples of C6: a text of 15 characters is left out, one of 25
    is kept as it is. *)
Lemma content_section_15_and_25 :
  len Sample.text15 = 15 /\ len Sample.text25 = 25 /\
  Extract._extract_content_sections (Sample.hero_page Sample.text15) = inr ∅ /\
  Extract._extract_content_sections (Sample.hero_page Sample.text25)
    = inr {["hero_section" := Sample.text25]}.
Proof. repeat split; by vm_compute. Qed.
End Instances.

(* ===================================================================== *)
(** * Further properties of the code *)

(** ** URLs *)

Section MoreUrlFacts.
Import PyStr Url.

Lemma rstrip_char_idem c s : rstrip_char c (rstrip_char c s) = rstrip_char c s.
Proof.
  induction s as [|a s IH]; simpl; [done|].
  destruct (rstrip_char c s) as [|b r] eqn:E.
  - destruct (decide (a = c)) as [->|Hne]; simpl; [done|].
    by destruct (decide (a = c)).
  - simpl in *. by rewrite IH.
Qed.

(** Normalising twice is normalising once, as long as the first result
    still starts with "http://" or "https://". *)
Theorem normalize_url_idempotent (input : string) :
  Spec.has_scheme (_normalize_url input) = true ->
  _normalize_url (_normalize_url input) = _normalize_url input.
Proof.
  unfold Spec.has_scheme. intros H.
  unfold _normalize_url at 1. rewrite H. simpl.
  unfold _normalize_url. apply rstrip_char_idem.
Qed.

Lemma normalize_url_idempotent_witness :
  _normalize_url (_normalize_url "example.com/") = _normalize_url "example.com/".
Proof. apply normalize_url_idempotent. reflexivity. Defined.

(** Without that, it is not: the slashes of a bare scheme are stripped
    and a second scheme is put in front. *)
Lemma normalize_url_bare_scheme :
  _normalize_url "http://" = "http:" /\
  _normalize_url (_normalize_url "http://") = "https://http:".
Proof. split; reflexivity. Qed.

Lemma urlparse_scheme f (secure : bool) rest parsed :
  urlparse f ((if secure then "https://" else "http://") +:+ rest) = inr parsed ->
  scheme parsed = if secure then "https" else "http".
Proof.
  unfold urlparse. destruct secure; simpl.
  all: repeat match goal with
         | |- context [if ?c then _ else _] => destruct c
         end; try done; by intros [= <-].
Qed.

End MoreUrlFacts.
Section MoreUrlFacts2.
Import PyStr Url.

(** For a URL that starts with "https://" or "http://", the second
    variation, whenever variations are returned, is the same URL under
    the other of the two schemes. *)
Theorem variations_second_swaps_scheme f (secure : bool) (rest : string)
    (variations : list string) :
  _generate_url_variations f ((if secure then "https://" else "http://") +:+ rest)
    = inr variations ->
  variations !! 1%nat = Some ((if secure then "http://" else "https://") +:+ rest).
Proof.
  unfold _generate_url_variations.
  destruct (urlparse f _) as [e|parsed] eqn:E; [done|].
  apply urlparse_scheme in E.
  destruct (hostname parsed) as [host|]; [|done].
  rewrite E. destruct secure.
  - rewrite bool_decide_eq_true_2 by done.
    destruct (startswith "www." host); by intros [= <-].
  - rewrite bool_decide_eq_false_2 by done.
    destruct (startswith "www." host); by intros [= <-].
Qed.

Lemma variations_second_swaps_scheme_witness :
  ["https://www.example.com/a"; "http://example.com/a"] !! 1%nat
  = Some ("http://" +:+ "example.com/a").
Proof.
  apply (variations_second_swaps_scheme (fun _ => true) true "example.com/a").
  reflexivity.
Defined.
End MoreUrlFacts2.
Section PlainUrlFacts.
Import PyStr Url PlainUrl.

Lemma forallb_impl (P Q : ascii -> bool) s :
  (forall c, P c = true -> Q c = true) -> forallb P s = true -> forallb Q s = true.
Proof.
  intros HPQ. induction s as [|a s IH]; simpl; [done|].
  intros [Ha Hs]%andb_true_iff. by rewrite (HPQ _ Ha), IH.
Qed.

Lemma remove_char_app c s t : remove_char c (s +:+ t) = remove_char c s +:+ remove_char c t.
Proof.
  induction s as [|a s IH]; [done|]. rewrite app_cons. simpl.
  destruct (decide (a = c)); [done|]. by rewrite app_cons, IH.
Qed.

Lemma remove_char_absent c s :
  forallb (fun a => negb (bool_decide (a = c))) s = true -> remove_char c s = s.
Proof.
  induction s as [|a s IH]; simpl; [done|].
  intros [Ha Hs]%andb_true_iff. apply negb_true_iff, bool_decide_eq_false in Ha.
  destruct (decide (a = c)); [done|]. by rewrite IH.
Qed.

Lemma find_char_absent c s :
  forallb (fun a => negb (bool_decide (a = c))) s = true -> find_char c s = None.
Proof.
  induction s as [|a s IH]; simpl; [done|].
  intros [Ha Hs]%andb_true_iff. apply negb_true_iff, bool_decide_eq_false in Ha.
  destruct (decide (a = c)); [done|]. by rewrite IH.
Qed.

Lemma rpartition_tail_absent c s :
  forallb (fun a => negb (bool_decide (a = c))) s = true -> rpartition_tail c s = s.
Proof.
  intros H. destruct s as [|a s]; [done|]. simpl in *.
  apply andb_true_iff in H as [Ha Hs].
  apply negb_true_iff, bool_decide_eq_false in Ha.
  unfold has_char. rewrite (find_char_absent _ _ Hs).
  by destruct (decide (a = c)).
Qed.

Lemma take_until_app f s t :
  forallb (fun a => negb (f a)) s = true ->
  match t with EmptyString => True | String c _ => f c = true end ->
  take_until f (s +:+ t) = s.
Proof.
  intros Hs Ht. induction s as [|a s IH].
  - rewrite app_empty_l. destruct t as [|c t]; [done|]. simpl. by rewrite Ht.
  - simpl in Hs. apply andb_true_iff in Hs as [Ha Hs]. apply negb_true_iff in Ha.
    rewrite app_cons. simpl. by rewrite Ha, IH.
Qed.

Lemma lower_fixed s :
  forallb (fun a => bool_decide (lower_char a = a)) s = true -> lower s = s.
Proof.
  induction s as [|a s IH]; simpl; [done|].
  intros [Ha Hs]%andb_true_iff. apply bool_decide_eq_true in Ha. by rewrite Ha, IH.
Qed.

Lemma app_empty_r s : s +:+ EmptyString = s.
Proof. induction s as [|c s IH]; [done|]. by rewrite app_cons, IH. Qed.

(** What a host character is not. *)
Lemma host_char_plain c :
  host_char c = true ->
  c <> "009"%char /\ c <> "010"%char /\ c <> "013"%char /\ c <> "@"%char /\
  c <> "["%char /\ c <> "]"%char /\ c <> ":"%char /\ c <> "%"%char /\
  netloc_delim c = false /\ isascii c = true /\ lower_char c = c.
Proof. destruct c as [[] [] [] [] [] [] [] []]; by vm_compute. Qed.

Lemma host_lacks c host :
  (forall a, host_char a = true -> a <> c) ->
  forallb host_char host = true ->
  forallb (fun a => negb (bool_decide (a = c))) host = true.
Proof.
  intros Hc. apply forallb_impl. intros a Ha.
  apply negb_true_iff, bool_decide_eq_false. by apply Hc.
Qed.

Lemma path_like_remove_char c rest :
  c <> "/"%char -> path_like rest = true -> path_like (remove_char c rest) = true.
Proof.
  intros Hc. destruct rest as [|a rest]; simpl; [done|].
  intros ->%bool_decide_eq_true. by destruct (decide ("/"%char = c)); [subst|].
Qed.

Lemma urlparse_plain f (secure : bool) host rest :
  forallb host_char host = true -> path_like rest = true ->
  urlparse f ((if secure then "https://" else "http://") +:+ host +:+ rest)
  = inr {| scheme := if secure then "https" else "http"; netloc := host |}.
Proof.
  intros Hhost Hrest. unfold urlparse.
  set (rest' := remove_char "010" (remove_char "013" (remove_char "009" rest))).
  assert (path_like rest' = true) as Hrest'.
  { unfold rest'. repeat apply path_like_remove_char; done. }
  assert (remove_char "010"
            (remove_char "013"
               (remove_char "009"
                  (lstrip_by c0_control_or_space
                     ((if secure then "https://" else "http://") +:+ host +:+ rest))))
          = (if secure then "https://" else "http://") +:+ host +:+ rest') as ->.
  { assert (forall c, (forall a, host_char a = true -> a <> c) ->
              forall t, remove_char c (host +:+ t) = host +:+ remove_char c t) as Hrm.
    { intros c Hc t. rewrite remove_char_app. f_equal.
      apply remove_char_absent. by apply host_lacks. }
    unfold rest'.
    rewrite <- (Hrm "010"%char), <- (Hrm "013"%char), <- (Hrm "009"%char);
      try (intros a Ha; by destruct (host_char_plain a Ha) as (?&?&?&?)).
    by destruct secure. }
  assert (split_scheme ((if secure then "https://" else "http://") +:+ host +:+ rest')
          = (if secure then "https" else "http", "//" +:+ host +:+ rest')) as ->
    by (by destruct secure).
  assert (startswith "//" ("//" +:+ host +:+ rest') = true) as -> by done.
  assert (drop 2 ("//" +:+ host +:+ rest') = host +:+ rest') as -> by done.
  rewrite take_until_app.
  - unfold has_char. rewrite !find_char_absent.
    + simpl. assert (forallb isascii host = true) as ->; [|done].
      eapply forallb_impl; [|exact Hhost]. intros a Ha.
      by destruct (host_char_plain a Ha) as (?&?&?&?&?&?&?&?&?&?&?).
    + apply host_lacks; [|done]. intros a Ha.
      by destruct (host_char_plain a Ha) as (?&?&?&?&?&?&?).
    + apply host_lacks; [|done]. intros a Ha.
      by destruct (host_char_plain a Ha) as (?&?&?&?&?&?).
  - eapply forallb_impl; [|exact Hhost]. intros a Ha.
    destruct (host_char_plain a Ha) as (?&?&?&?&?&?&?&?&Hd&?). by rewrite Hd.
  - destruct rest' as [|c r]; [done|]. simpl in Hrest'.
    by apply bool_decide_eq_true in Hrest' as ->.
Qed.

Lemma hostname_plain sch host :
  host <> "" -> forallb host_char host = true ->
  hostname {| scheme := sch; netloc := host |} = Some host.
Proof.
  intros Hne Hhost. unfold hostname. simpl.
  rewrite rpartition_tail_absent
    by (apply host_lacks; [|done]; intros a Ha;
        by destruct (host_char_plain a Ha) as (?&?&?&?&?)).
  unfold partition.
  rewrite (find_char_absent "[")
    by (apply host_lacks; [|done]; intros a Ha;
        by destruct (host_char_plain a Ha) as (?&?&?&?&?&?)).
  rewrite (find_char_absent ":")
    by (apply host_lacks; [|done]; intros a Ha;
        by destruct (host_char_plain a Ha) as (?&?&?&?&?&?&?&?)).
  simpl. assert (truthy host = true) as -> by (by destruct host).
  rewrite (find_char_absent "%")
    by (apply host_lacks; [|done]; intros a Ha;
        by destruct (host_char_plain a Ha) as (?&?&?&?&?&?&?&?&?)).
  rewrite app_empty_l, app_empty_r. f_equal. apply lower_fixed.
  eapply forallb_impl; [|exact Hhost]. intros a Ha. apply bool_decide_eq_true.
  by destruct (host_char_plain a Ha) as (?&?&?&?&?&?&?&?&?&?&?).
Qed.

(** For a URL in plain form - "https://" or "http://", a host written
    with lower-case letters, digits, dots and hyphens, then nothing or a
    path - the variations are returned, and they are what the comments of
    the method say: the host with its leading "www." removed, or added
    when there is none, and the URL under the other scheme. *)
Theorem variations_of_plain_url f (secure : bool) (host rest : string) :
  host <> "" -> forallb host_char host = true -> path_like rest = true ->
  _generate_url_variations f
    ((if secure then "https://" else "http://") +:+ host +:+ rest) =
  inr [(if secure then "https://" else "http://") +:+
         (if startswith "www." host then drop 4 host else "www." +:+ host) +:+ rest;
       (if secure then "http://" else "https://") +:+ host +:+ rest].
Proof.
  intros Hne Hhost Hrest. unfold _generate_url_variations.
  rewrite urlparse_plain, hostname_plain by done.
  destruct (startswith "www." host) eqn:Hwww.
  - apply startswith_spec in Hwww as [h ->].
    destruct secure.
    + rewrite bool_decide_eq_true_2 by done. done.
    + rewrite bool_decide_eq_false_2 by done. done.
  - destruct secure.
    + rewrite bool_decide_eq_true_2 by done. done.
    + rewrite bool_decide_eq_false_2 by done. done.
Qed.

Lemma variations_of_plain_url_witness :
  _generate_url_variations (fun _ => false) ("https://" +:+ "www.example.com" +:+ "/about") =
  inr ["https://" +:+ "example.com" +:+ "/about"; "http://" +:+ "www.example.com" +:+ "/about"].
Proof.
  apply (variations_of_plain_url (fun _ => false) true "www.example.com" "/about").
  - discriminate.
  - reflexivity.
  - reflexivity.
Defined.
End PlainUrlFacts.

(** ** Technology signatures *)

Section MoreTechFacts.
Import PyStr Extract.

Lemma has_embedded s before part after :
  contains s (lower part) = true ->
  contains s (lower (before +:+ part +:+ after)) = true.
Proof.
  intros (a & b & Hab)%contains_spec. apply contains_spec.
  exists (lower before +:+ a), (b +:+ lower after).
  rewrite !lower_app, Hab. clear.
  induction (lower before) as [|c s' IH]; simpl.
  - rewrite !app_empty_l. induction a as [|c a IH]; simpl.
    + rewrite !app_empty_l. induction s as [|c s IH]; [done|].
      by rewrite !app_cons, IH.
    + by rewrite !app_cons, IH.
  - by rewrite !app_cons, IH.
Qed.

(** Whatever the markup, only names of the registry are reported. *)
Theorem detected_only_from_registry (html name : string) :
  name ∈ _detect_technologies html -> name ∈ technology_registry.
Proof.
  unfold _detect_technologies, detected, technology_registry.
  rewrite elem_of_list_to_set. cbv zeta. intros H.
  repeat (apply append_if_inv in H as [H|[_ ->]];
          [|solve [repeat first [apply list_elem_of_here | apply list_elem_of_further]]]).
  by apply elem_of_nil in H.
Qed.

Lemma detected_only_from_registry_witness :
  "HubSpot" ∈ technology_registry.
Proof.
  apply (detected_only_from_registry "<script src='//js.hs-scripts.com/1.js'></script>").
  apply elem_of_list_to_set. vm_compute. left.
Defined.

(** Markup that is part of a larger document keeps its signatures: what
    is detected in a fragment is detected in every document around it. *)
Theorem detected_in_fragment_detected_in_document (before part after name : string) :
  name ∈ _detect_technologies part ->
  name ∈ _detect_technologies (before +:+ part +:+ after).
Proof.
  unfold _detect_technologies. rewrite !elem_of_list_to_set.
  pose proof (fun s => has_embedded s before part after) as Hlift.
  unfold detected. cbv zeta. intros H.
  repeat (apply append_if_inv in H as [H|[Hc ->]];
          [|repeat match type of Hc with
                   | context [contains ?s (lower part)] =>
                       let E := fresh "E" in
                       destruct (contains s (lower part)) eqn:E;
                       [apply Hlift in E|]
                   end;
            try discriminate Hc;
            repeat first
              [ apply append_if_here;
                repeat match goal with
                       | E : contains _ _ = true |- _ => rewrite E; clear E
                       end;
                by rewrite ?orb_true_r
              | apply append_if_mono ]]).
  by apply elem_of_nil in H.
Qed.

Lemma detected_in_fragment_detected_in_document_witness :
  "Calendly" ∈ _detect_technologies
                 ("<html><body>" +:+ "<a href='https://calendly.com/acme'>Book</a>" +:+
                  "</body></html>").
Proof.
  apply detected_in_fragment_detected_in_document.
  apply elem_of_list_to_set. vm_compute. left.
Defined.
End MoreTechFacts.

(** ** Contact information *)

Section MoreSocialFacts.
Import PyStr Extract.

Lemma platform_of_domain link platform :
  Spec.platform_of link = Some platform ->
  platform ∈ ["linkedin"; "twitter"; "facebook"; "instagram"] /\
  contains (platform +:+ ".com") (lower link) = true.
Proof.
  unfold Spec.platform_of.
  destruct (contains "linkedin.com" (lower link)) eqn:E1;
    [intros [= <-]; split; [set_solver | done]|].
  destruct (contains "twitter.com" (lower link)) eqn:E2;
    [intros [= <-]; split; [set_solver | done]|].
  destruct (contains "facebook.com" (lower link)) eqn:E3;
    [intros [= <-]; split; [set_solver | done]|].
  destruct (contains "instagram.com" (lower link)) eqn:E4;
    [intros [= <-]; split; [set_solver | done]|].
  done.
Qed.

Lemma scan_lookup_last links platform :
  scan_social_links links !! platform =
  last (List.filter (fun link => bool_decide (Spec.platform_of link = Some platform)) links).
Proof.
  unfold scan_social_links. rewrite fold_social_lookup, lookup_empty.
  assert (filter (fun link => Spec.platform_of link = Some platform) links
          = List.filter (fun link => bool_decide (Spec.platform_of link = Some platform)) links)
    as ->.
  { induction links as [|l links IH]; [done|]. rewrite filter_cons. simpl.
    case_decide.
    - rewrite bool_decide_eq_true_2 by done. by rewrite IH.
    - rewrite bool_decide_eq_false_2 by done. done. }
  by destruct (last _).
Qed.

Lemma scan_lookup_filed links platform link :
  scan_social_links links !! platform = Some link ->
  link ∈ links /\ Spec.platform_of link = Some platform.
Proof.
  rewrite scan_lookup_last. intros H%last_Some_elem_of.
  apply list_elem_of_In, List.filter_In in H as [Hin Hp].
  apply bool_decide_eq_true in Hp. split; [by apply list_elem_of_In | done].
Qed.

(** Every link in the social-media dictionary is the [href] of an anchor
    of the page, its key is one of the four platforms, and the platform's
    domain occurs in the lower-cased link. *)
Theorem social_links_come_from_anchors (links : list string) (platform link : string) :
  scan_social_links links !! platform = Some link ->
  link ∈ links /\
  platform ∈ ["linkedin"; "twitter"; "facebook"; "instagram"] /\
  contains (platform +:+ ".com") (lower link) = true.
Proof.
  intros [Hin Hp]%scan_lookup_filed. split; [done|]. by apply platform_of_domain.
Qed.

Lemma social_links_come_from_anchors_witness :
  "https://www.linkedin.com/in/jane-doe" ∈ Sample.two_linkedin_links /\
  "linkedin" ∈ ["linkedin"; "twitter"; "facebook"; "instagram"] /\
  contains ("linkedin" +:+ ".com") (lower "https://www.linkedin.com/in/jane-doe") = true.
Proof.
  apply (social_links_come_from_anchors Sample.two_linkedin_links). by vm_compute.
Defined.

(** An anchor is filed under the first of linkedin, twitter, facebook
    and instagram whose domain occurs in its lower-cased [href], and
    under that platform only.  The contact information has a
    [social_media] entry exactly when some anchor of the page is filed
    under a platform; and then every platform under which an anchor is
    filed has a link, and every link stored under a platform is an
    anchor filed under that platform: a platform that an [href] names
    only after another one gets no link from that anchor. *)
Theorem social_media_present_iff
    (findall_email : string -> list string)
    (findall_phone : string -> list (string * string * string * string))
    (soup : Soup) :
  let info := _extract_contact_information findall_email findall_phone soup in
  (is_Some (social_media info) <->
     exists link, link ∈ find_all_a_href soup /\ Spec.platform_of link <> None) /\
  (forall link platform,
     link ∈ find_all_a_href soup -> Spec.platform_of link = Some platform ->
     exists links, social_media info = Some links /\ is_Some (links !! platform)) /\
  (forall links platform link,
     social_media info = Some links -> links !! platform = Some link ->
     link ∈ find_all_a_href soup /\ Spec.platform_of link = Some platform).
Proof.
  simpl.
  assert (forall link platform,
            link ∈ find_all_a_href soup -> Spec.platform_of link = Some platform ->
            is_Some (scan_social_links (find_all_a_href soup) !! platform)) as Hfiled.
  { intros link platform Hin Hp. rewrite scan_lookup_last. apply last_is_Some.
    intros Hnil.
    assert (In link (List.filter
                       (fun l => bool_decide (Spec.platform_of l = Some platform))
                       (find_all_a_href soup))) as Hf.
    { apply List.filter_In. split; [by apply list_elem_of_In|].
      by apply bool_decide_eq_true. }
    by rewrite Hnil in Hf. }
  split; [split|split].
  - destruct (decide (scan_social_links (find_all_a_href soup) = ∅)) as [Hempty|Hne];
      [by intros [? ?]|].
    intros _. apply map_choose in Hne as (platform & link & Hl).
    apply scan_lookup_filed in Hl as [Hin Hp].
    exists link. split; [done|]. by rewrite Hp.
  - intros (link & Hin & Hp). destruct (Spec.platform_of link) as [platform|] eqn:E; [|done].
    destruct (Hfiled link platform Hin E) as [l Hl].
    destruct (decide (scan_social_links (find_all_a_href soup) = ∅)) as [Hempty|Hne];
      [|done].
    by rewrite Hempty, lookup_empty in Hl.
  - intros link platform Hin Hp. pose proof (Hfiled link platform Hin Hp) as [l Hl].
    destruct (decide (scan_social_links (find_all_a_href soup) = ∅)) as [Hempty|Hne].
    + by rewrite Hempty, lookup_empty in Hl.
    + eexists. split; [done|]. by exists l.
  - intros links platform link.
    destruct (decide (scan_social_links (find_all_a_href soup) = ∅)) as [Hempty|Hne];
      [done|].
    intros [= <-]. apply scan_lookup_filed.
Qed.
End MoreSocialFacts.

(** ** Content sections *)

Section MoreSectionFacts.
Import PyStr Extract.

Lemma len_app s t : len (s +:+ t) = len s + len t.
Proof.
  unfold len. induction s as [|c s IH]; [rewrite app_empty_l; simpl; lia|].
  rewrite app_cons. simpl String.length. lia.
Qed.

Lemma set_section_lookup key found (sections : gmap string string) k text :
  set_section key found sections !! k = Some text ->
  k = key \/ sections !! k = Some text.
Proof.
  destruct found as [t|]; simpl; [|by right].
  rewrite lookup_insert. case_decide; [by left | by right].
Qed.

Lemma collect_sections_keys soup sections key text :
  collect_sections soup = inr sections -> sections !! key = Some text ->
  key ∈ ["hero_section"; "about_section"; "products_services"; "pricing_section";
         "team_section"; "contact_section"].
Proof.
  unfold collect_sections.
  destruct (first_selected soup hero_selectors) as [|hero]; [done|].
  destruct (first_selected soup product_selectors) as [|products]; [done|].
  destruct (first_selected soup pricing_selectors) as [|pricing]; [done|].
  destruct (first_selected_team soup team_selectors) as [|team]; [done|].
  destruct (first_selected soup contact_selectors) as [|contact]; [done|].
  remember (first_selected_guarded soup about_selectors) as about.
  intros [= <-] H.
  repeat (apply set_section_lookup in H as [->|H]; [set_solver|]).
  by rewrite lookup_empty in H.
Qed.

(** The cleaned sections have no key beside the six labels, and every
    excerpt is longer than 20 characters and no longer than 2015: the cap
    of 2000 and the 15 characters of the marker. *)
Theorem content_section_labels_and_lengths (soup : Soup) (cleaned : gmap string string)
    (key excerpt : string) :
  _extract_content_sections soup = inr cleaned ->
  cleaned !! key = Some excerpt ->
  key ∈ ["hero_section"; "about_section"; "products_services"; "pricing_section";
         "team_section"; "contact_section"] /\
  20 < len excerpt <= 2015.
Proof.
  unfold _extract_content_sections.
  destruct (collect_sections soup) as [|sections] eqn:Hc; [done|].
  intros [= <-]. unfold clean_sections. rewrite lookup_omap.
  destruct (sections !! key) as [content|] eqn:E; [|done]. simpl.
  pose proof (collect_sections_stripped _ _ Hc _ _ E) as Hs.
  rewrite clean_section_keeps, Hs.
  destruct (20 <? len content) eqn:Hlen; [|done]. apply Z.ltb_lt in Hlen.
  split; [by eapply collect_sections_keys|].
  unfold section_cap in *. destruct (2000 <? len content) eqn:Hcap.
  - apply Z.ltb_lt in Hcap. injection H as <-.
    rewrite len_app, len_slice_to by lia. unfold truncation_marker.
    change (len "... [truncated]") with 15. lia.
  - apply Z.ltb_ge in Hcap. injection H as <-. lia.
Qed.

Lemma content_section_labels_and_lengths_witness :
  "hero_section" ∈ ["hero_section"; "about_section"; "products_services";
                    "pricing_section"; "team_section"; "contact_section"] /\
  20 < len Sample.text25 <= 2015.
Proof.
  apply (content_section_labels_and_lengths (Sample.hero_page Sample.text25)
           {["hero_section" := Sample.text25]}).
  - by vm_compute.
  - by vm_compute.
Defined.

Lemma collect_sections_hero soup sections :
  collect_sections soup = inr sections ->
  exists hero, first_selected soup hero_selectors = inr hero /\
               sections !! "hero_section" = hero.
Proof.
  unfold collect_sections.
  destruct (first_selected soup hero_selectors) as [|hero]; [done|].
  destruct (first_selected soup product_selectors) as [|products]; [done|].
  destruct (first_selected soup pricing_selectors) as [|pricing]; [done|].
  destruct (first_selected_team soup team_selectors) as [|team]; [done|].
  destruct (first_selected soup contact_selectors) as [|contact]; [done|].
  remember (first_selected_guarded soup about_selectors) as about.
  intros [= <-]. exists hero. split; [done|].
  assert (forall key found (m : gmap string string),
            key <> "hero_section" ->
            set_section key found m !! "hero_section" = m !! "hero_section") as Hother.
  { intros key found m Hne. destruct found; simpl; [|done]. by rewrite lookup_insert_ne. }
  rewrite !Hother by done. destruct hero; simpl; [|done]. by rewrite lookup_insert_eq.
Qed.

Lemma first_selected_first_match soup before selector after text :
  (forall s, s ∈ before -> select_one soup s = inr None) ->
  select_one soup selector = inr (Some text) ->
  first_selected soup (before ++ selector :: after) = inr (Some (strip text)).
Proof.
  intros Hbefore Hsel. induction before as [|s before IH]; simpl.
  - by rewrite Hsel.
  - rewrite (Hbefore s) by set_solver. apply IH. intros s' Hs'. apply Hbefore. set_solver.
Qed.

(** The hero label is decided by the first selector with a match, not by
    the first with enough text: when that match is 20 characters or
    shorter after stripping, the label is left out, whatever the later
    selectors would have matched. *)
Theorem short_first_match_drops_hero (soup : Soup) (before after : list string)
    (selector text : string) (cleaned : gmap string string) :
  hero_selectors = before ++ selector :: after ->
  (forall s, s ∈ before -> select_one soup s = inr None) ->
  select_one soup selector = inr (Some text) ->
  len (strip text) <= 20 ->
  _extract_content_sections soup = inr cleaned ->
  cleaned !! "hero_section" = None.
Proof.
  intros Hsels Hbefore Hsel Hlen. unfold _extract_content_sections.
  destruct (collect_sections soup) as [|sections] eqn:Hc; [done|].
  intros [= <-]. destruct (collect_sections_hero _ _ Hc) as (hero & Hh & Hl).
  rewrite Hsels, (first_selected_first_match _ _ _ _ text) in Hh by done.
  injection Hh as <-.
  unfold clean_sections. rewrite lookup_omap, Hl. simpl.
  rewrite clean_section_keeps, strip_idem.
  by apply Z.ltb_ge in Hlen as ->.
Qed.

Lemma short_first_match_drops_hero_witness :
  (∅ : gmap string string) !! "hero_section" = None.
Proof.
  apply (short_first_match_drops_hero
           {| get_text := "";
              select_one := fun selector =>
                if decide (selector = attr_has "class" "banner")
                then inr (Some "  Welcome!  ")
                else if decide (selector = "main")
                then inr (Some "A long main text that would have qualified.")
                else inr None;
              find_all_a_href := [] |}
           [attr_has "class" "hero"] [attr_has "class" "jumbotron"; "main";
                                      attr_is "role" "main"]
           (attr_has "class" "banner") "  Welcome!  ").
  - reflexivity.
  - intros s Hs. apply list_elem_of_singleton in Hs as ->. reflexivity.
  - reflexivity.
  - vm_compute. discriminate.
  - by vm_compute.
Defined.
End MoreSectionFacts.

(** ** Clean text *)

Section CleanTextFacts.
Import PyStr Text.

Lemma string_ind2 (P : string -> Prop) :
  P EmptyString ->
  (forall c, P (String c EmptyString)) ->
  (forall c c' s, P s -> P (String c' s) -> P (String c (String c' s))) ->
  forall s, P s.
Proof.
  intros H0 H1 H2 s.
  assert (P s /\ forall c, P (String c s)) as [H _]; [|done].
  induction s as [|c' s [IH1 IH2]]; [by split|].
  split; [apply IH2|]. intros c. by apply H2.
Qed.

Lemma forallb_app P s t : forallb P (s +:+ t) = forallb P s && forallb P t.
Proof.
  induction s as [|c s IH]; [done|]. rewrite app_cons. simpl.
  by rewrite IH, andb_assoc.
Qed.

Lemma forallb_take P n s : forallb P s = true -> forallb P (take n s) = true.
Proof.
  revert s. induction n as [|n IH]; intros [|c s]; simpl; try done.
  intros [Hc Hs]%andb_true_iff. by rewrite Hc, IH.
Qed.

Lemma forallb_slice_to P s n : forallb P s = true -> forallb P (slice_to s n) = true.
Proof. unfold slice_to. destruct (n <? 0); apply forallb_take. Qed.

Lemma forallb_lstrip_by P f s : forallb P s = true -> forallb P (lstrip_by f s) = true.
Proof.
  induction s as [|c s IH]; simpl; [done|].
  intros H. destruct (f c); [|done]. apply andb_true_iff in H as [_ H]. by apply IH.
Qed.

Lemma forallb_rstrip_by P f s : forallb P s = true -> forallb P (rstrip_by f s) = true.
Proof.
  induction s as [|c s IH]; simpl; [done|].
  intros [Hc Hs]%andb_true_iff. specialize (IH Hs).
  destruct (rstrip_by f s) as [|b r].
  - destruct (f c); simpl; [done|]. by rewrite Hc.
  - simpl in *. by rewrite Hc.
Qed.

Lemma forallb_strip P s : forallb P s = true -> forallb P (strip s) = true.
Proof. intros H. by apply forallb_rstrip_by, forallb_lstrip_by. Qed.

Lemma Forall_cons_head (Q : string -> Prop) (c : ascii) (l : list string) :
  (forall s, Q s -> Q (String c s)) -> Q (String c EmptyString) ->
  Forall Q l ->
  Forall Q match l with [] => [String c EmptyString] | x :: rest => String c x :: rest end.
Proof.
  intros Hc H1 Hl. destruct Hl as [|x rest Hx Hrest]; constructor; auto.
Qed.

(** No line of [splitlines] has a line boundary in it. *)
Lemma splitlines_no_linebreak s :
  Forall (fun line => forallb (fun c => negb (is_linebreak c)) line = true) (splitlines s).
Proof.
  induction s as [|c|c c' s IH1 IH2] using string_ind2.
  - constructor.
  - simpl. destruct (is_linebreak c) eqn:E; repeat constructor. simpl. by rewrite E.
  - change (splitlines (String c (String c' s))) with
      (if is_linebreak c then
         EmptyString ::
           (if bool_decide (c = "013"%char) && bool_decide (c' = "010"%char)
            then splitlines s else splitlines (String c' s))
       else match splitlines (String c' s) with
            | [] => [String c EmptyString]
            | line :: lines => String c line :: lines
            end).
    destruct (is_linebreak c) eqn:E.
    + constructor; [done|].
      by destruct (bool_decide (c = "013"%char) && bool_decide (c' = "010"%char)).
    + apply Forall_cons_head; [| |done].
      * intros l Hl. simpl. by rewrite E.
      * simpl. by rewrite E.
Qed.

(** The pieces of a split are made of characters of the line. *)
Lemma split_double_space_forallb P s :
  forallb P s = true -> Forall (fun piece => forallb P piece = true) (split_double_space s).
Proof.
  induction s as [|c|c c' s IH1 IH2] using string_ind2; intros H.
  - by repeat constructor.
  - by repeat constructor.
  - change (split_double_space (String c (String c' s))) with
      (if bool_decide (c = " "%char) && bool_decide (c' = " "%char)
       then EmptyString :: split_double_space s
       else match split_double_space (String c' s) with
            | [] => [String c EmptyString]
            | piece :: pieces => String c piece :: pieces
            end).
    simpl in H. apply andb_true_iff in H as [Hc H'].
    apply andb_true_iff in H' as [Hc' Hs].
    destruct (bool_decide (c = " "%char) && bool_decide (c' = " "%char)).
    + constructor; [done|]. by apply IH1.
    + apply Forall_cons_head.
      * intros l Hl. simpl. by rewrite Hc.
      * simpl. by rewrite Hc.
      * apply IH2. simpl. by rewrite Hc', Hs.
Qed.

Lemma forallb_join P sep l :
  forallb P sep = true -> Forall (fun x => forallb P x = true) l ->
  forallb P (join sep l) = true.
Proof.
  intros Hsep Hl. induction Hl as [|x rest Hx Hrest IH]; [done|].
  destruct rest as [|y rest]; [done|].
  change (join sep (x :: y :: rest)) with (x +:+ sep +:+ join sep (y :: rest)).
  by rewrite !forallb_app, Hx, Hsep, IH.
Qed.

Lemma chunks_no_linebreak text :
  Forall (fun chunk => forallb (fun c => negb (is_linebreak c)) chunk = true) (chunks text).
Proof.
  unfold chunks. apply Forall_forall. intros chunk Hin.
  apply list_elem_of_In, List.filter_In in Hin as [Hin _].
  apply List.in_flat_map in Hin as (line & Hline & Hpiece).
  apply list_elem_of_In, list_elem_of_fmap in Hline as (line0 & -> & Hline0).
  apply list_elem_of_In, list_elem_of_fmap in Hpiece as (piece & -> & Hpiece).
  apply forallb_strip.
  pose proof (splitlines_no_linebreak text) as Hl.
  rewrite Forall_forall in Hl. specialize (Hl _ Hline0).
  pose proof (split_double_space_forallb _ _ (forallb_strip _ _ Hl)) as Hp.
  rewrite Forall_forall in Hp. by apply Hp.
Qed.

(** The clean text never contains a line boundary, and it is never
    longer than 50015 characters: the cap of 50000 and the 15 characters
    of the marker. *)
Theorem clean_text_one_line_and_bounded (soup : Soup) :
  forallb (fun c => negb (is_linebreak c)) (_extract_clean_text soup) = true /\
  len (_extract_clean_text soup) <= 50015.
Proof.
  unfold _extract_clean_text, max_text_length.
  assert (forallb (fun c => negb (is_linebreak c)) (join " " (chunks (get_text soup)))
          = true) as Hjoin by (apply forallb_join; [done | apply chunks_no_linebreak]).
  destruct (50000 <? len (join " " (chunks (get_text soup)))) eqn:E.
  - apply Z.ltb_lt in E. split.
    + rewrite forallb_app, forallb_slice_to by done. done.
    + rewrite len_app, len_slice_to by lia. change (len "... [truncated]") with 15. lia.
  - apply Z.ltb_ge in E. split; [done | lia].
Qed.
End CleanTextFacts.

(** ** Navigation labels *)

Section NavigationFacts.
Import PyStr Nav.

(** Every navigation label is a stripped link text of 1 to 49
    characters. *)
Theorem navigation_labels_short_and_stripped
    (select_links : string -> result (option (list string)))
    (labels : gset string) (label : string) :
  _extract_navigation_structure select_links = inr labels ->
  label ∈ labels ->
  0 < len label < 50 /\ strip label = label.
Proof.
  unfold _extract_navigation_structure.
  destruct (first_container select_links nav_selectors) as [e|[links|]]; [done| |].
  - intros [= <-]. rewrite elem_of_list_to_set.
    intros [Hin Hitem]%list_elem_of_In%List.filter_In.
    apply list_elem_of_In, list_elem_of_fmap in Hin as (text & -> & _).
    unfold nav_item in Hitem. apply andb_true_iff in Hitem as [Ht Hlen].
    apply Z.ltb_lt in Hlen. split; [|apply strip_idem].
    split; [|done]. unfold len. by destruct (strip text).
  - intros [= <-]. set_solver.
Qed.

Lemma navigation_labels_short_and_stripped_witness :
  0 < len "Pricing" < 50 /\ strip "Pricing" = "Pricing".
Proof.
  apply (navigation_labels_short_and_stripped
           (fun selector => if decide (selector = "nav")
                            then inr (Some ["  Pricing "; ""; "About us"])
                            else inr None)
           {["Pricing"; "About us"]}).
  - by vm_compute.
  - set_solver.
Defined.
End NavigationFacts.

(** ** JSON-LD blocks *)

Section JsonLdFacts.
Import Dom.
Variable loads : string -> result Json.

Lemma load_blocks_app blocks blocks' acc :
  load_blocks loads (blocks ++ blocks') acc =
  match load_blocks loads blocks acc with
  | inl e => inl e
  | inr acc' => load_blocks loads blocks' acc'
  end.
Proof.
  revert acc. induction blocks as [|[source|] blocks IH]; intros acc; simpl; [done| |done].
  destruct (loads source) as [e|data]; [|done]. by destruct (skipped e).
Qed.

(** A block without a string, or one on which [json.loads] raises a
    [JSONDecodeError] or a [TypeError], changes nothing: the result is
    the same as without the block, wherever it stands. *)
Theorem bad_json_ld_block_is_skipped (before after : list (option string))
    (bad : option string) (acc : list Json) :
  match bad with
  | None => True
  | Some source => exists e, loads source = inl e /\ skipped e = true
  end ->
  load_blocks loads (before ++ bad :: after) acc = load_blocks loads (before ++ after) acc.
Proof.
  intros Hbad. rewrite !load_blocks_app.
  destruct (load_blocks loads before acc) as [e|acc']; [done|]. simpl.
  destruct bad as [source|]; [|done]. destruct Hbad as (e & -> & ->). done.
Qed.

Lemma below_flat_map {A} (f : Node -> list A) (l : list Node) :
  (fix below (l : list Node) : list A :=
     match l with
     | [] => []
     | c :: l' => f c ++ below l'
     end) l = flat_map f l.
Proof. induction l as [|c l IH]; [done|]. simpl. by rewrite IH. Qed.

Lemma find_all_in_app test l l' :
  find_all_in test (l ++ l') = find_all_in test l ++ find_all_in test l'.
Proof. apply List.flat_map_app. Qed.

Lemma find_all_in_flat_map test (f : Node -> list Node) (l : list Node) :
  Forall (fun c => find_all_in test (f c) = []) l ->
  find_all_in test (flat_map f l) = [].
Proof.
  induction 1 as [|c l Hc Hl IH]; [done|]. simpl.
  by rewrite find_all_in_app, Hc, IH.
Qed.

Lemma find_all_elem test name attrs children :
  find_all test (NElem name attrs children) =
  (if test name attrs then [NElem name attrs children] else []) ++
  find_all_in test children.
Proof. simpl. by rewrite below_flat_map. Qed.

Lemma find_all_in_singleton test n : find_all_in test [n] = find_all test n.
Proof. unfold find_all_in. simpl. apply app_nil_r. Qed.

Lemma decompose_all_elem names name attrs children :
  decompose_all names (NElem name attrs children) =
  if bool_decide (name ∈ names) then []
  else [NElem name attrs (flat_map (decompose_all names) children)].
Proof. simpl. by rewrite below_flat_map. Qed.

Lemma extract_comments_elem name attrs children :
  extract_comments (NElem name attrs children) =
  [NElem name attrs (flat_map extract_comments children)].
Proof. simpl. by rewrite below_flat_map. Qed.

(** Nothing named in [names] is found after [decompose_all names]. *)
Lemma find_all_decomposed names test n :
  (forall name attrs, test name attrs = true -> name ∈ names) ->
  find_all_in test (decompose_all names n) = [].
Proof.
  intros Htest. induction n as [s|s|name attrs children IH] using Node_induction; [done..|].
  rewrite decompose_all_elem. case_bool_decide as Hname; [done|].
  rewrite find_all_in_singleton, find_all_elem.
  destruct (test name attrs) eqn:E; [by apply Htest in E|]. simpl.
  by apply find_all_in_flat_map.
Qed.

Lemma find_all_in_nil_Forall test l :
  find_all_in test l = [] -> Forall (fun c => find_all test c = []) l.
Proof.
  induction l as [|c l IH]; [by constructor|]. unfold find_all_in. simpl.
  intros [Hc Hl]%app_eq_nil. constructor; [done|]. by apply IH.
Qed.

(** Extracting the comments brings no element back. *)
Lemma find_all_without_comments test n :
  find_all test n = [] -> find_all_in test (extract_comments n) = [].
Proof.
  induction n as [s|s|name attrs children IH] using Node_induction; [done..|].
  rewrite extract_comments_elem, find_all_in_singleton, !find_all_elem.
  intros [Htest Hbelow]%app_eq_nil.
  destruct (test name attrs); [done|]. simpl.
  apply find_all_in_flat_map.
  apply find_all_in_nil_Forall in Hbelow.
  rewrite Forall_forall in IH, Hbelow. apply Forall_forall. intros c Hc.
  by apply IH, Hbelow.
Qed.

Lemma find_all_in_removed test page :
  (forall name attrs, test name attrs = true -> name ∈ unwanted) ->
  find_all_in test (remove_unwanted page) = [].
Proof.
  intros Htest. unfold remove_unwanted. apply find_all_in_flat_map.
  apply Forall_forall. intros n Hn. apply find_all_without_comments.
  assert (find_all_in test (flat_map (decompose_all unwanted) page) = []) as Hnone.
  { apply find_all_in_flat_map, Forall_forall. intros c _.
    by apply find_all_decomposed. }
  apply find_all_in_nil_Forall in Hnone. rewrite Forall_forall in Hnone. by apply Hnone.
Qed.

(** On the page as [_extract_structured_data] hands it on, with the
    script elements decomposed in lines 290-292, [_extract_json_ld]
    finds no block: the structured data is always empty. *)
Theorem json_ld_empty_after_cleanup (page : list Node) :
  _extract_json_ld loads (remove_unwanted page) = inr [].
Proof.
  unfold _extract_json_ld. rewrite find_all_in_removed; [done|].
  intros name attrs [Hname _]%andb_true_iff.
  apply bool_decide_eq_true in Hname as ->. set_solver.
Qed.
End JsonLdFacts.

Lemma bad_json_ld_block_is_skipped_witness :
  Dom.load_blocks (fun source => if decide (source = "{}") then inr (JObject [])
                                 else inl (OtherException "JSONDecodeError" "Expecting value"))
    ([Some "{}"] ++ Some "{oops" :: [Some "{}"]) [] =
  Dom.load_blocks (fun source => if decide (source = "{}") then inr (JObject [])
                                 else inl (OtherException "JSONDecodeError" "Expecting value"))
    ([Some "{}"] ++ [Some "{}"]) [].
Proof.
  apply bad_json_ld_block_is_skipped. eexists. split; reflexivity.
Defined.

(** ** The browser strategy *)

Section PlaywrightFacts.
Import PyStr Fetch.

(** Once the browser is launched it is closed, on every path: the trace
    of the call is the launch, at most one truncation warning, and the
    close.  When the launch itself raises, there is nothing to close. *)
Theorem playwright_browser_always_closed (cfg : Config) (url : string)
    (b : BrowserScript) :
  match launch_raises b with
  | Some e => _scrape_with_playwright cfg url b = ([Launch url], inl e)
  | None =>
      exists logs,
        (logs = [] \/ exists warning, logs = [Log WARNING warning]) /\
        events (_scrape_with_playwright cfg url b) = Launch url :: logs ++ [Close]
  end.
Proof.
  unfold _scrape_with_playwright.
  destruct b as [launch new_page goto1 goto2 wait content ttl close]. simpl.
  destruct launch as [e|]; [done|].
  unfold truncate_content, try_finally, try_except, bind, tell, raise_if, lift, ret, raise,
    events.
  destruct new_page; simpl; [destruct close; exists []; eauto|].
  destruct goto1 as [e1|]; simpl.
  - destruct (is_playwright_timeout e1); simpl; [|destruct close; exists []; eauto].
    destruct goto2; simpl; [destruct close; exists []; eauto|].
    destruct wait; simpl; [destruct close; exists []; eauto|].
    destruct content as [|html]; simpl; [destruct close; exists []; eauto|].
    destruct (max_content_length cfg <? len html); simpl;
      destruct ttl, close; simpl; eexists; eauto.
  - destruct wait; simpl; [destruct close; exists []; eauto|].
    destruct content as [|html]; simpl; [destruct close; exists []; eauto|].
    destruct (max_content_length cfg <? len html); simpl;
      destruct ttl, close; simpl; eexists; eauto.
Qed.


End PlaywrightFacts.

(** ** What a strategy returns *)

Section StrategyResults.
Import PyStr Fetch.

Lemma outcome_bind_inr {A B} (m : M A) (f : A -> M B) v :
  outcome (bind m f) = inr v -> exists a, outcome m = inr a /\ outcome (f a) = inr v.
Proof.
  destruct m as [evs [e|a]]; [done|]. unfold bind. intros H. exists a. split; [done|].
  by destruct (f a).
Qed.

Lemma outcome_try_finally_inr {A} (m : M A) (f : M unit) v :
  outcome (try_finally m f) = inr v -> outcome m = inr v.
Proof. destruct m as [evs r], f as [evs' [e|u]]; [done|]. by intros <-. Qed.

Lemma truncate_content_bounded cfg html0 html :
  outcome (truncate_content cfg html0) = inr html ->
  0 <= max_content_length cfg -> len html <= max_content_length cfg.
Proof.
  unfold truncate_content. destruct (max_content_length cfg <? len html0) eqn:E.
  - intros [= <-] H. rewrite len_slice_to by done. lia.
  - apply Z.ltb_ge in E. by intros [= <-].
Qed.

Lemma aiohttp_attempt_bounded cfg url served html info :
  outcome (aiohttp_attempt cfg url served) = inr (html, info) ->
  (0 <= max_content_length cfg -> len html <= max_content_length cfg) /\
  content_length info = len html /\ status_code info = Some 200.
Proof.
  unfold aiohttp_attempt.
  intros (_ & _ & (response & _ & H)%outcome_bind_inr)%outcome_bind_inr.
  case_bool_decide as Hs; [|done]. simpl in H.
  apply outcome_bind_inr in H as (html' & Ht & H). injection H as <- <-.
  split; [by eapply truncate_content_bounded|]. by rewrite Hs.
Qed.

Lemma retry_outcome_inr {A} (fn : nat -> M A) v :
  outcome (retry fn) = inr v -> exists n, outcome (fn n) = inr v.
Proof.
  unfold retry. simpl.
  destruct (fn 1%nat) as [evs1 [e1|v1]] eqn:E1; [|intros <-; exists 1%nat; by rewrite E1].
  destruct (retry_if_exception_type e1); simpl; [|done].
  destruct (fn 2%nat) as [evs2 [e2|v2]] eqn:E2; [|intros <-; exists 2%nat; by rewrite E2].
  destruct (retry_if_exception_type e2); simpl; [|done].
  destruct (fn 3%nat) as [evs3 [e3|v3]] eqn:E3; [|intros <-; exists 3%nat; by rewrite E3].
  by destruct (retry_if_exception_type e3).
Qed.

Lemma aiohttp_strategy_bounded cfg url served html info :
  outcome (_scrape_with_aiohttp cfg url served) = inr (html, info) ->
  (0 <= max_content_length cfg -> len html <= max_content_length cfg) /\
  content_length info = len html.
Proof.
  intros [n H]%retry_outcome_inr.
  by apply aiohttp_attempt_bounded in H as (? & ? & _).
Qed.

Lemma playwright_strategy_bounded cfg url b html info :
  outcome (_scrape_with_playwright cfg url b) = inr (html, info) ->
  (0 <= max_content_length cfg -> len html <= max_content_length cfg) /\
  content_length info = len html.
Proof.
  unfold _scrape_with_playwright. intros H.
  apply outcome_bind_inr in H as (_ & _ & H).
  apply outcome_bind_inr in H as (_ & _ & H).
  apply outcome_try_finally_inr in H.
  apply outcome_bind_inr in H as (_ & _ & H).
  apply outcome_bind_inr in H as (_ & _ & H).
  apply outcome_bind_inr in H as (_ & _ & H).
  apply outcome_bind_inr in H as (html0 & _ & H).
  apply outcome_bind_inr in H as (html1 & Ht & H).
  apply outcome_bind_inr in H as (ttl & _ & H).
  injection H as <- <-. split; [by eapply truncate_content_bounded | done].
Qed.

(** Markup that a strategy returns is never longer than the configured
    maximum (when that is not negative), and the length the strategy
    reports beside it is the length of the markup. *)
Theorem returned_markup_within_maximum (cfg : Config) (url : string)
    (served : nat -> result Response) (b : BrowserScript) (html : string)
    (info : FetchInfo) :
  outcome (_scrape_with_aiohttp cfg url served) = inr (html, info) \/
  outcome (_scrape_with_playwright cfg url b) = inr (html, info) ->
  (0 <= max_content_length cfg -> len html <= max_content_length cfg) /\
  content_length info = len html.
Proof.
  intros [H|H]; [by eapply aiohttp_strategy_bounded | by eapply playwright_strategy_bounded].
Qed.

Lemma returned_markup_within_maximum_witness :
  (0 <= 4 -> len "<htm" <= 4) /\ 4 = len "<htm".
Proof.
  apply (returned_markup_within_maximum
           {| timeout := 30; max_content_length := 4; max_retries := 3; retry_delay := 2 |}
           "https://a.io" (fun _ => inr (Sample.response_ok "<html>"))
           Sample.stalled_browser "<htm"
           {| method := "aiohttp"; status_code := Some 200; content_length := 4;
              info_content_type := Some "text/html"; page_title := None |}).
  left. reflexivity.
Defined.
End StrategyResults.

(** ** The session record *)

Section RecordFacts.
Import PyStr Models Scraper Inv.
Variable cfg : Config.
Variable w : World.

#[local] Arguments aiohttp_call : simpl never.
#[local] Arguments playwright_call : simpl never.

Lemma method1_keeps L n :
  content_ok cfg L -> record_ok n L ->
  content_ok cfg (method1 cfg w L) /\ record_ok (S n) (method1 cfg w L).
Proof.
  intros Hc (H1 & H2 & H3 & H4 & H5). unfold method1. simpl.
  destruct (outcome (aiohttp_call cfg w 0 (normalized_url L))) as [e|[html info]] eqn:E.
  - split; [done|]. unfold record_ok. simpl. rewrite length_app. simpl.
    repeat split; try done. lia.
  - split.
    + unfold content_ok. simpl. split; [exists "aiohttp"; split; [done | repeat first [apply list_elem_of_here | apply list_elem_of_further]]|].
      by apply aiohttp_strategy_bounded in E as [? _].
    + unfold record_ok. simpl. repeat split; try done. lia.
Qed.

Lemma method2_keeps L n :
  content_ok cfg L -> record_ok n L ->
  content_ok cfg (method2 cfg w L) /\ record_ok (S n) (method2 cfg w L).
Proof.
  intros Hc (H1 & H2 & H3 & H4 & H5). unfold method2.
  destruct (no_content L); [|split; [done|]; repeat split; try done; lia]. simpl.
  destruct (outcome (playwright_call cfg w (normalized_url L))) as [e|[html info]] eqn:E.
  - split; [done|]. unfold record_ok. simpl. rewrite length_app. simpl.
    repeat split; try done. lia.
  - split.
    + unfold content_ok. simpl. split; [exists "playwright"; split; [done | repeat first [apply list_elem_of_here | apply list_elem_of_further]]|].
      by apply playwright_strategy_bounded in E as [? _].
    + unfold record_ok. simpl. repeat split; try done. lia.
Qed.

Lemma try_variations_keeps variations k L n :
  content_ok cfg L -> record_ok n L ->
  content_ok cfg (try_variations cfg w k variations L) /\
  record_ok n (try_variations cfg w k variations L).
Proof.
  revert k L. induction variations as [|v variations IH]; intros k L Hc Hr; simpl; [done|].
  destruct (outcome (aiohttp_call cfg w k v)) as [e|[html info]] eqn:E.
  - by apply IH.
  - split; [|done].
    unfold content_ok. simpl.
    split; [exists "aiohttp_variation"; split; [done | repeat first [apply list_elem_of_here | apply list_elem_of_further]]|].
    by apply aiohttp_strategy_bounded in E as [? _].
Qed.

Lemma method3_keeps L n :
  content_ok cfg L -> record_ok n L ->
  content_ok cfg (method3 cfg w L).1 /\ record_ok n (method3 cfg w L).1.
Proof.
  intros Hc Hr. unfold method3. destruct (no_content L); [|done].
  destruct (Url._generate_url_variations _ _) as [e|variations]; simpl; [done|].
  by apply try_variations_keeps.
Qed.

Lemma try_block_keeps L n :
  content_ok cfg L -> record_ok n L ->
  content_ok cfg (try_block cfg w L).1 /\ record_ok (S (S n)) (try_block cfg w L).1 /\
  (forall d, (try_block cfg w L).2 = inr d ->
     exists html, html_content (try_block cfg w L).1 = Some html /\ html <> "").
Proof.
  intros Hc Hr. unfold try_block.
  destruct (method1_keeps L n Hc Hr) as [Hc1 Hr1].
  destruct (method2_keeps _ _ Hc1 Hr1) as [Hc2 Hr2].
  destruct (method3_keeps _ _ Hc2 Hr2) as [Hc3 Hr3].
  destruct (method3 cfg w (method2 cfg w (method1 cfg w L))) as [L3 [e|]]; simpl in *;
    [done|].
  destruct (html_content L3) as [html|] eqn:Eh; [|done].
  destruct (truthy html) eqn:Et; simpl; [|by rewrite Eh].
  split; [unfold content_ok in *; simpl; by rewrite Eh in *|]. split; [done|].
  intros d _. rewrite Eh. exists html. split; [done|]. by destruct html.
Qed.

(** The record that [scrape_website] returns is one of two kinds.  On
    success the method is one of "aiohttp", "playwright" and
    "aiohttp_variation", the content length is positive and at most the
    configured maximum (when that is not negative), and at most two
    errors are listed.  On failure the method is "unknown", the content
    length is 0 and there are at most three errors: failed variations
    leave no entry.  No warning is ever recorded. *)
Theorem session_record_of_two_kinds (input : string) (doc : Doc)
    (meta : ScrapingMetadata) :
  outcome (scrape_website cfg w input) = inr (doc, meta) ->
  warnings meta = [] /\
  if scraping_success meta then
    Models.scraping_method meta ∈ ["aiohttp"; "playwright"; "aiohttp_variation"] /\
    0 < Models.content_length meta /\
    (0 <= max_content_length cfg -> Models.content_length meta <= max_content_length cfg) /\
    (length (errors_encountered meta) <= 2)%nat
  else
    Models.scraping_method meta = "unknown" /\
    Models.content_length meta = 0 /\
    (length (errors_encountered meta) <= 3)%nat.
Proof.
  unfold scrape_website.
  match goal with
  | |- context [try_block cfg w ?L0] =>
      destruct (try_block_keeps L0 0) as (Hc & (H1 & H2 & H3 & H4 & H5) & Hd);
        [done | by repeat split |];
      destruct (try_block cfg w L0) as [L [e|d]]
  end; simpl in *.
  - intros [= <- <-]. simpl. rewrite length_app. simpl. repeat split; try done. lia.
  - intros [= <- <-]. simpl. destruct (Hd d eq_refl) as (html & Eh & Hne).
    unfold content_ok in Hc. rewrite Eh in Hc. destruct Hc as [(label & -> & Hl) Hmax].
    rewrite Eh. simpl. repeat split; try done.
    unfold len. destruct html; [done|]. simpl. lia.
Qed.
End RecordFacts.

Lemma session_record_of_two_kinds_witness :
  exists (doc : Doc) (meta : Models.ScrapingMetadata),
    outcome (Scraper.scrape_website default_config Sample.www_only_world "example.com")
      = inr (doc, meta) /\
    Models.warnings meta = [] /\
    Models.scraping_method meta ∈ ["aiohttp"; "playwright"; "aiohttp_variation"] /\
    0 < Models.content_length meta.
Proof.
  eexists _, _.
  assert (outcome (Scraper.scrape_website default_config Sample.www_only_world
                     "example.com") = inr (_, _)) as Ho by (vm_compute; reflexivity).
  split; [exact Ho|].
  destruct (session_record_of_two_kinds _ _ _ _ _ Ho) as [Hw (Hm & Hl & _)].
  split; [exact Hw|]. split; [exact Hm | exact Hl].
Defined.

(** ** The URL and the traffic of a call *)

Section TrafficFacts.
Import PyStr Models Scraper.
Variable cfg : Config.
Variable w : World.

#[local] Arguments aiohttp_call : simpl never.
#[local] Arguments playwright_call : simpl never.

Lemma try_variations_url variations k L :
  normalized_url (try_variations cfg w k variations L) = normalized_url L \/
  normalized_url (try_variations cfg w k variations L) ∈ variations.
Proof.
  revert k L. induction variations as [|v variations IH]; intros k L; simpl; [by left|].
  destruct (outcome (aiohttp_call cfg w k v)) as [e|[html info]].
  - destruct (IH (S k) (log DEBUG [FTxt "URL variation "; FTxt v; FTxt " failed: "; FErr e]
                          (emit (events (aiohttp_call cfg w k v))
                             (log INFO [FTxt "Trying URL variation: "; FTxt v] L))))
      as [->|Hin]; [by left | right; by apply list_elem_of_further].
  - right. simpl. apply list_elem_of_here.
Qed.

Lemma try_block_url L :
  let L' := (try_block cfg w L).1 in
  (normalized_url L' = normalized_url L \/
   exists variations,
     Url._generate_url_variations (netloc_ok w) (normalized_url L) = inr variations /\
     normalized_url L' ∈ variations) /\
  (forall d, (try_block cfg w L).2 = inr d -> url d = normalized_url L').
Proof.
  unfold try_block.
  assert (normalized_url (method2 cfg w (method1 cfg w L)) = normalized_url L) as Hu.
  { unfold method2, method1. simpl.
    destruct (outcome (aiohttp_call cfg w 0 (normalized_url L))) as [e|[html info]];
      simpl; destruct (no_content _); simpl; try done;
      by destruct (outcome (playwright_call cfg w (normalized_url L))) as [e'|[html' info']]. }
  assert (let L3 := (method3 cfg w (method2 cfg w (method1 cfg w L))).1 in
          normalized_url L3 = normalized_url L \/
          exists variations,
            Url._generate_url_variations (netloc_ok w) (normalized_url L) = inr variations /\
            normalized_url L3 ∈ variations) as H3.
  { unfold method3. destruct (no_content _); [|by left]. simpl. rewrite Hu.
    destruct (Url._generate_url_variations _ _) as [e|variations] eqn:Ev; simpl;
      [by left|].
    match goal with
    | |- context [try_variations cfg w 1 variations ?L2] =>
        destruct (try_variations_url variations 1 L2) as [->|Hin]
    end.
    - left. simpl. exact Hu.
    - right. by exists variations. }
  destruct (method3 cfg w (method2 cfg w (method1 cfg w L))) as [L3 [e|]]; simpl in *;
    [done|].
  destruct (html_content L3) as [html|]; [|done].
  destruct (truthy html); simpl; [|done].
  split; [done|]. intros d Hd. by apply extract_sets_url in Hd.
Qed.

(** The URL of the returned document, on success and on failure alike,
    is the normalized input or one of its variations. *)
Theorem returned_url_is_input_or_variation (input : string) (doc : Doc)
    (meta : ScrapingMetadata) :
  outcome (scrape_website cfg w input) = inr (doc, meta) ->
  url doc = Url._normalize_url input \/
  exists variations,
    Url._generate_url_variations (netloc_ok w) (Url._normalize_url input) = inr variations /\
    url doc ∈ variations.
Proof.
  unfold scrape_website.
  match goal with
  | |- context [try_block cfg w ?L0] =>
      destruct (try_block_url L0) as [Hu Hd];
      destruct (try_block cfg w L0) as [L [e|d]]
  end; simpl in *.
  - by intros [= <- _].
  - intros [= <- _]. by rewrite (Hd d eq_refl).
Qed.
End TrafficFacts.

Lemma returned_url_is_input_or_variation_witness :
  exists (doc : Doc) (meta : Models.ScrapingMetadata),
    outcome (Scraper.scrape_website default_config Sample.www_only_world "example.com")
      = inr (doc, meta) /\
    (url doc = Url._normalize_url "example.com" \/
     exists variations,
       Url._generate_url_variations (netloc_ok Sample.www_only_world)
         (Url._normalize_url "example.com") = inr variations /\
       url doc ∈ variations).
Proof.
  eexists _, _.
  assert (outcome (Scraper.scrape_website default_config Sample.www_only_world
                     "example.com") = inr (_, _)) as Ho by (vm_compute; reflexivity).
  split; [exact Ho|].
  exact (returned_url_is_input_or_variation _ _ _ _ _ Ho).
Defined.

Section TrafficBounds.
Import PyStr Models Scraper.
Variable cfg : Config.
Variable w : World.

#[local] Arguments aiohttp_call : simpl never.
#[local] Arguments playwright_call : simpl never.
#[local] Arguments count : simpl never.

Lemma count_app test a b : count test (a ++ b) = (count test a + count test b)%nat.
Proof. unfold count. by rewrite List.filter_app, length_app. Qed.

Lemma count_le_attempts test evs :
  (forall ev, test ev = true -> is_attempt ev = true) ->
  (count test evs <= attempts evs)%nat.
Proof.
  intros Himp. unfold count, attempts. induction evs as [|ev evs IH]; simpl; [done|].
  destruct (test ev) eqn:E.
  - rewrite (Himp _ E). simpl. lia.
  - destruct (is_attempt ev); simpl; lia.
Qed.

Lemma count_log test level message :
  (forall level message, test (Log level message) = false) ->
  count test [Log level message] = 0%nat.
Proof. intros Hlog. unfold count. simpl. by rewrite Hlog. Qed.

Lemma retry_count {A} test (fn : nat -> M A) m :
  (forall s, test (Sleep s) = false) ->
  (forall n, (count test (events (fn n)) <= m)%nat) ->
  (count test (events (Fetch.retry fn)) <= 3 * m)%nat.
Proof.
  intros Hsleep Hfn. unfold Fetch.retry. simpl.
  pose proof (Hfn 1%nat) as H1. pose proof (Hfn 2%nat) as H2. pose proof (Hfn 3%nat) as H3.
  assert (forall s evs, count test (Sleep s :: evs) = count test evs) as Hs.
  { intros s evs. unfold count. simpl. by rewrite Hsleep. }
  destruct (fn 1%nat) as [evs1 [e1|v1]]; simpl in *; [|lia].
  destruct (Fetch.retry_if_exception_type e1); simpl; [|lia].
  destruct (fn 2%nat) as [evs2 [e2|v2]]; simpl in *;
    [|rewrite count_app, Hs; lia].
  destruct (Fetch.retry_if_exception_type e2); simpl;
    [|rewrite count_app, Hs; lia].
  destruct (fn 3%nat) as [evs3 [e3|v3]]; simpl in *;
    [destruct (Fetch.retry_if_exception_type e3)|]; simpl;
    rewrite count_app, Hs, count_app, Hs; lia.
Qed.

Lemma aiohttp_attempt_counts url served :
  count is_get (events (Fetch.aiohttp_attempt cfg url served)) = 1%nat /\
  count is_launch (events (Fetch.aiohttp_attempt cfg url served)) = 0%nat.
Proof.
  unfold Fetch.aiohttp_attempt, Fetch.truncate_content.
  destruct served as [e|response]; simpl; [done|].
  destruct (bool_decide (status response = 200)); simpl; [|done].
  by destruct (max_content_length cfg <? len (text response)).
Qed.

Lemma aiohttp_call_counts k u :
  (count is_get (events (aiohttp_call cfg w k u)) <= 3)%nat /\
  count is_launch (events (aiohttp_call cfg w k u)) = 0%nat.
Proof.
  unfold aiohttp_call, Fetch._scrape_with_aiohttp. split.
  - apply (retry_count is_get _ 1); [done|]. intros n.
    by destruct (aiohttp_attempt_counts u (http_get w k n u)) as [-> _].
  - apply Nat.le_0_r. apply (retry_count is_launch _ 0); [done|]. intros n.
    by destruct (aiohttp_attempt_counts u (http_get w k n u)) as [_ ->].
Qed.

Lemma playwright_call_counts u :
  count is_get (events (playwright_call cfg w u)) = 0%nat /\
  count is_launch (events (playwright_call cfg w u)) = 1%nat.
Proof.
  destruct (playwright_call_starts_with_launch cfg w u) as [rest Hrest].
  destruct (playwright_events cfg u (browser w u)) as [Ha _].
  fold (playwright_call cfg w u) in Ha. rewrite Hrest in *.
  unfold attempts in Ha. simpl in Ha. injection Ha as Ha.
  assert (count is_get rest <= 0 /\ count is_launch rest <= 0)%nat as [H1 H2].
  { split; (etrans; [apply count_le_attempts|unfold attempts; by rewrite Ha]);
      by intros []. }
  unfold count in *. simpl. lia.
Qed.

Lemma method1_count test L :
  (forall level message, test (Log level message) = false) ->
  count test (trace (method1 cfg w L)) =
  (count test (trace L) + count test (events (aiohttp_call cfg w 0 (normalized_url L))))%nat.
Proof.
  intros Hlog. unfold method1. simpl.
  destruct (outcome (aiohttp_call cfg w 0 (normalized_url L))) as [e|[html info]]; simpl;
    rewrite !count_app, !count_log by done; lia.
Qed.

Lemma method2_count test L :
  (forall level message, test (Log level message) = false) ->
  count test (trace (method2 cfg w L)) =
  (count test (trace L) +
   if no_content L then count test (events (playwright_call cfg w (normalized_url L)))
   else 0)%nat.
Proof.
  intros Hlog. unfold method2. destruct (no_content L); [|lia]. simpl.
  destruct (outcome (playwright_call cfg w (normalized_url L))) as [e|[html info]]; simpl;
    rewrite !count_app, !count_log by done; lia.
Qed.

Lemma try_variations_count test variations k L m :
  (forall level message, test (Log level message) = false) ->
  (forall k u, (count test (events (aiohttp_call cfg w k u)) <= m)%nat) ->
  (count test (trace (try_variations cfg w k variations L))
   <= count test (trace L) + length variations * m)%nat.
Proof.
  intros Hlog Hcall. revert k L.
  induction variations as [|v variations IH]; intros k L; simpl; [lia|].
  pose proof (Hcall k v) as Hv.
  destruct (outcome (aiohttp_call cfg w k v)) as [e|[html info]].
  - etrans; [apply IH|]. simpl. rewrite !count_app, !count_log by done. lia.
  - simpl. rewrite !count_app, !count_log by done. lia.
Qed.

Lemma method3_count test L m :
  (forall level message, test (Log level message) = false) ->
  (forall k u, (count test (events (aiohttp_call cfg w k u)) <= m)%nat) ->
  (count test (trace (method3 cfg w L).1) <=
   count test (trace L) + if no_content L then 2 * m else 0)%nat.
Proof.
  intros Hlog Hcall. unfold method3. destruct (no_content L); [|simpl; lia].
  destruct (Url._generate_url_variations _ _) as [e|variations] eqn:Ev; simpl.
  - rewrite count_app, count_log by done. lia.
  - apply variations_length in Ev.
    etrans; [by apply try_variations_count|]. simpl.
    rewrite Ev, count_app, count_log by done. lia.
Qed.

Lemma scrape_website_count test input :
  (forall level message, test (Log level message) = false) ->
  count test (events (scrape_website cfg w input)) =
  count test
    (trace (method3 cfg w
              (method2 cfg w
                 (method1 cfg w
                    (log INFO [FTxt "Starting intelligent scraping for: ";
                               FTxt (Url._normalize_url input)]
                       (initial_locals (Url._normalize_url input)
                          {| Models.scraping_method := "unknown";
                             scraping_success := false;
                             content_length := 0; errors_encountered := [];
                             warnings := [] |}))))).1).
Proof.
  intros Hlog. unfold scrape_website. cbv zeta. unfold try_block.
  destruct (method3 cfg w _) as [L3 [e|]]; simpl.
  - rewrite count_app, count_log by done. lia.
  - destruct (html_content L3) as [html|]; [destruct (truthy html)|]; simpl;
      [destruct (_extract_structured_data w html _); simpl| |];
      rewrite !count_app, !count_log by done; lia.
Qed.

Lemma try_block_counts L :
  html_content L = None ->
  (count is_launch (trace (method3 cfg w (method2 cfg w (method1 cfg w L))).1)
   <= count is_launch (trace L) + 1)%nat /\
  (count is_get (trace (method3 cfg w (method2 cfg w (method1 cfg w L))).1)
   <= count is_get (trace L) + 9)%nat /\
  (forall html info,
     outcome (aiohttp_call cfg w 0 (normalized_url L)) = inr (html, info) ->
     html <> "" ->
     count is_launch (trace (method3 cfg w (method2 cfg w (method1 cfg w L))).1)
       = count is_launch (trace L) /\
     (count is_get (trace (method3 cfg w (method2 cfg w (method1 cfg w L))).1)
      <= count is_get (trace L) + 3)%nat).
Proof.
  intros Hnone.
  assert (normalized_url (method1 cfg w L) = normalized_url L) as Hu.
  { unfold method1. simpl.
    by destruct (outcome (aiohttp_call cfg w 0 (normalized_url L))) as [e|[html info]]. }
  pose proof (aiohttp_call_counts 0 (normalized_url L)) as [Hg0 Hl0].
  pose proof (playwright_call_counts (normalized_url L)) as [Hgp Hlp].
  pose proof (method1_count is_launch L ltac:(done)) as Hl1.
  pose proof (method1_count is_get L ltac:(done)) as Hg1.
  pose proof (method2_count is_launch (method1 cfg w L) ltac:(done)) as Hl2.
  pose proof (method2_count is_get (method1 cfg w L) ltac:(done)) as Hg2.
  pose proof (method3_count is_launch (method2 cfg w (method1 cfg w L)) 0 ltac:(done)
                (fun k u => eq_ind_r (fun n => (n <= 0)%nat) (le_n 0)
                              (proj2 (aiohttp_call_counts k u)))) as Hl3.
  pose proof (method3_count is_get (method2 cfg w (method1 cfg w L)) 3 ltac:(done)
                (fun k u => proj1 (aiohttp_call_counts k u))) as Hg3.
  rewrite Hu in Hl2, Hg2.
  split; [|split].
  - destruct (no_content (method1 cfg w L)), (no_content (method2 cfg w (method1 cfg w L)));
      lia.
  - destruct (no_content (method1 cfg w L)), (no_content (method2 cfg w (method1 cfg w L)));
      lia.
  - intros html info Ho Hne.
    assert (no_content (method1 cfg w L) = false) as Hc1.
    { unfold method1, no_content. simpl. rewrite Ho. simpl. by destruct html. }
    assert (method2 cfg w (method1 cfg w L) = method1 cfg w L) as Hm2
      by (unfold method2; by rewrite Hc1).
    assert (method3 cfg w (method1 cfg w L) = (method1 cfg w L, None)) as Hm3
      by (unfold method3; by rewrite Hc1).
    rewrite Hm2, Hm3. simpl. lia.
Qed.

(** One call of [scrape_website] launches the browser at most once and
    sends at most nine requests: three attempts for the primary URL and
    for each of the two variations. *)
Theorem traffic_of_one_call (input : string) :
  (count is_launch (events (scrape_website cfg w input)) <= 1)%nat /\
  (count is_get (events (scrape_website cfg w input)) <= 9)%nat.
Proof.
  pose proof (scrape_website_count is_launch input ltac:(done)) as Hl.
  pose proof (scrape_website_count is_get input ltac:(done)) as Hg.
  rewrite Hl, Hg.
  match goal with
  | |- context [method1 cfg w ?L0] =>
      destruct (try_block_counts L0 eq_refl) as (H1 & H2 & _)
  end.
  change (count is_launch _) with 0%nat in H1 at 2.
  change (count is_get _) with 0%nat in H2 at 2.
  split; [exact H1 | exact H2].
Qed.

(** When the first aiohttp call returns markup that is not empty, the
    other two strategies are not run: no browser is launched and at most
    the three attempts for the primary URL are sent. *)
Theorem primary_success_stops_fallbacks (input html : string) (info : FetchInfo) :
  outcome (aiohttp_call cfg w 0 (Url._normalize_url input)) = inr (html, info) ->
  html <> "" ->
  count is_launch (events (scrape_website cfg w input)) = 0%nat /\
  (count is_get (events (scrape_website cfg w input)) <= 3)%nat.
Proof.
  intros Ho Hne.
  pose proof (scrape_website_count is_launch input ltac:(done)) as Hl.
  pose proof (scrape_website_count is_get input ltac:(done)) as Hg.
  rewrite Hl, Hg.
  match goal with
  | |- context [method1 cfg w ?L0] =>
      destruct (try_block_counts L0 eq_refl) as (_ & _ & H3)
  end.
  destruct (H3 html info Ho Hne) as [H4 H5].
  split; [exact H4 | exact H5].
Qed.
End TrafficBounds.

Lemma primary_success_stops_fallbacks_witness :
  count is_launch
    (events (Scraper.scrape_website default_config
       (Sample.world (fun _ _ _ => inr (Sample.response_ok "<p>hello</p>"))
            (fun _ => Sample.stalled_browser))
       "example.com")) = 0%nat /\
  (count is_get
     (events (Scraper.scrape_website default_config
        (Sample.world (fun _ _ _ => inr (Sample.response_ok "<p>hello</p>"))
            (fun _ => Sample.stalled_browser))
        "example.com")) <= 3)%nat.
Proof.
  assert (exists info,
            outcome (Scraper.aiohttp_call default_config
                       (Sample.world (fun _ _ _ => inr (Sample.response_ok "<p>hello</p>"))
            (fun _ => Sample.stalled_browser))
                       0 (Url._normalize_url "example.com"))
              = inr ("<p>hello</p>", info)) as [info Ho]
    by (eexists; vm_compute; reflexivity).
  exact (primary_success_stops_fallbacks default_config _ "example.com" _ info Ho
           ltac:(done)).
Defined.

(* ===================================================================== *)
(** ** [_generate_org_id]: the shape of an identifier *)

Section OrgIdFacts.
Import PyStr Url PlainUrl Analyzer.

Lemma app_assoc_string (a b c : string) : (a +:+ b) +:+ c = a +:+ (b +:+ c).
Proof. induction a as [|x a IH]; [by rewrite !app_empty_l|]. by rewrite !app_cons, IH. Qed.

Lemma sub_underscores_cons2 c c' s :
  sub_underscores (String c (String c' s)) =
  if is_underscore c && is_underscore c' then sub_underscores (String c' s)
  else String c (sub_underscores (String c' s)).
Proof. reflexivity. Qed.

Lemma sub_underscores_head s c :
  exists r, sub_underscores (String c s) = String c r.
Proof.
  revert c. induction s as [|c' s IH]; intros c; [by eexists|].
  rewrite sub_underscores_cons2.
  destruct (is_underscore c) eqn:Ec, (is_underscore c') eqn:Ec'; simpl;
    try by eexists.
  apply bool_decide_eq_true in Ec, Ec'. subst. apply IH.
Qed.

Lemma forallb_map_chars P f s :
  (forall c, P (f c) = true) -> forallb P (map_chars f s) = true.
Proof. intros Hf. induction s as [|c s IH]; simpl; [done|]. by rewrite Hf, IH. Qed.

Lemma forallb_sub_underscores P s :
  forallb P s = true -> forallb P (sub_underscores s) = true.
Proof.
  induction s as [|c|c c' s _ IH] using string_ind2; [done..|].
  intros H. rewrite sub_underscores_cons2.
  change (P c && forallb P (String c' s) = true) in H.
  apply andb_true_iff in H as [Hc Hs].
  destruct (is_underscore c && is_underscore c'); [by apply IH|].
  simpl. rewrite Hc. by apply IH.
Qed.

Lemma no_double_sub_underscores s : no_double_underscore (sub_underscores s) = true.
Proof.
  induction s as [|c|c c' s _ IH] using string_ind2; [done..|].
  rewrite sub_underscores_cons2.
  destruct (is_underscore c && is_underscore c') eqn:E; [done|].
  destruct (sub_underscores_head s c') as [r Hr]. rewrite Hr in *.
  change (negb (is_underscore c && is_underscore c') &&
          no_double_underscore (String c' r) = true).
  by rewrite E, IH.
Qed.

Lemma no_double_contains s :
  no_double_underscore s = true -> contains "__" s = false.
Proof.
  induction s as [|c|c c' s _ IH] using string_ind2; [done| |].
  - intros _. simpl. by destruct (decide _).
  - intros H.
    change (negb (is_underscore c && is_underscore c') &&
            no_double_underscore (String c' s) = true) in H.
    apply andb_true_iff in H as [Hc Hs]. specialize (IH Hs).
    change (startswith "__" (String c (String c' s)) || contains "__" (String c' s)
            = false).
    rewrite IH, orb_false_r. simpl.
    unfold is_underscore in Hc.
    destruct (decide ("_"%char = c)) as [<-|]; [|done].
    destruct (decide ("_"%char = c')) as [<-|]; [|done].
    done.
Qed.

Lemma lstrip_by_suffix f s : exists t, s = t +:+ lstrip_by f s.
Proof.
  induction s as [|c s [t IH]]; simpl; [by exists EmptyString|].
  destruct (f c); [|by exists EmptyString].
  exists (String c t). by rewrite app_cons, <- IH.
Qed.

Lemma rstrip_by_prefix f s : exists t, s = rstrip_by f s +:+ t.
Proof.
  induction s as [|c s [t IH]]; simpl; [by exists EmptyString|].
  destruct (rstrip_by f s) as [|b r] eqn:E.
  - destruct (f c).
    + exists (String c s). by rewrite app_empty_l.
    + exists s. rewrite app_cons, app_empty_l. done.
  - exists t. by rewrite app_cons, <- IH.
Qed.

Lemma rstrip_by_last f s c :
  last_char (rstrip_by f s) = Some c -> f c = false.
Proof.
  induction s as [|a s IH]; simpl; [done|].
  destruct (rstrip_by f s) as [|b r] eqn:E.
  - destruct (f a) eqn:Ea; simpl; [done|]. by intros [= <-].
  - intros H. by apply IH.
Qed.

Lemma org_id_of_netloc_shape netloc :
  forallb id_char (org_id_of_netloc netloc) = true /\
  contains "__" (org_id_of_netloc netloc) = false /\
  startswith "_" (org_id_of_netloc netloc) = false /\
  last_char (org_id_of_netloc netloc) <> Some "_"%char.
Proof.
  unfold org_id_of_netloc, strip_underscores.
  set (domain := if startswith "www." (lower netloc) then drop 4 (lower netloc)
                 else lower netloc).
  set (cleaned := sub_underscores (sub_foreign (replace_dots domain))).
  split; [|split; [|split]].
  - apply forallb_rstrip_by, forallb_lstrip_by, forallb_sub_underscores.
    apply forallb_map_chars. intros c. by destruct (id_char c) eqn:E.
  - destruct (contains "__" (rstrip_by _ _)) eqn:E; [|done].
    apply contains_spec in E as (a & b & E).
    destruct (rstrip_by_prefix is_underscore (lstrip_by is_underscore cleaned))
      as [t Ht].
    destruct (lstrip_by_suffix is_underscore cleaned) as [t' Ht'].
    assert (contains "__" cleaned = true) as Hc.
    { apply contains_spec. exists (t' +:+ a), (b +:+ t).
      rewrite Ht', Ht, E. by rewrite !app_assoc_string. }
    by rewrite (no_double_contains cleaned (no_double_sub_underscores _)) in Hc.
  - destruct (lstrip_by_head is_underscore cleaned) as [->|(a & r & -> & Ha)]; [done|].
    destruct (rstrip_by_head is_underscore a r Ha) as [r' ->].
    simpl. unfold is_underscore in Ha. apply bool_decide_eq_false in Ha.
    destruct (decide ("_"%char = a)); [by subst|done].
  - intros H%rstrip_by_last. done.
Qed.

(** An identifier consists of lower-case letters, digits, hyphens and
    underscores, holds no two underscores in a row, and neither starts
    nor ends with an underscore. *)
Theorem org_id_shape (f : string -> bool) (url org_id : string) :
  _generate_org_id f url = inr org_id ->
  forallb id_char org_id = true /\
  contains "__" org_id = false /\
  startswith "_" org_id = false /\
  last_char org_id <> Some "_"%char.
Proof.
  unfold _generate_org_id. destruct (urlparse f url) as [e|parsed]; [done|].
  intros [= <-]. apply org_id_of_netloc_shape.
Qed.

Lemma org_id_shape_witness :
  forallb id_char "apple_music_com" = true /\
  contains "__" "apple_music_com" = false /\
  startswith "_" "apple_music_com" = false /\
  last_char "apple_music_com" <> Some "_"%char.
Proof.
  apply (org_id_shape (fun _ => true) "https://Apple.Music.com/store").
  vm_compute. reflexivity.
Defined.

Lemma org_id_of_plain_url f (secure : bool) host rest :
  forallb host_char host = true -> path_like rest = true ->
  _generate_org_id f ((if secure then "https://" else "http://") +:+ host +:+ rest)
  = inr (org_id_of_netloc host).
Proof.
  intros Hhost Hrest. unfold _generate_org_id. by rewrite urlparse_plain.
Qed.

(** The identifier of a plain URL depends on the host alone, and a
    leading [www.] of the host is dropped: the scheme, the path and the
    [www.] prefix do not tell two URLs apart. *)
Theorem org_id_ignores_scheme_path_and_www (f : string -> bool)
    (secure secure' : bool) (host rest rest' : string) :
  forallb host_char host = true ->
  startswith "www." host = false ->
  path_like rest = true -> path_like rest' = true ->
  _generate_org_id f
    ((if secure then "https://" else "http://") +:+ ("www." +:+ host) +:+ rest) =
  _generate_org_id f
    ((if secure' then "https://" else "http://") +:+ host +:+ rest').
Proof.
  intros Hhost Hwww Hrest Hrest'.
  assert (lower host = host) as Hlower.
  { apply lower_fixed. eapply forallb_impl; [|exact Hhost]. intros a Ha.
    apply bool_decide_eq_true.
    by destruct (host_char_plain a Ha) as (?&?&?&?&?&?&?&?&?&?&?). }
  rewrite (org_id_of_plain_url f secure' host rest') by done.
  rewrite (org_id_of_plain_url f secure ("www." +:+ host) rest)
    by (done || by rewrite forallb_app, Hhost).
  f_equal. unfold org_id_of_netloc. rewrite lower_app, !Hlower, Hwww.
  assert (startswith "www." (lower "www." +:+ host) = true) as ->
    by (apply startswith_spec; by eexists).
  done.
Qed.

Lemma org_id_ignores_scheme_path_and_www_witness :
  Analyzer._generate_org_id (fun _ => true) "https://www.apple.com/store" =
  Analyzer._generate_org_id (fun _ => true) "http://apple.com".
Proof.
  exact (org_id_ignores_scheme_path_and_www (fun _ => true) true false
           "apple.com" "/store" "" eq_refl eq_refl eq_refl eq_refl).
Defined.
End OrgIdFacts.

(* ===================================================================== *)
(** ** The fallback technology stacks *)

Section FallbackFacts.
Import Analyzer.
Variable lower : string -> string.

Lemma foldl_insert_lookup (l : list string) (m : gmap string string) k t :
  foldl (fun m t => <[lower t := t]> m) m l !! k = Some t ->
  m !! k = Some t \/ t ∈ l.
Proof.
  revert m. induction l as [|a l IH]; intros m; simpl; [by left|].
  intros [H|H]%IH.
  - apply lookup_insert_Some in H as [[_ <-]|[_ H]].
    + right. apply list_elem_of_here.
    + by left.
  - right. by apply list_elem_of_further.
Qed.

Lemma detected_lower_elem l k t : detected_lower lower l !! k = Some t -> t ∈ l.
Proof. intros [H|H]%foldl_insert_lookup; [by rewrite lookup_empty in H | done]. Qed.

Lemma when_present_names d name update s x :
  (forall t s x, x ∈ names (update t s) -> x = t \/ x ∈ names s) ->
  x ∈ names (when_present d name update s) ->
  d !! name = Some x \/ x ∈ names s.
Proof.
  intros Hupdate. unfold when_present. destruct (d !! name) as [t|]; [|by right].
  intros [->|H]%Hupdate; [by left | by right].
Qed.

Lemma set_crm_system_names t s x :
  x ∈ names (set_crm_system t s) -> x = t \/ x ∈ names s.
Proof.
  unfold names. simpl. rewrite !elem_of_cons, !elem_of_app. intros [H|H]; [by left|].
  right. right. exact H.
Qed.

Lemma append_communication_names t s x :
  x ∈ names (append_communication t s) -> x = t \/ x ∈ names s.
Proof.
  unfold names. simpl. rewrite !elem_of_app, list_elem_of_singleton. tauto.
Qed.

Lemma append_scheduling_names t s x :
  x ∈ names (append_scheduling t s) -> x = t \/ x ∈ names s.
Proof.
  unfold names. simpl. rewrite !elem_of_app, list_elem_of_singleton. tauto.
Qed.

Lemma append_document_names t s x :
  x ∈ names (append_document t s) -> x = t \/ x ∈ names s.
Proof.
  unfold names. simpl. rewrite !elem_of_app, list_elem_of_singleton. tauto.
Qed.

Lemma append_automation_names t s x :
  x ∈ names (append_automation t s) -> x = t \/ x ∈ names s.
Proof.
  unfold names. simpl. rewrite !elem_of_app, list_elem_of_singleton. tauto.
Qed.

Lemma append_analytics_names t s x :
  x ∈ names (append_analytics t s) -> x = t \/ x ∈ names s.
Proof.
  unfold names. simpl. rewrite !elem_of_app, list_elem_of_singleton. tauto.
Qed.

(** The stack built without the model names nothing but detected
    technologies, however the names are spelled. *)
Theorem fallback_stack_names_detected (detected : list string) (name : string) :
  name ∈ names (_create_fallback_tech_stack lower detected) -> name ∈ detected.
Proof.
  unfold _create_fallback_tech_stack. cbv zeta. intros H.
  repeat (apply when_present_names in H as [H|H];
          [by apply detected_lower_elem in H | |
           first [ apply set_crm_system_names | apply append_communication_names
                 | apply append_scheduling_names | apply append_document_names
                 | apply append_automation_names | apply append_analytics_names ]]).
  unfold names in H. simpl in H. by apply elem_of_nil in H.
Qed.

Lemma foldl_insert_perm (l l' : list string) (m : gmap string string) :
  l ≡ₚ l' -> NoDup (lower <$> l) ->
  foldl (fun m t => <[lower t := t]> m) m l =
  foldl (fun m t => <[lower t := t]> m) m l'.
Proof.
  intros Hperm. revert m.
  induction Hperm as [|x l l' Hperm IH|x y l|l l' l'' H1 IH1 H2 IH2]; intros m Hnd.
  - done.
  - simpl. apply IH. rewrite fmap_cons in Hnd. by apply NoDup_cons in Hnd as [_ ?].
  - simpl. rewrite !fmap_cons in Hnd.
    apply NoDup_cons in Hnd as [Hy _].
    rewrite insert_insert_ne; [done|].
    intros Heq. apply Hy. rewrite Heq. apply list_elem_of_here.
  - rewrite IH1 by done. apply IH2. by rewrite <- H1.
Qed.

(** The stack built without the model does not depend on the order in
    which the detected names are listed, as long as no two of them have
    the same lower-case form. *)
Theorem fallback_stack_order_independent (detected detected' : list string) :
  detected ≡ₚ detected' -> NoDup (lower <$> detected) ->
  _create_fallback_tech_stack lower detected =
  _create_fallback_tech_stack lower detected'.
Proof.
  intros Hperm Hnd. unfold _create_fallback_tech_stack, detected_lower.
  by rewrite (foldl_insert_perm _ _ ∅ Hperm Hnd).
Qed.



End FallbackFacts.

Lemma fallback_stack_names_detected_witness :
  "Slack" ∈ ["Slack"; "HubSpot"].
Proof.
  apply (fallback_stack_names_detected PyStr.lower ["Slack"; "HubSpot"] "Slack").
  vm_compute. right. left.
Defined.

Lemma fallback_stack_order_independent_witness :
  Analyzer._create_fallback_tech_stack PyStr.lower ["Zapier"; "HubSpot"; "Calendly"] =
  Analyzer._create_fallback_tech_stack PyStr.lower ["Calendly"; "Zapier"; "HubSpot"].
Proof.
  apply (fallback_stack_order_independent PyStr.lower).
  - apply (Permutation_app_comm ["Zapier"; "HubSpot"] ["Calendly"]).
  - apply (bool_decide_unpack _). vm_compute. exact I.
Defined.

